(** * Schedule change detection and notification pipeline

    A shallow embedding of the change-detection core of the schedule bot
    and the proofs of its specification:

    - [services/schedule_service.py]: normalisation of an event, its
      identity key, the diff of two collections, the session filter;
    - [database/db.py]: the users, schedule snapshots and their
      content hash, the fingerprints of sent notifications, the system
      state;
    - [services/notification_service.py]: the dispatch of a diff to the
      subscribers of a group;
    - [services/scheduler_service.py]: the check of one group, the
      cycle over the groups and the session check;
    - [services/spbu_api.py]: the retries of a request, the events of
      a response, the session filter.

    Python values that reach the code from the schedule API are JSON
    values; a Python string is the [string] of its UTF-8 bytes (substring
    tests, joins, comparisons and ordering by code point agree with the
    byte-level operations on well-formed UTF-8).  A call that can raise
    returns a [result]; the services run in a state monad over the
    database and a log of their effects.  The digests are computed:
    [SHA256] and [Json.dumps] below give the very strings
    [hashlib.sha256] and [json.dumps] give. *)

From Stdlib Require Import ZArith NArith Ascii String List Bool DecimalString.
From stdpp Require Import base option list gmap strings sets fin_maps.

Local Open Scope Z_scope.
#[local] Set Warnings "-clear-no-such-hyp".
#[local] Set Default Proof Using "Type".

(* ===================================================================== *)
(** ** Python strings *)
(* ===================================================================== *)

Module PyStr.

Definition byte_in (lo hi : N) (c : ascii) : bool :=
  (lo <=? N_of_ascii c)%N && (N_of_ascii c <=? hi)%N.

Definition shift_byte (d : Z) (c : ascii) : ascii :=
  ascii_of_N (Z.to_N (Z.of_N (N_of_ascii c) + d)).

(** [str.lower()] on the Latin letters of ASCII and on the Cyrillic block
    U+0400..U+042F (the alphabets of every keyword of the program);
    other code points are left as they are.  In UTF-8 an upper-case
    Cyrillic letter is [D0 xx]:
    [D0 80..8F] (U+0400..040F) maps to [D1 90..9F],
    [D0 90..9F] (U+0410..041F) maps to [D0 B0..BF],
    [D0 A0..AF] (U+0420..042F) maps to [D1 80..8F]. *)
Fixpoint lower (s : string) : string :=
  match s with
  | EmptyString => EmptyString
  | String a r =>
      if byte_in 65 90 a then String (shift_byte 32 a) (lower r)
      else if N.eqb (N_of_ascii a) 208 then
        match r with
        | String b r' =>
            if byte_in 128 143 b
            then String (ascii_of_N 209) (String (shift_byte 16 b) (lower r'))
            else if byte_in 144 159 b
            then String a (String (shift_byte 32 b) (lower r'))
            else if byte_in 160 175 b
            then String (ascii_of_N 209) (String (shift_byte (-32) b) (lower r'))
            else String a (String b (lower r'))
        | EmptyString => s
        end
      else String a (lower r)
  end.

(** [kw in s] for strings. *)
Fixpoint contains (kw s : string) : bool :=
  String.prefix kw s ||
  match s with
  | EmptyString => false
  | String _ r => contains kw r
  end.

(** [sep.join(parts)] for a list of strings. *)
Fixpoint join (sep : string) (parts : list string) : string :=
  match parts with
  | [] => EmptyString
  | [p] => p
  | p :: rest => p +:+ sep +:+ join sep rest
  end.

Definition concat (parts : list string) : string :=
  fold_right String.append EmptyString parts.

(** The code points of a string, each as the string of its UTF-8 bytes:
    a continuation byte [10xxxxxx] stays with the byte before it. *)
Definition is_continuation (c : ascii) : bool := byte_in 128 191 c.

Fixpoint chars_go (cur : string) (s : string) : list string :=
  match s with
  | EmptyString => [cur]
  | String c r =>
      if is_continuation c then chars_go (cur +:+ String c EmptyString) r
      else cur :: chars_go (String c EmptyString) r
  end.

Definition chars (s : string) : list string :=
  match s with
  | EmptyString => []
  | String c r => chars_go (String c EmptyString) r
  end.

(** Decimal text of an integer, [str(n)]. *)
Definition of_Z (z : Z) : string := NilZero.string_of_int (Z.to_int z).

(** [a < b] on strings (by code point, which is by UTF-8 byte). *)
Fixpoint ltb (a b : string) : bool :=
  match a, b with
  | EmptyString, EmptyString => false
  | EmptyString, String _ _ => true
  | String _ _, EmptyString => false
  | String x a', String y b' =>
      if (N_of_ascii x <? N_of_ascii y)%N then true
      else if (N_of_ascii y <? N_of_ascii x)%N then false
      else ltb a' b'
  end.

End PyStr.

(* ===================================================================== *)
(** ** SHA-256, as [hashlib.sha256(data).hexdigest()] *)
(* ===================================================================== *)

Module SHA256.
Local Open Scope N_scope.

Definition mask32 : N := 4294967295.
Definition w32 (x : N) : N := N.land x mask32.
Definition add32 (a b : N) : N := w32 (a + b).
Definition rotr (n x : N) : N := N.lor (N.shiftr x n) (w32 (N.shiftl x (32 - n))).
Definition xor3 (a b c : N) : N := N.lxor (N.lxor a b) c.

Definition Ch (x y z : N) : N := N.lxor (N.land x y) (N.land (N.lxor x mask32) z).
Definition Maj (x y z : N) : N := xor3 (N.land x y) (N.land x z) (N.land y z).
Definition Sigma0 (x : N) : N := xor3 (rotr 2 x) (rotr 13 x) (rotr 22 x).
Definition Sigma1 (x : N) : N := xor3 (rotr 6 x) (rotr 11 x) (rotr 25 x).
Definition sigma0 (x : N) : N := xor3 (rotr 7 x) (rotr 18 x) (N.shiftr x 3).
Definition sigma1 (x : N) : N := xor3 (rotr 17 x) (rotr 19 x) (N.shiftr x 10).

Definition K : list N :=
  [1116352408; 1899447441; 3049323471; 3921009573; 961987163; 1508970993;
   2453635748; 2870763221; 3624381080; 310598401; 607225278; 1426881987;
   1925078388; 2162078206; 2614888103; 3248222580; 3835390401; 4022224774;
   264347078; 604807628; 770255983; 1249150122; 1555081692; 1996064986;
   2554220882; 2821834349; 2952996808; 3210313671; 3336571891; 3584528711;
   113926993; 338241895; 666307205; 773529912; 1294757372; 1396182291;
   1695183700; 1986661051; 2177026350; 2456956037; 2730485921; 2820302411;
   3259730800; 3345764771; 3516065817; 3600352804; 4094571909; 275423344;
   430227734; 506948616; 659060556; 883997877; 958139571; 1322822218;
   1537002063; 1747873779; 1955562222; 2024104815; 2227730452; 2361852424;
   2428436474; 2756734187; 3204031479; 3329325298].

Definition H0 : list N :=
  [1779033703; 3144134277; 1013904242; 2773480762;
   1359893119; 2600822924; 528734635; 1541459225].

Definition bytes_of (s : string) : list N := List.map N_of_ascii (list_ascii_of_string s).

(** Big-endian bytes of [x], [n] of them. *)
Fixpoint be_bytes (n : nat) (x : N) : list N :=
  match n with
  | O => []
  | S n' => N.land (N.shiftr x (8 * N.of_nat n')) 255 :: be_bytes n' x
  end.

Definition pad (msg : list N) : list N :=
  let len := N.of_nat (length msg) in
  let zeros := N.to_nat ((64 - (len + 9) mod 64) mod 64) in
  msg ++ [128] ++ repeat 0 zeros ++ be_bytes 8 (8 * len).

Fixpoint words (n : nat) (bs : list N) : list N :=
  match n with
  | O => []
  | S n' =>
      match bs with
      | a :: b :: c :: d :: rest =>
          (N.shiftl a 24 + N.shiftl b 16 + N.shiftl c 8 + d) :: words n' rest
      | _ => []
      end
  end.

(** The message schedule, most recent word first. *)
Fixpoint extend (n : nat) (rev_ws : list N) : list N :=
  match n with
  | O => rev_ws
  | S n' =>
      let w := add32 (add32 (sigma1 (nth 1 rev_ws 0)) (nth 6 rev_ws 0))
                     (add32 (sigma0 (nth 14 rev_ws 0)) (nth 15 rev_ws 0)) in
      extend n' (w :: rev_ws)
  end.

Definition schedule (block : list N) : list N := rev (extend 48 (rev block)).

Record regs := Regs { ra : N; rb : N; rc : N; rd : N; re : N; rf : N; rg : N; rh : N }.

Definition round (r : regs) (kw : N * N) : regs :=
  let t1 := add32 (add32 (add32 (rh r) (Sigma1 (re r))) (Ch (re r) (rf r) (rg r)))
                  (add32 (fst kw) (snd kw)) in
  let t2 := add32 (Sigma0 (ra r)) (Maj (ra r) (rb r) (rc r)) in
  Regs (add32 t1 t2) (ra r) (rb r) (rc r) (add32 (rd r) t1) (re r) (rf r) (rg r).

Definition regs_of (h : list N) : regs :=
  Regs (nth 0 h 0) (nth 1 h 0) (nth 2 h 0) (nth 3 h 0)
       (nth 4 h 0) (nth 5 h 0) (nth 6 h 0) (nth 7 h 0).

Definition list_of (r : regs) : list N :=
  [ra r; rb r; rc r; rd r; re r; rf r; rg r; rh r].

Definition compress (h : list N) (block : list N) : list N :=
  let r := fold_left round (combine K (schedule block)) (regs_of h) in
  List.map (fun p => add32 (fst p) (snd p)) (combine h (list_of r)).

Fixpoint blocks (n : nat) (ws : list N) : list (list N) :=
  match n with
  | O => []
  | S n' => firstn 16 ws :: blocks n' (skipn 16 ws)
  end.

Definition digest_words (msg : list N) : list N :=
  let padded := pad msg in
  let ws := words (length padded / 4) padded in
  fold_left compress (blocks (length ws / 16) ws) H0.

Definition hex_digit (n : N) : ascii :=
  if n <? 10 then ascii_of_N (48 + n) else ascii_of_N (87 + n).

Definition hex_byte (b : N) : string :=
  String (hex_digit (N.shiftr b 4)) (String (hex_digit (N.land b 15)) EmptyString).

Definition hexdigest (s : string) : string :=
  PyStr.concat (List.map hex_byte (flat_map (be_bytes 4) (digest_words (bytes_of s)))).

End SHA256.

(* ===================================================================== *)
(** ** Python values and exceptions *)
(* ===================================================================== *)

(** A value decoded from JSON.  An object keeps its items in order; a
    well-formed one has no repeated key, and a lookup reads the first
    binding of a key.  Numbers are the integers: the fractional numbers
    of the API (the coordinates of a location) reach nothing but the
    content hash. *)
#[warnings="-register-all"]
Inductive json : Type :=
  | JNull
  | JBool (b : bool)
  | JNum (z : Z)
  | JStr (s : string)
  | JArr (items : list json)
  | JObj (fields : list (string * json)).

(** A schedule event, or any other [dict] with string keys. *)
Abbreviation pydict := (list (string * json)).
Abbreviation event := (list (string * json)).

Inductive exn : Type :=
  | TypeError
  | AttributeError
  | KeyError
  | SpbuApiError
  | OtherError.

(** The outcome of a call: a value, or a raised exception. *)
Inductive result (A : Type) : Type :=
  | Ok (a : A)
  | Raise (e : exn).
Arguments Ok {A} a.
Arguments Raise {A} e.

Definition rbind {A B} (r : result A) (f : A -> result B) : result B :=
  match r with
  | Ok a => f a
  | Raise e => Raise e
  end.

Declare Scope result_scope.
Delimit Scope result_scope with result.
Notation "x <- r ;; k" := (rbind r (fun x => k))
  (at level 100, r at next level, right associativity) : result_scope.

Definition is_ok {A} (r : result A) : bool :=
  match r with Ok _ => true | Raise _ => false end.

Fixpoint mapR {A B} (f : A -> result B) (l : list A) : result (list B) :=
  match l with
  | [] => Ok []
  | a :: rest => (b <- f a ;; bs <- mapR f rest ;; Ok (b :: bs))%result
  end.

Module Py.

(** [bool(v)] *)
Definition truthy (v : json) : bool :=
  match v with
  | JNull => false
  | JBool b => b
  | JNum z => negb (z =? 0)
  | JStr s => negb (String.eqb s EmptyString)
  | JArr l => match l with [] => false | _ => true end
  | JObj l => match l with [] => false | _ => true end
  end.

(** [a or b] *)
Definition or_ (a b : json) : json := if truthy a then a else b.

Fixpoint assoc {V} (k : string) (d : list (string * V)) : option V :=
  match d with
  | [] => None
  | (k', v) :: rest => if String.eqb k' k then Some v else assoc k rest
  end.

(** [d.get(k)] and [d.get(k, default)] *)
Definition get (d : pydict) (k : string) : json := default JNull (assoc k d).
Definition get_or (d : pydict) (k : string) (dflt : json) : json :=
  default dflt (assoc k d).

(** [d[k] = v] *)
Fixpoint set (k : string) (v : json) (d : pydict) : pydict :=
  match d with
  | [] => [(k, v)]
  | (k', v') :: rest =>
      if String.eqb k' k then (k', v) :: rest else (k', v') :: set k v rest
  end.

(** [{**a, **b}] *)
Definition merge (a b : pydict) : pydict :=
  fold_left (fun d kv => set (fst kv) (snd kv) d) b a.

(** [a == b]: [True == 1] and [False == 0] hold, lists compare item by
    item, dicts compare as maps. *)
Fixpoint eqb (a b : json) {struct a} : bool :=
  match a, b with
  | JNull, JNull => true
  | JBool x, JBool y => Bool.eqb x y
  | JBool x, JNum z => z =? (if x then 1 else 0)
  | JNum z, JBool x => z =? (if x then 1 else 0)
  | JNum x, JNum y => x =? y
  | JStr x, JStr y => String.eqb x y
  | JArr l, JArr l' =>
      (fix go (l l' : list json) : bool :=
         match l, l' with
         | [], [] => true
         | x :: r, y :: r' => eqb x y && go r r'
         | _, _ => false
         end) l l'
  | JObj d, JObj d' =>
      Nat.eqb (length d) (length d') &&
      (fix go (d : list (string * json)) : bool :=
         match d with
         | [] => true
         | (k, v) :: r =>
             match assoc k d' with
             | Some v' => eqb v v'
             | None => false
             end && go r
         end) d
  | _, _ => false
  end.

Fixpoint list_eqb (l l' : list json) : bool :=
  match l, l' with
  | [], [] => true
  | x :: r, y :: r' => eqb x y && list_eqb r r'
  | _, _ => false
  end.

(** [for x in v]: the items of a list, the keys of a dict, the
    characters of a string; anything else is not iterable. *)
Definition iter (v : json) : result (list json) :=
  match v with
  | JArr l => Ok l
  | JObj d => Ok (List.map (fun kv => JStr (fst kv)) d)
  | JStr s => Ok (List.map JStr (PyStr.chars s))
  | _ => Raise TypeError
  end.

(** [v.lower()], defined on strings only. *)
Definition lower (v : json) : result string :=
  match v with
  | JStr s => Ok (PyStr.lower s)
  | _ => Raise AttributeError
  end.

(** [sep.join(items)]: every item must be a string. *)
Definition as_str (v : json) : result string :=
  match v with
  | JStr s => Ok s
  | _ => Raise TypeError
  end.

Definition join (sep : string) (items : list json) : result string :=
  (parts <- mapR as_str items ;; Ok (PyStr.join sep parts))%result.

End Py.

(* ===================================================================== *)
(** ** [json.dumps(v, sort_keys=..., ensure_ascii=False)] *)
(* ===================================================================== *)

Module Json.

Definition quote : string := String (ascii_of_N 34) EmptyString.
Definition backslash : string := String (ascii_of_N 92) EmptyString.

Definition hex4 (n : N) : string :=
  "00" +:+ SHA256.hex_byte n.

Definition escape_char (c : ascii) : string :=
  let n := N_of_ascii c in
  if N.eqb n 34 then backslash +:+ quote
  else if N.eqb n 92 then backslash +:+ backslash
  else if N.eqb n 8 then backslash +:+ "b"
  else if N.eqb n 12 then backslash +:+ "f"
  else if N.eqb n 10 then backslash +:+ "n"
  else if N.eqb n 13 then backslash +:+ "r"
  else if N.eqb n 9 then backslash +:+ "t"
  else if (n <? 32)%N then backslash +:+ "u" +:+ hex4 n
  else String c EmptyString.

Fixpoint escape (s : string) : string :=
  match s with
  | EmptyString => EmptyString
  | String c r => escape_char c +:+ escape r
  end.

Definition dump_str (s : string) : string := quote +:+ escape s +:+ quote.

(** Stable insertion sort of rendered items by key. *)
Fixpoint insert_item (kv : string * string) (l : list (string * string)) :=
  match l with
  | [] => [kv]
  | kv' :: rest =>
      if PyStr.ltb (fst kv) (fst kv') then kv :: l else kv' :: insert_item kv rest
  end.

Definition sort_items (l : list (string * string)) : list (string * string) :=
  fold_right insert_item [] l.

Definition dump_item (kv : string * string) : string :=
  dump_str (fst kv) +:+ ": " +:+ snd kv.

Fixpoint dumps (sort_keys : bool) (v : json) : string :=
  match v with
  | JNull => "null"
  | JBool true => "true"
  | JBool false => "false"
  | JNum z => PyStr.of_Z z
  | JStr s => dump_str s
  | JArr l => "[" +:+ PyStr.join ", " (List.map (dumps sort_keys) l) +:+ "]"
  | JObj d =>
      let items := List.map (fun kv => let '(k, x) := kv in (k, dumps sort_keys x)) d in
      let items := if sort_keys then sort_items items else items in
      "{" +:+ PyStr.join ", " (List.map dump_item items) +:+ "}"
  end.

End Json.

(** A value as [json.loads] builds it: no dict holds a key twice. *)
Fixpoint well_formed (v : json) : bool :=
  match v with
  | JArr l => forallb well_formed l
  | JObj d =>
      bool_decide (NoDup (List.map fst d))
      && forallb (fun kv => let '(_, x) := kv in well_formed x) d
  | _ => true
  end.

(** Two values that differ at most in the order in which their dicts,
    at any depth, list their keys. *)
#[warnings="-register-all"]
Inductive same_up_to_key_order : json -> json -> Prop :=
  | same_value (v : json) : same_up_to_key_order v v
  | same_items (l l' : list json) :
      Forall2 same_up_to_key_order l l' ->
      same_up_to_key_order (JArr l) (JArr l')
  | same_fields (d d' reordered : list (string * json)) :
      NoDup (List.map fst d) ->
      d ≡ₚ reordered ->
      Forall2 (fun kv kv' => fst kv = fst kv' /\ same_up_to_key_order (snd kv) (snd kv'))
        reordered d' ->
      same_up_to_key_order (JObj d) (JObj d').

(* ===================================================================== *)
(** ** The Python runtime *)
(* ===================================================================== *)

(** What the program takes from the interpreter without fixing it:
    [repr] of a list or dict (reached only when a date, subject or kind
    is not a scalar), and the order in which a [set] of strings is
    iterated, which is some enumeration of its elements. *)
Class Runtime := {
  py_repr : json -> string;
  set_iter : gset string -> list string;
  set_iter_perm : forall X, set_iter X ≡ₚ elements X
}.

Module PyRepr.

Definition squote : string := "'".

Definition hex2 (n : N) : string := "x" +:+ SHA256.hex_byte n.

Definition escape_char (q : ascii) (c : ascii) : string :=
  let n := N_of_ascii c in
  if N.eqb n 92 then Json.backslash +:+ Json.backslash
  else if Ascii.eqb c q then Json.backslash +:+ String c EmptyString
  else if N.eqb n 10 then Json.backslash +:+ "n"
  else if N.eqb n 13 then Json.backslash +:+ "r"
  else if N.eqb n 9 then Json.backslash +:+ "t"
  else if (n <? 32)%N || N.eqb n 127 then Json.backslash +:+ hex2 n
  else String c EmptyString.

Fixpoint escape (q : ascii) (s : string) : string :=
  match s with
  | EmptyString => EmptyString
  | String c r => escape_char q c +:+ escape q r
  end.

(** [repr(s)]: single quotes, unless the text has one and no double
    quote.  Code points above ASCII are taken as printable. *)
Definition of_str (s : string) : string :=
  let q := if PyStr.contains squote s && negb (PyStr.contains Json.quote s)
           then ascii_of_N 34 else ascii_of_N 39 in
  String q EmptyString +:+ escape q s +:+ String q EmptyString.

Fixpoint repr (v : json) : string :=
  match v with
  | JNull => "None"
  | JBool true => "True"
  | JBool false => "False"
  | JNum z => PyStr.of_Z z
  | JStr s => of_str s
  | JArr l => "[" +:+ PyStr.join ", " (List.map repr l) +:+ "]"
  | JObj d =>
      "{" +:+ PyStr.join ", "
               (List.map (fun kv => let '(k, x) := kv in of_str k +:+ ": " +:+ repr x) d)
          +:+ "}"
  end.

End PyRepr.

(** [str(v)], as an f-string renders a field. *)
Definition py_str `{Runtime} (v : json) : string :=
  match v with
  | JStr s => s
  | JNull => "None"
  | JBool true => "True"
  | JBool false => "False"
  | JNum z => PyStr.of_Z z
  | _ => py_repr v
  end.

(* ===================================================================== *)
(** ** The data model *)
(* ===================================================================== *)

(** The dict returned by [normalize_event]. *)
Record normalized := {
  date : json;
  time_start : json;
  time_end : json;
  time_interval : json;
  subject : json;
  kind : json;
  educators : list json;
  locations : list json;
  is_online : bool
}.

(** One entry of the [changed] bucket. *)
Record change := {
  old : option event;
  new : option event;
  changes : list string
}.

(** The dict returned by [compare_schedules]. *)
Record diff := {
  added : list event;
  removed : list event;
  changed : list change
}.

(* ===================================================================== *)
(** ** database/db.py *)
(* ===================================================================== *)

(** A row of table [users]. *)
Record user_row := {
  user_id : Z;
  group_id : option Z;
  group_name : option string;
  notifications_enabled : Z
}.

(** The tables.  [schedule_snapshots] is keyed by its unique pair
    (group_id, snapshot_type) and holds (schedule_hash, schedule_data);
    the data column is the [json.dumps] text of the events and is read
    back with [json.loads], so the model keeps the events themselves.
    [sent_notifications] is the set of its unique pairs
    (user_id, notification_hash). *)
Record Database := {
  users : list user_row;
  schedule_snapshots : gmap (Z * string) (string * list event);
  sent_notifications : gset (Z * string);
  system_state : gmap string string
}.

Definition _hash_schedule (schedule_data : list event) : string :=
  SHA256.hexdigest (Json.dumps true (JArr (List.map JObj schedule_data))).

Definition get_schedule_snapshot (db : Database) (group_id : Z) (snapshot_type : string)
  : option string * option (list event) :=
  match schedule_snapshots db !! (group_id, snapshot_type) with
  | Some (h, data) => (Some h, Some data)
  | None => (None, None)
  end.

(** [INSERT ... ON CONFLICT(group_id, snapshot_type) DO UPDATE]; returns
    the new hash. *)
Definition save_schedule_snapshot (db : Database) (group_id : Z)
    (schedule_data : list event) (snapshot_type : string) : string * Database :=
  let schedule_hash := _hash_schedule schedule_data in
  (schedule_hash,
   {| users := users db;
      schedule_snapshots :=
        <[(group_id, snapshot_type) := (schedule_hash, schedule_data)]> (schedule_snapshots db);
      sent_notifications := sent_notifications db;
      system_state := system_state db |}).

Definition _hash_notification (user_id : Z) (notification_data : pydict) : string :=
  let data := Py.merge [("user_id", JNum user_id)] notification_data in
  SHA256.hexdigest (Json.dumps true (JObj data)).

Definition is_notification_sent (db : Database) (user_id : Z) (notification_data : pydict)
  : bool :=
  bool_decide ((user_id, _hash_notification user_id notification_data) ∈ sent_notifications db).

(** [INSERT OR IGNORE INTO sent_notifications] *)
Definition mark_notification_sent (db : Database) (user_id : Z) (notification_data : pydict)
  : Database :=
  {| users := users db;
     schedule_snapshots := schedule_snapshots db;
     sent_notifications :=
       {[ (user_id, _hash_notification user_id notification_data) ]} ∪ sent_notifications db;
     system_state := system_state db |}.

(** [SELECT * FROM users WHERE group_id = ? (AND notifications_enabled = 1)] *)
Definition get_users_by_group (db : Database) (g : Z) (notifications_only : bool)
  : list user_row :=
  List.filter
    (fun u => bool_decide (group_id u = Some g)
              && (negb notifications_only || (notifications_enabled u =? 1)))
    (users db).

(** What the program takes from SQLite without fixing it: the order in
    which [SELECT DISTINCT] lists the values it keeps. *)
Class Sqlite := {
  select_distinct : list Z -> list Z;
  select_distinct_perm : forall l, select_distinct l ≡ₚ remove_dups l
}.

(** [SELECT * FROM users WHERE user_id = ?], the first row. *)
Definition get_user (db : Database) (uid : Z) : option user_row :=
  List.find (fun row => user_id row =? uid) (users db).

(** The columns of the users table that the program reads, row by
    row. *)
Definition user_columns (db : Database) : list (Z * option Z * option string * Z) :=
  List.map (fun row => (user_id row, group_id row, group_name row,
                        notifications_enabled row)) (users db).

Definition with_users (db : Database) (rows : list user_row) : Database :=
  {| users := rows;
     schedule_snapshots := schedule_snapshots db;
     sent_notifications := sent_notifications db;
     system_state := system_state db |}.

(** [int(flag)] *)
Definition int_of_bool (b : bool) : Z := if b then 1 else 0.

(** The [SET] clauses of the [UPDATE]: one for each argument that is
    not [None]. *)
Definition update_user (gid : option Z) (gname : option string) (flag : option bool)
    (row : user_row) : user_row :=
  {| user_id := user_id row;
     group_id := match gid with Some g => Some g | None => group_id row end;
     group_name := match gname with Some n => Some n | None => group_name row end;
     notifications_enabled :=
       match flag with Some b => int_of_bool b | None => notifications_enabled row end |}.

(** [create_or_update_user]: a new row, with notifications on unless
    told otherwise, or an update of the columns that were given.  The
    new row goes to the end of the list; nothing below depends on its
    place.  A row of the table has two columns more, [created_at] and
    [updated_at]: the [INSERT] fills them by default and every [UPDATE]
    sets [updated_at = CURRENT_TIMESTAMP].  No code of the program
    reads them and [user_row] does not carry them, so a statement about
    the rows is a statement about the four columns it does carry. *)
Definition create_or_update_user (db : Database) (uid : Z)
    (gid : option Z) (gname : option string) (flag : option bool) : Database :=
  match get_user db uid with
  | None =>
      with_users db
        (users db ++
         [ {| user_id := uid;
              group_id := gid;
              group_name := gname;
              notifications_enabled :=
                match flag with None => 1 | Some b => int_of_bool b end |} ])
  | Some _ =>
      match gid, gname, flag with
      | None, None, None => db
      | _, _, _ =>
          with_users db
            (List.map (fun row => if user_id row =? uid
                                  then update_user gid gname flag row else row)
               (users db))
      end
  end.

Definition set_user_group (db : Database) (uid g : Z) (gname : string) : Database :=
  create_or_update_user db uid (Some g) (Some gname) None.

(** [toggle_notifications]: the new state, [False] for a user without
    a row. *)
Definition toggle_notifications (db : Database) (uid : Z) : bool * Database :=
  match get_user db uid with
  | None => (false, db)
  | Some user =>
      let new_state := negb (Py.truthy (JNum (notifications_enabled user))) in
      (new_state, create_or_update_user db uid None None (Some new_state))
  end.

(** [SELECT DISTINCT group_id FROM users WHERE group_id IS NOT NULL] *)
Definition get_all_unique_groups `{Sqlite} (db : Database) : list Z :=
  select_distinct (omap group_id (users db)).

Definition get_system_state (db : Database) (key : string) : option string :=
  system_state db !! key.

(** [INSERT INTO system_state ... ON CONFLICT(key) DO UPDATE] *)
Definition set_system_state (db : Database) (key value : string) : Database :=
  {| users := users db;
     schedule_snapshots := schedule_snapshots db;
     sent_notifications := sent_notifications db;
     system_state := <[key := value]> (system_state db) |}.

(* ===================================================================== *)
(** ** services/spbu_api.py *)
(* ===================================================================== *)

(** What one [session.get] of [_request] comes to: a response with its
    status and decoded body, an [aiohttp.ClientError], or any other
    exception.  A body that cannot be decoded counts as the exception
    its decoding raises. *)
Inductive reply :=
  | Response (status : Z) (body : json)
  | ClientError
  | UnexpectedError.

(** What [_request] does on the network and to the clock. *)
Inductive net_effect :=
  | Get (attempt : nat)
  | Sleep (seconds : Z).

(** The loop [for attempt in range(max_retries)] from [attempt] on,
    [remaining] turns being left; [server] answers the attempts.  A
    status of 500 or more and a client error are tried again after
    [2 ** attempt] seconds, unless the attempt is the last one; every
    failure is raised as [SpbuApiError]. *)
Fixpoint _request_loop (server : nat -> reply) (max_retries : nat)
    (attempt remaining : nat) : result json * list net_effect :=
  match remaining with
  | O => (Raise SpbuApiError, [])
  | S rest =>
      let '(r, es) :=
        match server attempt with
        | Response status body =>
            if status =? 200 then (Ok body, [])
            else if (status >=? 500) && (attempt <? max_retries - 1)%nat then
              let '(r, es) := _request_loop server max_retries (S attempt) rest in
              (r, Sleep (2 ^ Z.of_nat attempt) :: es)
            else (Raise SpbuApiError, [])
        | ClientError =>
            if (attempt <? max_retries - 1)%nat then
              let '(r, es) := _request_loop server max_retries (S attempt) rest in
              (r, Sleep (2 ^ Z.of_nat attempt) :: es)
            else _request_loop server max_retries (S attempt) rest
        | UnexpectedError => (Raise SpbuApiError, [])
        end in
      (r, Get attempt :: es)
  end.

Definition _request (server : nat -> reply) (max_retries : nat)
  : result json * list net_effect :=
  _request_loop server max_retries 0 max_retries.

(** [v.get(k, default)] and [v[k] = x] on a value that need not be a
    dict. *)
Definition dict_get (v : json) (k : string) (dflt : json) : result json :=
  match v with
  | JObj d => Ok (Py.get_or d k dflt)
  | _ => Raise AttributeError
  end.

Definition set_item (v : json) (k : string) (x : json) : result json :=
  match v with
  | JObj d => Ok (JObj (Py.set k x d))
  | _ => Raise TypeError
  end.

(** The loop of [get_group_events] over the days of a response: every
    event of a day gets the date of the day as its [DayDate]. *)
Fixpoint days_events (days : list json) : result (list json) :=
  match days with
  | [] => Ok []
  | day :: rest =>
      (day_date <- dict_get day "Day" (JStr EmptyString) ;;
       study_events <- dict_get day "DayStudyEvents" (JArr []) ;;
       items <- Py.iter study_events ;;
       stamped <- mapR (fun event => set_item event "DayDate" day_date) items ;;
       more <- days_events rest ;;
       Ok (stamped ++ more))%result
  end.

(** [get_group_events], from the decoded response on. *)
Definition get_group_events (data : json) : result (list json) :=
  match data with
  | JObj d =>
      (days <- Py.iter (Py.get_or d "Days" (JArr [])) ;;
       days_events days)%result
  | JArr events => Ok events
  | _ => Ok []
  end.

Definition SESSION_SCHEDULE_DAYS : Z := 90.

(** The keywords and the filter loop of [get_group_session_schedule]. *)
Definition session_keywords : list string :=
  ["зачет"; "зачёт"; "экзамен"; "показ работ"; "credit"; "exam"].

Fixpoint session_events (events : list json) : result (list json) :=
  match events with
  | [] => Ok []
  | event :: rest =>
      (kind <- dict_get event "Kind" JNull ;;
       event_type <- Py.lower (Py.or_ kind (JStr EmptyString)) ;;
       subject <- dict_get event "Subject" JNull ;;
       subject <- Py.lower (Py.or_ subject (JStr EmptyString)) ;;
       let is_session :=
         existsb (fun keyword =>
                    PyStr.contains keyword event_type || PyStr.contains keyword subject)
           session_keywords in
       more <- session_events rest ;;
       Ok (if is_session then event :: more else more))%result
  end.

(** A reply after which [_request] tries again, if it may. *)
Definition retryable (r : reply) : bool :=
  match r with
  | Response status _ => status >=? 500
  | ClientError => true
  | UnexpectedError => false
  end.

(** A reply that ends [_request] with an error at once: a status that
    is neither 200 nor 500 or more, or an exception that is no client
    error. *)
Definition fatal (r : reply) : bool :=
  match r with
  | Response status _ => negb (status =? 200) && negb (status >=? 500)
  | ClientError => false
  | UnexpectedError => true
  end.

(** The attempts from [attempt] on of a request that is answered at its
    try number [retries] after so many retries, each after its pause. *)
Fixpoint backoff (attempt retries : nat) : list net_effect :=
  match retries with
  | O => [Get attempt]
  | Datatypes.S k => Get attempt :: Sleep (2 ^ Z.of_nat attempt) :: backoff (Datatypes.S attempt) k
  end.

(** The number of attempts and the seconds slept among some effects. *)
Definition attempts (es : list net_effect) : nat :=
  length (List.filter (fun e => match e with Get _ => true | Sleep _ => false end) es).

Definition slept (es : list net_effect) : Z :=
  fold_right (fun e total => match e with Sleep n => n + total | Get _ => total end) 0 es.

(** An event with the date of its day put on it. *)
Definition stamped (day : pydict) (ev : pydict) : pydict :=
  Py.set "DayDate" (Py.get_or day "Day" (JStr EmptyString)) ev.

(* ===================================================================== *)
(** ** The services: state, effects and collaborators *)
(* ===================================================================== *)

(** What [bot.send_message] does. *)
Inductive tg_outcome :=
  | Delivered
  | TelegramForbiddenError
  | TelegramBadRequest
  | TelegramOtherError.

(** A notification unit: the rendered text and the fingerprint payload. *)
Abbreviation notification := (string * pydict)%type.

(** The calls that leave the service or write to the store, in order.
    [Send] carries the payload the message was sent for. *)
Inductive effect :=
  | Fetch (g : Z)
  | SaveSnapshot (g : Z) (snapshot_type : string) (data : list event)
  | Notify (g : Z) (old_events new_events : list event)
  | Send (user : Z) (text : string) (data : pydict) (outcome : tg_outcome)
  | MarkSent (user : Z) (data : pydict).

Record World := {
  db : Database;
  log : list effect
}.

Definition M (A : Type) : Type := World -> result A * World.

Definition ret {A} (a : A) : M A := fun w => (Ok a, w).
Definition bind {A B} (m : M A) (f : A -> M B) : M B :=
  fun w => match m w with
           | (Ok a, w') => f a w'
           | (Raise e, w') => (Raise e, w')
           end.
Definition lift {A} (r : result A) : M A := fun w => (r, w).
Definition emit (e : effect) : M unit :=
  fun w => (Ok tt, {| db := db w; log := log w ++ [e] |}).
Definition read {A} (f : Database -> A) : M A := fun w => (Ok (f (db w)), w).
Definition write (f : Database -> Database) : M unit :=
  fun w => (Ok tt, {| db := f (db w); log := log w |}).

Declare Scope M_scope.
Delimit Scope M_scope with M.
Notation "x <- m ;; k" := (bind m (fun x => k))
  (at level 100, m at next level, right associativity) : M_scope.
Notation "m ;; k" := (bind m (fun _ => k))
  (at level 100, right associativity) : M_scope.

Definition succeeded (o : tg_outcome) : bool :=
  match o with Delivered => true | _ => false end.

(** The scheduler's process around the world of the pipeline: the groups
    whose session schedule it requested, in order, and the number of
    times it read the clock. *)
Record Process := {
  world : World;
  session_requests : list Z;
  clock_reads : nat
}.

Definition S (A : Type) : Type := Process -> result A * Process.

Definition sret {A} (a : A) : S A := fun s => (Ok a, s).
Definition sbind {A B} (m : S A) (f : A -> S B) : S B :=
  fun s => match m s with
           | (Ok a, s') => f a s'
           | (Raise e, s') => (Raise e, s')
           end.

(** A service of the pipeline, run by the scheduler. *)
Definition run {A} (m : M A) : S A :=
  fun s =>
    let '(r, w) := m (world s) in
    (r, {| world := w;
           session_requests := session_requests s;
           clock_reads := clock_reads s |}).

(** [try: m  except Exception as e: handler(e)] *)
Definition try_except {A} (m : S A) (handler : exn -> S A) : S A :=
  fun s => match m s with
           | (Ok a, s') => (Ok a, s')
           | (Raise e, s') => handler e s'
           end.

Declare Scope S_scope.
Delimit Scope S_scope with S.
Notation "x <- m ;; k" := (sbind m (fun x => k))
  (at level 100, m at next level, right associativity) : S_scope.
Notation "m ;; k" := (sbind m (fun _ => k))
  (at level 100, right associativity) : S_scope.

(* ===================================================================== *)
(** ** The pipeline *)
(* ===================================================================== *)

Section Pipeline.
Context `{Runtime}.

(** The collaborators.  [format_event_card] renders an event through
    the date and time helpers of [utils/datetime_utils.py]; its text
    takes no part in which notifications are built, sent or recorded.
    [bot_send_message] is the messaging sink and
    [api_get_group_schedule_regular] the schedule source; both answer
    as the world stands when they are called. *)
Variable format_event_card : event -> result string.
Variable bot_send_message : World -> Z -> string -> tg_outcome.
Variable api_get_group_schedule_regular : World -> Z -> result (list event).

(* ------------------------------------------------------------------- *)
(** *** services/schedule_service.py *)

Definition SESSION_EVENT_TYPES : list string :=
  ["зачет"; "зачёт"; "экзамен"; "показ работ"; "credit"; "exam"].

(** The keywords of [normalize_event]. *)
Definition normalize_online_keywords : list string :=
  ["дистанционн"; "онлайн"; "online"; "коммуникационно"].

(** The keywords of [format_event_card]. *)
Definition online_keywords : list string :=
  ["дистанционн"; "онлайн"; "online"; "коммуникационно-информационн"; "ДОТ"].

(** [is_session_event]: a keyword occurs in the lower-cased kind or
    subject. *)
Definition is_session_event (ev : event) : result bool :=
  (kind <- Py.lower (Py.or_ (Py.get ev "Kind") (JStr EmptyString)) ;;
   subject <- Py.lower (Py.or_ (Py.get ev "Subject") (JStr EmptyString)) ;;
   Ok (existsb (fun keyword => PyStr.contains keyword kind || PyStr.contains keyword subject)
               SESSION_EVENT_TYPES))%result.

(** The two extraction loops of [normalize_event] (and of the card): a
    dict contributes the first truthy of its two name fields, a string
    contributes itself, anything else is skipped. *)
Fixpoint extract_names (k1 k2 : string) (data : list json) : list json :=
  match data with
  | [] => []
  | JObj d :: rest =>
      let name := Py.or_ (Py.get d k1) (Py.or_ (Py.get d k2) (JStr EmptyString)) in
      if Py.truthy name then name :: extract_names k1 k2 rest
      else extract_names k1 k2 rest
  | JStr s :: rest => JStr s :: extract_names k1 k2 rest
  | _ :: rest => extract_names k1 k2 rest
  end.

Definition location_is_online (location_str : string) : bool :=
  existsb (fun kw => PyStr.contains kw (PyStr.lower location_str)) normalize_online_keywords.

Definition normalize_event (ev : event) : result normalized :=
  (let time_start := Py.or_ (Py.get ev "Start") (JStr EmptyString) in
   let time_end := Py.or_ (Py.get ev "End") (JStr EmptyString) in
   let time_interval := Py.or_ (Py.get ev "TimeIntervalString") (JStr EmptyString) in
   edu_data <- Py.iter (Py.or_ (Py.get ev "EducatorIds")
                           (Py.or_ (Py.get ev "Educators") (JArr []))) ;;
   let educators := extract_names "FullName" "Name" edu_data in
   loc_data <- Py.iter (Py.or_ (Py.get ev "EventLocations")
                           (Py.or_ (Py.get ev "Locations") (JArr []))) ;;
   let locations := extract_names "DisplayName" "Address" loc_data in
   location_str <- Py.join " " locations ;;
   let is_online := location_is_online location_str in
   Ok {| date := Py.get_or ev "DayDate" (JStr EmptyString);
         time_start := time_start;
         time_end := time_end;
         time_interval := time_interval;
         subject := Py.get_or ev "Subject" (JStr EmptyString);
         kind := Py.get_or ev "Kind" (JStr EmptyString);
         educators := educators;
         locations := locations;
         is_online := is_online |})%result.

(** The online-format check at the end of [format_event_card] (lines
    138 to 157): the five keywords, lower-cased, against the locations of
    the raw event joined by a space, and, for a keyword the locations do
    not hold, against the [OnlineNote] field. *)
Fixpoint online_indicator_loop (keywords : list string) (location_str : string)
    (online_note : json) : result bool :=
  match keywords with
  | [] => Ok false
  | keyword :: rest =>
      if PyStr.contains (PyStr.lower keyword) (PyStr.lower location_str) then Ok true
      else
        (note <- Py.lower online_note ;;
         if PyStr.contains (PyStr.lower keyword) note then Ok true
         else online_indicator_loop rest location_str online_note)%result
  end.

Definition has_online_indicator (ev : event) : result bool :=
  (let locations := Py.or_ (Py.get ev "EventLocations")
                      (Py.or_ (Py.get ev "Locations") (JArr [])) in
   let online_note := Py.or_ (Py.get ev "OnlineNote") (JStr EmptyString) in
   locs <- Py.iter locations ;;
   let location_str := PyStr.join " " (List.map py_str locs) in
   online_indicator_loop online_keywords location_str online_note)%result.

(** [create_event_key]: date, subject, kind, educators and locations
    joined by a bar; no time field takes part. *)
Definition create_event_key (ev : event) : result string :=
  (n <- normalize_event ev ;;
   educators_str <- Py.join "|" (educators n) ;;
   locations_str <- Py.join "|" (locations n) ;;
   Ok (py_str (date n) +:+ "|" +:+ py_str (subject n) +:+ "|" +:+ py_str (kind n)
       +:+ "|" +:+ educators_str +:+ "|" +:+ locations_str))%result.

(** The dict comprehension [{create_event_key(e): normalize_event(e) for e in events}]:
    a later event overwrites an earlier one under the same key. *)
Fixpoint normalized_by_key (events : list event) (acc : gmap string normalized)
  : result (gmap string normalized) :=
  match events with
  | [] => Ok acc
  | e :: rest =>
      (k <- create_event_key e ;;
       n <- normalize_event e ;;
       normalized_by_key rest (<[k := n]> acc))%result
  end.

(** The inner loop [for e in events: if create_event_key(e) == key: ...; break]. *)
Fixpoint find_event (key : string) (events : list event) : result (option event) :=
  match events with
  | [] => Ok None
  | e :: rest =>
      (k <- create_event_key e ;;
       if String.eqb k key then Ok (Some e) else find_event key rest)%result
  end.

(** The loops that fill [added] and [removed]. *)
Fixpoint collect_events (keys : list string) (events : list event) : result (list event) :=
  match keys with
  | [] => Ok []
  | key :: rest =>
      (found <- find_event key events ;;
       more <- collect_events rest events ;;
       Ok (match found with Some e => e :: more | None => more end))%result
  end.

(** The four comparisons of the [changed] loop, in order. *)
Definition detect_changes (old_data new_data : normalized) : list string :=
  (if negb (Py.eqb (time_start old_data) (time_start new_data))
      || negb (Py.eqb (time_end old_data) (time_end new_data))
   then ["time"] else [])
  ++ (if negb (Py.list_eqb (educators old_data) (educators new_data))
      then ["educator"] else [])
  ++ (if negb (Py.list_eqb (locations old_data) (locations new_data))
      then ["location"] else [])
  ++ (if negb (Bool.eqb (is_online old_data) (is_online new_data))
      then ["format"] else []).

Fixpoint collect_changes (keys : list string)
    (old_normalized new_normalized : gmap string normalized)
    (old_events new_events : list event) : result (list change) :=
  match keys with
  | [] => Ok []
  | key :: rest =>
      match old_normalized !! key, new_normalized !! key with
      | Some old_data, Some new_data =>
          let changes := detect_changes old_data new_data in
          match changes with
          | [] => collect_changes rest old_normalized new_normalized old_events new_events
          | _ =>
              (old_event <- find_event key old_events ;;
               new_event <- find_event key new_events ;;
               more <- collect_changes rest old_normalized new_normalized
                         old_events new_events ;;
               Ok ({| old := old_event; new := new_event; changes := changes |} :: more))%result
          end
      | _, _ => Raise KeyError
      end
  end.

Definition compare_schedules (old_events new_events : list event) : result diff :=
  (old_normalized <- normalized_by_key old_events ∅ ;;
   new_normalized <- normalized_by_key new_events ∅ ;;
   let old_keys : gset string := dom old_normalized in
   let new_keys : gset string := dom new_normalized in
   added <- collect_events (set_iter (new_keys ∖ old_keys)) new_events ;;
   removed <- collect_events (set_iter (old_keys ∖ new_keys)) old_events ;;
   changed <- collect_changes (set_iter (old_keys ∩ new_keys))
                old_normalized new_normalized old_events new_events ;;
   Ok {| added := added; removed := removed; changed := changed |})%result.

Definition py_in (x : string) (l : list string) : bool :=
  existsb (String.eqb x) l.

Definition format_change_notification
    (change_type : string) (ev : event) (changes : list string) (group_name : json)
  : result string :=
  (let header := "🔔 Изменение в расписании" +:+
                 (if Py.truthy group_name then " " +:+ py_str group_name else EmptyString) in
   let what_changed :=
     if String.eqb change_type "added" then ["➕ Добавлено занятие"]
     else if String.eqb change_type "removed" then ["❌ Отменено занятие"]
     else if String.eqb change_type "changed" && negb (Nat.eqb (length changes) 0) then
       let change_parts :=
         (if py_in "time" changes then ["время"] else [])
         ++ (if py_in "educator" changes then ["преподаватель"] else [])
         ++ (if py_in "location" changes then ["аудитория"] else [])
         ++ (if py_in "format" changes then ["формат"] else []) in
       ["✏️ Изменено: " +:+ PyStr.join ", " change_parts]
     else [] in
   let newline := String (ascii_of_N 10) EmptyString in
   let changes_block :=
     match what_changed with
     | [] => EmptyString
     | _ => "Что изменилось:" +:+ newline +:+ "• "
            +:+ PyStr.join (newline +:+ "• ") what_changed
     end in
   card <- format_event_card ev ;;
   Ok (header +:+ newline +:+ newline +:+ changes_block
       +:+ newline +:+ newline +:+ card))%result.

(* ------------------------------------------------------------------- *)
(** *** services/notification_service.py *)

(** [send_notification]: true when [send_message] returns, false on any
    exception.  The menu button goes with every message; [data] only
    labels the log entry. *)
Definition send_notification (user : Z) (text : string) (data : pydict) : M bool :=
  fun w =>
    let outcome := bot_send_message w user text in
    (Ok (succeeded outcome),
     {| db := db w; log := log w ++ [Send user text data outcome] |}).

(** The first two loops: one unit per event that is not a session
    event. *)
Fixpoint event_notifications (change_type : string) (events : list event)
    (group_name : json) : result (list notification) :=
  match events with
  | [] => Ok []
  | ev :: rest =>
      (session <- is_session_event ev ;;
       if session then event_notifications change_type rest group_name
       else
         notification_text <-
           format_change_notification change_type ev [] group_name ;;
         key <- create_event_key ev ;;
         more <- event_notifications change_type rest group_name ;;
         Ok ((notification_text,
              [("type", JStr change_type); ("event_key", JStr key)]) :: more))%result
  end.

(** The third loop: one unit per change whose new event is not a
    session event. *)
Fixpoint change_notifications (entries : list change) (group_name : json)
  : result (list notification) :=
  match entries with
  | [] => Ok []
  | c :: rest =>
      match new c with
      | None => Raise AttributeError
      | Some ev =>
          (session <- is_session_event ev ;;
           if session then change_notifications rest group_name
           else
             notification_text <-
               format_change_notification "changed" ev (changes c)
                 group_name ;;
             key <- create_event_key ev ;;
             more <- change_notifications rest group_name ;;
             Ok ((notification_text,
                  [("type", JStr "changed"); ("event_key", JStr key);
                   ("changes", JArr (List.map JStr (changes c)))]) :: more))%result
      end
  end.

Definition build_notifications (d : diff) (group_name : json)
  : result (list notification) :=
  (a <- event_notifications "added" (added d) group_name ;;
   r <- event_notifications "removed" (removed d) group_name ;;
   c <- change_notifications (changed d) group_name ;;
   Ok (a ++ r ++ c))%result.

(** The body of the delivery loop for one user and one unit; returns
    what it adds to [sent_count]. *)
Definition deliver (user : Z) (n : notification) : M Z :=
  (let '(notification_text, notification_data) := n in
   dup <- read (fun d => is_notification_sent d user notification_data) ;;
   if dup then ret 0
   else
     ok <- send_notification user notification_text notification_data ;;
     if ok then
       write (fun d => mark_notification_sent d user notification_data) ;;
       emit (MarkSent user notification_data) ;;
       ret 1
     else ret 0)%M.

Fixpoint deliver_all (user : Z) (notifications : list notification) : M Z :=
  match notifications with
  | [] => ret 0
  | n :: rest =>
      (a <- deliver user n ;; b <- deliver_all user rest ;; ret (a + b))%M
  end.

Fixpoint deliver_users (us : list user_row) (notifications : list notification) : M Z :=
  match us with
  | [] => ret 0
  | u :: rest =>
      (a <- deliver_all (user_id u) notifications ;;
       b <- deliver_users rest notifications ;;
       ret (a + b))%M
  end.

Definition is_empty_diff (d : diff) : bool :=
  match added d, removed d, changed d with
  | [], [], [] => true
  | _, _, _ => false
  end.

Definition notify_schedule_changes (g : Z) (old_events new_events : list event) : M Z :=
  (emit (Notify g old_events new_events) ;;
   d <- lift (compare_schedules old_events new_events) ;;
   if is_empty_diff d then ret 0
   else
     us <- read (fun b => get_users_by_group b g true) ;;
     match us with
     | [] => ret 0
     | first :: _ =>
         let group_name := from_option JStr JNull (group_name first) in
         notifications <- lift (build_notifications d group_name) ;;
         deliver_users us notifications
     end)%M.

(* ------------------------------------------------------------------- *)
(** *** services/scheduler_service.py *)

Definition fetch_regular (g : Z) : M (list event) :=
  fun w =>
    (api_get_group_schedule_regular w g,
     {| db := db w; log := log w ++ [Fetch g] |}).

Definition save_snapshot (g : Z) (data : list event) (snapshot_type : string) : M string :=
  (write (fun d => snd (save_schedule_snapshot d g data snapshot_type)) ;;
   emit (SaveSnapshot g snapshot_type data) ;;
   ret (_hash_schedule data))%M.

Definition _check_group_schedule (g : Z) : M Z :=
  (new_events <- fetch_regular g ;;
   snapshot <- read (fun d => get_schedule_snapshot d g "regular") ;;
   match snapshot with
   | (_, None) =>
       save_snapshot g new_events "regular" ;;
       ret 0
   | (old_hash, Some old_events) =>
       let new_hash := _hash_schedule new_events in
       if bool_decide (old_hash = Some new_hash) then ret 0
       else
         notifications_sent <- notify_schedule_changes g old_events new_events ;;
         save_snapshot g new_events "regular" ;;
         ret notifications_sent
   end)%M.

(* ------------------------------------------------------------------- *)
(** *** The vocabulary of the specification *)

(** The key of an event, when it has one. *)
Definition event_key (e : event) : option string :=
  match create_event_key e with Ok k => Some k | Raise _ => None end.

Definition has_key (k : string) (e : event) : bool :=
  match create_event_key e with Ok k' => String.eqb k' k | Raise _ => false end.

(** The first and the last event of a collection under a key. *)
Definition first_with_key (k : string) (events : list event) : option event :=
  find (has_key k) events.
Definition last_with_key (k : string) (events : list event) : option event :=
  find (has_key k) (rev events).

(** The keys underlying a collection. *)
Definition event_keys (events : list event) : gset string :=
  list_to_set (omap event_key events).

(** Every event of the collection has a key. *)
Definition keyed (events : list event) : Prop :=
  Forall (fun e => is_ok (create_event_key e) = true) events.

Definition normalized_of (e : event) : option normalized :=
  match normalize_event e with Ok n => Some n | Raise _ => None end.

(** The value is a string. *)
Definition is_str (v : json) : bool :=
  match v with JStr _ => true | _ => false end.

(** The fields that carry the time of an event. *)
Definition time_field (k : string) : bool :=
  String.eqb k "Start" || String.eqb k "End" || String.eqb k "TimeIntervalString".

(** The entry of the [changed] bucket that a common key gives rise to,
    if any. *)
Definition change_for (old_normalized new_normalized : gmap string normalized)
    (old_events new_events : list event) (k : string) : option change :=
  match old_normalized !! k, new_normalized !! k with
  | Some old_data, Some new_data =>
      match detect_changes old_data new_data with
      | [] => None
      | chs => Some {| old := first_with_key k old_events;
                       new := first_with_key k new_events;
                       changes := chs |}
      end
  | _, _ => None
  end.

(** What the buckets hold when a key occurs more than once. *)
Definition first_reported_last_compared (old_events new_events : list event) (d : diff)
  : Prop :=
  (forall e, e ∈ added d <->
     exists k, first_with_key k new_events = Some e /\ k ∉ event_keys old_events)
  /\ (forall e, e ∈ removed d <->
     exists k, first_with_key k old_events = Some e /\ k ∉ event_keys new_events)
  /\ (forall c, c ∈ changed d <->
     exists k old_last new_last old_data new_data,
       last_with_key k old_events = Some old_last
       /\ normalize_event old_last = Ok old_data
       /\ last_with_key k new_events = Some new_last
       /\ normalize_event new_last = Ok new_data
       /\ detect_changes old_data new_data <> []
       /\ c = {| old := first_with_key k old_events;
                 new := first_with_key k new_events;
                 changes := detect_changes old_data new_data |}
       /\ is_Some (first_with_key k old_events)
       /\ is_Some (first_with_key k new_events)).

(** The effects a run appends to the log. *)
Definition new_effects (w w' : World) : list effect :=
  drop (length (log w)) (log w').

(** What a stretch of the delivery loop may do: it only sends and
    marks; it sends only units of [ns] to users of [us] whose
    fingerprint was not recorded when the stretch began; and at its end
    the recorded fingerprints are those recorded before together with
    those of the sends that succeeded. *)
Record delivery (ns : list notification) (us : list Z) (w w' : World)
    (es : list effect) : Prop := {
  dl_log : log w' = log w ++ es;
  dl_only : forall e, e ∈ es ->
    (exists u t d o, e = Send u t d o) \/ (exists u d, e = MarkSent u d)
    \/ (exists g old_events new_events, e = Notify g old_events new_events);
  dl_send : forall u t d o, Send u t d o ∈ es ->
    u ∈ us /\ (t, d) ∈ ns /\ is_notification_sent (db w) u d = false;
  dl_mark : forall u d, MarkSent u d ∈ es -> exists t, Send u t d Delivered ∈ es;
  dl_sent : forall p, p ∈ sent_notifications (db w') <->
    p ∈ sent_notifications (db w)
    \/ exists u t d, Send u t d Delivered ∈ es /\ p = (u, _hash_notification u d);
  dl_users : users (db w') = users (db w);
  dl_snapshots : schedule_snapshots (db w') = schedule_snapshots (db w);
  dl_state : system_state (db w') = system_state (db w)
}.

(** The pair was recorded at the start, or a send with its fingerprint
    is among the effects. *)
Definition covered (w : World) (es : list effect) (u : Z) (d : pydict) : Prop :=
  is_notification_sent (db w) u d = true
  \/ exists t d' o, Send u t d' o ∈ es
                    /\ _hash_notification u d' = _hash_notification u d.

(** The users a run of [notify_schedule_changes] addresses, and the
    units it builds for them (none when it returns early or raises). *)
Definition recipients (g : Z) (w : World) : list Z :=
  List.map user_id (get_users_by_group (db w) g true).

Definition units_of (g : Z) (old_events new_events : list event) (w : World)
  : list notification :=
  match compare_schedules old_events new_events with
  | Ok d =>
      if is_empty_diff d then []
      else match get_users_by_group (db w) g true with
           | [] => []
           | first :: _ =>
               match build_notifications d (from_option JStr JNull (group_name first)) with
               | Ok ns => ns
               | Raise _ => []
               end
           end
  | Raise _ => []
  end.

(** The payloads of the three kinds of unit. *)
Definition event_payload (change_type key : string) : pydict :=
  [("type", JStr change_type); ("event_key", JStr key)].
Definition change_payload (key : string) (chs : list string) : pydict :=
  [("type", JStr "changed"); ("event_key", JStr key);
   ("changes", JArr (List.map JStr chs))].

(** [data] is the payload of a notification for the event [ev] of the
    diff [d]: as an added event, as a removed event, or as the new
    event of a change. *)
Definition notification_for (d : diff) (ev : event) (data : pydict) : Prop :=
  exists k, create_event_key ev = Ok k
    /\ ((ev ∈ added d /\ data = event_payload "added" k)
        \/ (ev ∈ removed d /\ data = event_payload "removed" k)
        \/ (exists c, c ∈ changed d /\ new c = Some ev
                      /\ data = change_payload k (changes c))).

(** [data] is the payload of a notification about the event [ev] of the
    diff [d]: of a notification for it, or of the notification for the
    entry of the [changed] bucket whose old event it is (the payload of
    an entry carries the key of its new event). *)
Definition notification_about (d : diff) (ev : event) (data : pydict) : Prop :=
  notification_for d ev data
  \/ exists c k, c ∈ changed d /\ old c = Some ev
                 /\ new c ≫= event_key = Some k
                 /\ data = change_payload k (changes c).

(** C3 as it stands: no message of a run is a notification about a
    session event of the diff, in whichever bucket the event appears. *)
Definition session_events_never_in_a_notification : Prop :=
  forall (g : Z) (old_events new_events : list event) (w : World) (d : diff)
         (ev : event) (u : Z) (t : string) (data : pydict) (o : tg_outcome),
    compare_schedules old_events new_events = Ok d ->
    is_session_event ev = Ok true ->
    Send u t data o
      ∈ new_effects w (snd (notify_schedule_changes g old_events new_events w)) ->
    ~ notification_about d ev data.

(** The text has no bar in it. *)
Fixpoint no_bar (s : string) : bool :=
  match s with
  | EmptyString => true
  | String c r => negb (Ascii.eqb c "|"%char) && no_bar r
  end.

(** The field is a string without a bar; a field that is missing counts
    as the empty string, as it does in [normalize_event]. *)
Definition plain_field (ev : event) (k : string) : bool :=
  match Py.get_or ev k (JStr EmptyString) with
  | JStr s => no_bar s
  | _ => false
  end.

(** The date, the subject and the kind of the event are strings without
    a bar: the three fields that come first in its key. *)
Definition plain_identity (ev : event) : bool :=
  plain_field ev "DayDate" && plain_field ev "Subject" && plain_field ev "Kind".

(** C1 as it stands: two events that differ in their time fields only
    have the same key and are reported as one changed entry, with
    changes ["time"], nothing being added or removed. *)
Definition time_shift_is_one_change : Prop :=
  forall (e1 e2 : event) (k : string),
    (forall f, time_field f = false -> Py.assoc f e1 = Py.assoc f e2) ->
    (exists f, time_field f = true /\ Py.assoc f e1 <> Py.assoc f e2) ->
    create_event_key e1 = Ok k ->
    create_event_key e2 = Ok k
    /\ compare_schedules [e1] [e2]
       = Ok {| added := [];
               removed := [];
               changed := [ {| old := Some e1; new := Some e2; changes := ["time"] |} ] |}.

Definition fetched (w : World) (g : Z) : World :=
  {| db := db w; log := log w ++ [Fetch g] |}.

(** C6 as it stands: every check whose fetch succeeded saves the
    snapshot. *)
Definition snapshot_saved_after_every_fetch : Prop :=
  forall (g : Z) (w : World) (new_events : list event),
    api_get_group_schedule_regular w g = Ok new_events ->
    SaveSnapshot g "regular" new_events ∈ new_effects w (snd (_check_group_schedule g w)).

(** The snapshot of the group holds the fetched events and the run
    saved it; or the run left the snapshots alone. *)
Definition snapshot_saved (g : Z) (w w' : World) (new_events : list event) : Prop :=
  SaveSnapshot g "regular" new_events ∈ new_effects w w'
  /\ get_schedule_snapshot (db w') g "regular"
     = (Some (_hash_schedule new_events), Some new_events).

Definition snapshot_untouched (g : Z) (w w' : World) : Prop :=
  schedule_snapshots (db w') = schedule_snapshots (db w)
  /\ forall ty data, SaveSnapshot g ty data ∉ new_effects w w'.

(** When the check saves the snapshot, given that the fetch returned
    [new_events]. *)
Definition save_policy (g : Z) (w : World) (new_events : list event) : Prop :=
  let run := _check_group_schedule g w in
  match schedule_snapshots (db w) !! (g, "regular"%string) with
  | None => snapshot_saved g w (snd run) new_events
  | Some (h, old_events) =>
      if bool_decide (h = _hash_schedule new_events)
      then snapshot_untouched g w (snd run)
      else
        fst run = fst (notify_schedule_changes g old_events new_events (fetched w g))
        /\ match fst run with
           | Ok _ => snapshot_saved g w (snd run) new_events
           | Raise _ => snapshot_untouched g w (snd run)
           end
  end.

(** The online flag of [normalize_event]. *)
Definition online_flag (ev : event) : result bool :=
  (n <- normalize_event ev ;; Ok (is_online n))%result.

(** The online flag as the specification words it: one of the fixed
    keywords, the local abbreviation among them, matches without
    regard to case the concatenated location text or the online-note
    field. *)
Definition spec_is_online (ev : event) : result bool :=
  (n <- normalize_event ev ;;
   location_str <- Py.join " " (locations n) ;;
   online_note <- Py.lower (Py.or_ (Py.get ev "OnlineNote") (JStr EmptyString)) ;;
   Ok (existsb (fun keyword =>
                  PyStr.contains (PyStr.lower keyword) (PyStr.lower location_str)
                  || PyStr.contains (PyStr.lower keyword) online_note)
               online_keywords))%result.

(** The event is a dict as [json.loads] builds it. *)
Definition well_formed_event (e : event) : bool := well_formed (JObj e).

(** The keys of a bucket, entry by entry; an entry of [changed] is
    listed under the key of its new event. *)
Definition bucket_keys (events : list event) : list string := omap event_key events.
Definition change_keys (entries : list change) : list string :=
  omap (fun c => new c ≫= event_key) entries.

(** A send that the messaging sink accepted. *)
Definition accepted (e : effect) : bool :=
  match e with
  | Send _ _ _ Delivered => true
  | _ => false
  end.

(** The number of accepted sends among some effects. *)
Definition accepted_sends (es : list effect) : Z :=
  Z.of_nat (length (List.filter accepted es)).

(** The user has a row in the group with notifications switched on. *)
Definition subscribed (d : Database) (g : Z) (u : Z) : Prop :=
  exists row, row ∈ users d /\ user_id row = u
              /\ group_id row = Some g /\ notifications_enabled row = 1.

(** What a service may do to the store while it dispatches: it leaves
    the users, the snapshots and the system state alone and forgets no
    fingerprint. *)
Definition only_records_fingerprints (d d' : Database) : Prop :=
  users d' = users d
  /\ schedule_snapshots d' = schedule_snapshots d
  /\ system_state d' = system_state d
  /\ sent_notifications d ⊆ sent_notifications d'.

(** The units a diff calls for: one for each event of it that is not a
    session event. *)
Definition unit_wanted (d : diff) (data : pydict) : Prop :=
  exists ev, is_session_event ev = Ok false /\ notification_for d ev data.

(** The answer of [is_session_event], an exception counting as no. *)
Definition is_session (ev : event) : bool :=
  match is_session_event ev with
  | Ok true => true
  | _ => false
  end.

(** The groups fetched among some effects, in order. *)
Definition fetches (es : list effect) : list Z :=
  omap (fun e => match e with Fetch g => Some g | _ => None end) es.

(** What checks of the groups [groups] may do to the store: they leave
    the users and the system state alone, forget no fingerprint, and
    write no snapshot but the regular ones of these groups. *)
Definition checks_only (groups : list Z) (d d' : Database) : Prop :=
  users d' = users d
  /\ system_state d' = system_state d
  /\ sent_notifications d ⊆ sent_notifications d'
  /\ forall g ty, g ∉ groups \/ ty <> "regular"%string ->
                  schedule_snapshots d' !! (g, ty) = schedule_snapshots d !! (g, ty).

(* ------------------------------------------------------------------- *)
(** *** Results, keys and the comparison *)

(** [set_solver] away from the collaborators, which it would pull into
    the proof. *)
Ltac sets :=
  clear format_event_card bot_send_message api_get_group_schedule_regular;
  set_solver.

Ltac sublist :=
  let x := fresh "x" in
  let Hx := fresh "Hx" in
  intros x Hx;
  first [ exact Hx
        | right; exact Hx
        | apply list_elem_of_singleton in Hx; rewrite Hx; left ].

Lemma rbind_Ok {A B} (r : result A) (f : A -> result B) (b : B) :
  rbind r f = Ok b <-> exists a, r = Ok a /\ f a = Ok b.
Proof.
  destruct r as [a|e]; simpl; split.
  - intros Hf. exists a. split; [reflexivity | exact Hf].
  - intros (a' & Ha & Hf). injection Ha as ->. exact Hf.
  - discriminate.
  - intros (a' & Ha & _). discriminate.
Qed.

Lemma is_ok_true {A} (r : result A) : is_ok r = true <-> exists a, r = Ok a.
Proof.
  destruct r; simpl; split; intros Hr; eauto; try discriminate.
  destruct Hr as [a Ha]. discriminate.
Qed.

Lemma Ok_inj {A} (a b : A) : Ok a = Ok b -> a = b.
Proof. intros Hab. injection Hab as ->. reflexivity. Qed.

Ltac inv_result :=
  repeat match goal with
    | Hb : rbind _ _ = Ok _ |- _ =>
        apply rbind_Ok in Hb; destruct Hb as (? & ? & Hb)
    | Hb : Ok _ = Ok _ |- _ => apply Ok_inj in Hb; try subst
    | Hb : Raise _ = Ok _ |- _ => discriminate Hb
    | Hb : Ok _ = Raise _ |- _ => discriminate Hb
    end.

Lemma mapR_Ok_strings (l : list json) (parts : list string) :
  mapR Py.as_str l = Ok parts -> l = List.map JStr parts.
Proof.
  revert parts. induction l as [|v l IH]; simpl; intros parts Hl.
  - inv_result. reflexivity.
  - inv_result. destruct v; simpl in *; try discriminate. inv_result.
    simpl. f_equal. apply IH. assumption.
Qed.

Lemma string_eqb_refl (s : string) : String.eqb s s = true.
Proof. apply String.eqb_eq. reflexivity. Qed.

Lemma list_eqb_strings (parts : list string) :
  Py.list_eqb (List.map JStr parts) (List.map JStr parts) = true.
Proof.
  induction parts as [|p parts IH]; simpl; [reflexivity|].
  rewrite string_eqb_refl. exact IH.
Qed.

(** A list that [join] accepts is equal to itself under [==]. *)
Lemma join_Ok_list_eqb (sep : string) (l : list json) (s : string) :
  Py.join sep l = Ok s -> Py.list_eqb l l = true.
Proof.
  unfold Py.join. intros Hj. inv_result.
  match goal with Hm : mapR _ _ = Ok _ |- _ => apply mapR_Ok_strings in Hm; subst l end.
  apply list_eqb_strings.
Qed.

Lemma find_app {A} (p : A -> bool) (l1 l2 : list A) :
  find p (l1 ++ l2) = match find p l1 with Some x => Some x | None => find p l2 end.
Proof.
  induction l1 as [|a l1 IH]; simpl; [reflexivity|].
  destruct (p a); [reflexivity | exact IH].
Qed.

Lemma create_event_key_normalize e k :
  create_event_key e = Ok k -> exists n, normalize_event e = Ok n.
Proof. unfold create_event_key. intros Hk. inv_result. eauto. Qed.

Lemma join_is_ok (sep : string) (l : list json) :
  is_ok (Py.join sep l) = forallb is_str l.
Proof.
  unfold Py.join. induction l as [|v l IH]; simpl; [reflexivity|].
  destruct v; simpl; try reflexivity.
  destruct (mapR Py.as_str l); simpl in *; exact IH.
Qed.

(** X25. An event has a key exactly when its educators and its
    locations can be iterated and every name taken from them is a
    string; otherwise [create_event_key] raises. *)
Lemma create_event_key_is_ok (ev : event) :
  is_ok (create_event_key ev)
  = match Py.iter (Py.or_ (Py.get ev "EducatorIds")
                     (Py.or_ (Py.get ev "Educators") (JArr []))),
          Py.iter (Py.or_ (Py.get ev "EventLocations")
                     (Py.or_ (Py.get ev "Locations") (JArr []))) with
    | Ok edu_data, Ok loc_data =>
        forallb is_str (extract_names "FullName" "Name" edu_data)
        && forallb is_str (extract_names "DisplayName" "Address" loc_data)
    | _, _ => false
    end.
Proof.
  unfold create_event_key, normalize_event.
  destruct (Py.iter (Py.or_ (Py.get ev "EducatorIds")
                       (Py.or_ (Py.get ev "Educators") (JArr [])))) as [edu|];
    simpl; [|reflexivity].
  destruct (Py.iter (Py.or_ (Py.get ev "EventLocations")
                       (Py.or_ (Py.get ev "Locations") (JArr [])))) as [loc|];
    simpl; [|reflexivity].
  pose proof (join_is_ok " " (extract_names "DisplayName" "Address" loc)) as Hsp.
  pose proof (join_is_ok "|" (extract_names "DisplayName" "Address" loc)) as Hbl.
  pose proof (join_is_ok "|" (extract_names "FullName" "Name" edu)) as Hbe.
  destruct (Py.join " " (extract_names "DisplayName" "Address" loc)); simpl in *.
  - destruct (Py.join "|" (extract_names "FullName" "Name" edu)); simpl in *.
    + destruct (Py.join "|" (extract_names "DisplayName" "Address" loc)); simpl in *.
      * rewrite <- Hbe, <- Hbl. reflexivity.
      * rewrite <- Hsp in Hbl. discriminate.
    + rewrite <- Hbe. reflexivity.
  - rewrite <- Hsp. rewrite andb_false_r. reflexivity.
Qed.

Lemma normalize_is_online e n :
  normalize_event e = Ok n ->
  exists s, Py.join " " (locations n) = Ok s /\ is_online n = location_is_online s.
Proof.
  unfold normalize_event. intros Hn. inv_result. simpl. eauto.
Qed.

Lemma has_key_true k e : has_key k e = true <-> create_event_key e = Ok k.
Proof.
  unfold has_key. destruct (create_event_key e) as [k'|]; split; intros Hk;
    try discriminate.
  - apply String.eqb_eq in Hk. subst. reflexivity.
  - injection Hk as ->. apply string_eqb_refl.
Qed.

Lemma first_with_key_Some k events e :
  first_with_key k events = Some e -> e ∈ events /\ create_event_key e = Ok k.
Proof.
  unfold first_with_key. intros Hf. apply find_some in Hf as [Hin Hk].
  split; [apply list_elem_of_In; exact Hin | apply has_key_true; exact Hk].
Qed.

Lemma last_with_key_Some k events e :
  last_with_key k events = Some e -> e ∈ events /\ create_event_key e = Ok k.
Proof.
  unfold last_with_key. intros Hf. apply find_some in Hf as [Hin Hk].
  split; [apply list_elem_of_In, in_rev; exact Hin | apply has_key_true; exact Hk].
Qed.

Lemma first_with_key_None k events :
  first_with_key k events = None <-> k ∉ event_keys events.
Proof.
  unfold first_with_key, event_keys. induction events as [|e events IH]; simpl.
  - split; [sets | reflexivity].
  - unfold has_key at 1, event_key at 1.
    destruct (create_event_key e) as [k'|] eqn:Hk; simpl.
    + destruct (String.eqb k' k) eqn:Heq.
      * apply String.eqb_eq in Heq. subst k'. split; [discriminate | sets].
      * apply String.eqb_neq in Heq. rewrite IH. sets.
    + exact IH.
Qed.

Lemma last_with_key_None k events :
  last_with_key k events = None <-> k ∉ event_keys events.
Proof.
  unfold last_with_key. rewrite <- first_with_key_None. unfold first_with_key.
  split; intros Hn.
  - destruct (find (has_key k) events) as [e|] eqn:Hf; [|reflexivity].
    apply find_some in Hf as [Hin Hk].
    assert (has_key k e = false) as Hk'; [|congruence].
    apply (find_none _ _ Hn). apply in_rev. rewrite rev_involutive. exact Hin.
  - destruct (find (has_key k) (rev events)) as [e|] eqn:Hf; [|reflexivity].
    apply find_some in Hf as [Hin Hk].
    assert (has_key k e = false) as Hk'; [|congruence].
    apply (find_none _ _ Hn). apply in_rev. exact Hin.
Qed.

Lemma elem_of_event_keys k events :
  k ∈ event_keys events <-> exists e, e ∈ events /\ create_event_key e = Ok k.
Proof.
  unfold event_keys. rewrite elem_of_list_to_set, list_elem_of_omap.
  split; intros (e & Hin & Hk); exists e; split; try exact Hin.
  - unfold event_key in Hk. destruct (create_event_key e); congruence.
  - unfold event_key. rewrite Hk. reflexivity.
Qed.

Lemma keyed_cons e events :
  keyed (e :: events) <-> is_ok (create_event_key e) = true /\ keyed events.
Proof.
  unfold keyed. split.
  - intros Hk. inversion Hk; subst. split; assumption.
  - intros [He Hk]. constructor; assumption.
Qed.

Lemma keyed_elem_of events e :
  keyed events -> e ∈ events -> exists k, create_event_key e = Ok k.
Proof.
  unfold keyed. rewrite Forall_forall. intros Hk Hin.
  apply is_ok_true. apply Hk. exact Hin.
Qed.

Lemma last_with_key_cons k e events :
  last_with_key k (e :: events)
  = match last_with_key k events with
    | Some x => Some x
    | None => if has_key k e then Some e else None
    end.
Proof. unfold last_with_key. simpl. rewrite find_app. reflexivity. Qed.

(** The dict comprehension: it returns exactly when every event has a
    key, its keys are those of the events (and of the accumulator), and
    the value under a key is the normal form of the last event with
    that key. *)
Lemma normalized_by_key_Ok events acc m :
  normalized_by_key events acc = Ok m ->
  keyed events
  /\ dom m = dom acc ∪ event_keys events
  /\ forall k, m !! k = match last_with_key k events with
                        | Some e => normalized_of e
                        | None => acc !! k
                        end.
Proof.
  revert acc. induction events as [|e events IH]; simpl; intros acc Hm.
  - inv_result. split; [constructor|]. split; [|reflexivity].
    unfold event_keys. simpl. sets.
  - destruct (create_event_key e) as [x|] eqn:Hke; simpl in Hm; [|discriminate].
    destruct (normalize_event e) as [n|] eqn:Hne; simpl in Hm; [|discriminate].
    apply IH in Hm as (Hkeyed & Hdom & Hget).
    split; [|split].
    + apply keyed_cons. split; [rewrite Hke; reflexivity | exact Hkeyed].
    + rewrite Hdom. rewrite dom_insert_L. unfold event_keys. simpl.
      unfold event_key at 2. rewrite Hke. simpl. sets.
    + intros k. rewrite Hget. rewrite last_with_key_cons.
      destruct (last_with_key k events) as [e'|]; [reflexivity|].
      unfold has_key. rewrite Hke.
      destruct (String.eqb x k) eqn:Heq.
      * apply String.eqb_eq in Heq. subst x. rewrite lookup_insert_eq.
        unfold normalized_of. rewrite Hne. reflexivity.
      * apply String.eqb_neq in Heq. rewrite lookup_insert_ne; [reflexivity|exact Heq].
Qed.

Lemma normalized_by_key_total events acc :
  keyed events -> exists m, normalized_by_key events acc = Ok m.
Proof.
  revert acc. induction events as [|e events IH]; simpl; intros acc Hk.
  - eauto.
  - apply keyed_cons in Hk as [He Hk]. apply is_ok_true in He as [k He].
    destruct (create_event_key_normalize _ _ He) as [n Hn].
    rewrite He, Hn. simpl. apply IH. exact Hk.
Qed.

Lemma normalized_by_key_Raise events acc e :
  normalized_by_key events acc = Raise e -> ~ keyed events.
Proof.
  intros Hr Hk. destruct (normalized_by_key_total events acc Hk) as [m Hm].
  congruence.
Qed.

Lemma find_event_keyed k events :
  keyed events -> find_event k events = Ok (first_with_key k events).
Proof.
  induction events as [|e events IH]; simpl; intros Hk; [reflexivity|].
  apply keyed_cons in Hk as [He Hk]. apply is_ok_true in He as [k' He].
  unfold has_key. rewrite He. simpl.
  destruct (String.eqb k' k); [reflexivity | apply IH, Hk].
Qed.

Lemma collect_events_keyed keys events :
  keyed events ->
  collect_events keys events = Ok (omap (fun k => first_with_key k events) keys).
Proof.
  intros Hk. induction keys as [|k keys IH]; simpl; [reflexivity|].
  rewrite find_event_keyed by exact Hk. simpl. rewrite IH. simpl.
  destruct (first_with_key k events); reflexivity.
Qed.

Lemma collect_changes_keyed keys mo mn old_events new_events :
  keyed old_events -> keyed new_events ->
  (forall k, k ∈ keys -> is_Some (mo !! k) /\ is_Some (mn !! k)) ->
  collect_changes keys mo mn old_events new_events
  = Ok (omap (change_for mo mn old_events new_events) keys).
Proof.
  intros Hko Hkn. induction keys as [|k keys IH]; simpl; intros Hdom; [reflexivity|].
  destruct (Hdom k) as [[od Hod] [nd Hnd]]; [left|].
  assert (forall k', k' ∈ keys -> is_Some (mo !! k') /\ is_Some (mn !! k')) as Hdom'.
  { intros k' Hk'. apply Hdom. right. exact Hk'. }
  unfold change_for at 1. rewrite Hod, Hnd.
  destruct (detect_changes od nd) as [|c chs] eqn:Hd.
  - apply IH. exact Hdom'.
  - rewrite !find_event_keyed by assumption. simpl. rewrite IH by exact Hdom'.
    reflexivity.
Qed.

(** [compare_schedules] returns exactly when every event of both
    collections has a key, and then its three buckets are these. *)
Lemma compare_schedules_keyed old_events new_events :
  keyed old_events -> keyed new_events ->
  exists mo mn,
    normalized_by_key old_events ∅ = Ok mo
    /\ normalized_by_key new_events ∅ = Ok mn
    /\ compare_schedules old_events new_events
       = Ok {| added := omap (fun k => first_with_key k new_events)
                          (set_iter (dom mn ∖ dom mo));
               removed := omap (fun k => first_with_key k old_events)
                            (set_iter (dom mo ∖ dom mn));
               changed := omap (change_for mo mn old_events new_events)
                            (set_iter (dom mo ∩ dom mn)) |}.
Proof.
  intros Hko Hkn.
  destruct (normalized_by_key_total old_events ∅ Hko) as [mo Hmo].
  destruct (normalized_by_key_total new_events ∅ Hkn) as [mn Hmn].
  exists mo, mn. split; [exact Hmo|]. split; [exact Hmn|].
  unfold compare_schedules. rewrite Hmo, Hmn. simpl.
  rewrite !collect_events_keyed by assumption. simpl.
  rewrite collect_changes_keyed; [reflexivity | assumption | assumption |].
  intros k Hk. rewrite set_iter_perm in Hk. apply elem_of_elements in Hk.
  apply elem_of_intersection in Hk as [Ho Hn].
  split; apply elem_of_dom; assumption.
Qed.

Lemma compare_schedules_Ok_keyed old_events new_events d :
  compare_schedules old_events new_events = Ok d ->
  keyed old_events /\ keyed new_events.
Proof.
  unfold compare_schedules. intros Hc.
  destruct (normalized_by_key old_events ∅) as [mo|] eqn:Hmo; simpl in Hc; [|discriminate].
  destruct (normalized_by_key new_events ∅) as [mn|] eqn:Hmn; simpl in Hc; [|discriminate].
  apply normalized_by_key_Ok in Hmo as (Hko & _).
  apply normalized_by_key_Ok in Hmn as (Hkn & _).
  split; assumption.
Qed.

(** X26. [compare_schedules] returns exactly when every event of both
    collections has a key; one event without a key makes it raise. *)
Lemma compare_schedules_is_ok old_events new_events :
  is_ok (compare_schedules old_events new_events) = true
  <-> keyed old_events /\ keyed new_events.
Proof.
  split.
  - intros Hok. apply is_ok_true in Hok as [d Hd].
    eapply compare_schedules_Ok_keyed. exact Hd.
  - intros [Hko Hkn].
    destruct (compare_schedules_keyed _ _ Hko Hkn) as (mo & mn & _ & _ & Hc).
    rewrite Hc. reflexivity.
Qed.

Lemma dom_normalized_by_key events m :
  normalized_by_key events ∅ = Ok m -> dom m = event_keys events.
Proof.
  intros Hm. apply normalized_by_key_Ok in Hm as (_ & Hdom & _).
  rewrite Hdom. rewrite dom_empty_L. sets.
Qed.

Lemma lookup_normalized_by_key events m k :
  normalized_by_key events ∅ = Ok m ->
  m !! k = last_with_key k events ≫= normalized_of.
Proof.
  intros Hm. apply normalized_by_key_Ok in Hm as (_ & _ & Hget).
  rewrite Hget. destruct (last_with_key k events); [reflexivity|].
  apply lookup_empty.
Qed.

Lemma set_iter_empty : set_iter (∅ : gset string) = [].
Proof.
  apply Permutation_nil_r. rewrite set_iter_perm. rewrite elements_empty. reflexivity.
Qed.

Lemma set_iter_singleton (k : string) : set_iter ({[ k ]} : gset string) = [k].
Proof.
  apply Permutation_singleton_r. rewrite set_iter_perm.
  rewrite elements_singleton. reflexivity.
Qed.

Lemma elem_of_set_iter (k : string) (X : gset string) : k ∈ set_iter X <-> k ∈ X.
Proof. rewrite set_iter_perm. apply elem_of_elements. Qed.

(** Events that differ in their time fields only have normal forms that
    agree on date, subject, kind, educators and locations. *)
Lemma differ_only_in_time_fields (e1 e2 : event) (n1 : normalized) :
  (forall k, time_field k = false -> Py.assoc k e1 = Py.assoc k e2) ->
  normalize_event e1 = Ok n1 ->
  exists n2, normalize_event e2 = Ok n2
    /\ date n1 = date n2 /\ subject n1 = subject n2 /\ kind n1 = kind n2
    /\ educators n1 = educators n2 /\ locations n1 = locations n2.
Proof.
  intros Hsame Hn1.
  assert (forall k dflt, time_field k = false ->
            Py.get_or e1 k dflt = Py.get_or e2 k dflt) as Hget_or.
  { intros k dflt Hk. unfold Py.get_or. rewrite (Hsame k Hk). reflexivity. }
  assert (forall k, time_field k = false -> Py.get e1 k = Py.get e2 k) as Hget.
  { intros k Hk. unfold Py.get. rewrite (Hsame k Hk). reflexivity. }
  unfold normalize_event in *.
  rewrite <- (Hget "EducatorIds"), <- (Hget "Educators"), <- (Hget "EventLocations"),
    <- (Hget "Locations"), <- (Hget_or "DayDate"), <- (Hget_or "Subject"),
    <- (Hget_or "Kind") by reflexivity.
  destruct (Py.iter (Py.or_ (Py.get e1 "EducatorIds")
                       (Py.or_ (Py.get e1 "Educators") (JArr [])))) as [edu|];
    simpl in *; [|discriminate].
  destruct (Py.iter (Py.or_ (Py.get e1 "EventLocations")
                       (Py.or_ (Py.get e1 "Locations") (JArr [])))) as [loc|];
    simpl in *; [|discriminate].
  destruct (Py.join " " (extract_names "DisplayName" "Address" loc)) as [ls|];
    simpl in *; [|discriminate].
  apply Ok_inj in Hn1. subst n1. eexists. split; [reflexivity|]. simpl.
  repeat split; reflexivity.
Qed.

Lemma detect_changes_time_only (n1 n2 : normalized) (s : string) :
  Py.eqb (time_start n1) (time_start n2) && Py.eqb (time_end n1) (time_end n2) = false ->
  educators n1 = educators n2 -> locations n1 = locations n2 ->
  is_online n1 = is_online n2 ->
  Py.list_eqb (educators n1) (educators n1) = true ->
  Py.list_eqb (locations n1) (locations n1) = true ->
  detect_changes n1 n2 = ["time"].
Proof.
  intros Ht He Hl Ho Hre Hrl. unfold detect_changes.
  rewrite <- He, <- Hl, <- Ho, Hre, Hrl. rewrite eqb_reflx. simpl.
  destruct (Py.eqb (time_start n1) (time_start n2));
    destruct (Py.eqb (time_end n1) (time_end n2)); simpl in *;
    try reflexivity; discriminate.
Qed.

(** X30. Two events with the same date, subject, kind, instructor list
    and location list have the same key, whatever their time fields;
    and when their start or end times differ, comparing the one as the
    old collection with the other as the new one yields exactly one
    [changed] entry, with changes ["time"], and nothing added or
    removed.  The time range [TimeIntervalString] has no part in it. *)
Theorem time_shift_same_key_and_changed (e1 e2 : event) (n1 n2 : normalized) (k : string) :
  normalize_event e1 = Ok n1 -> normalize_event e2 = Ok n2 ->
  date n1 = date n2 -> subject n1 = subject n2 -> kind n1 = kind n2 ->
  educators n1 = educators n2 -> locations n1 = locations n2 ->
  create_event_key e1 = create_event_key e2
  /\ (create_event_key e1 = Ok k ->
      Py.eqb (time_start n1) (time_start n2) && Py.eqb (time_end n1) (time_end n2) = false ->
      compare_schedules [e1] [e2]
      = Ok {| added := [];
              removed := [];
              changed := [ {| old := Some e1; new := Some e2; changes := ["time"] |} ] |}).
Proof.
  intros Hn1 Hn2 Hd Hs Hk He Hl.
  assert (create_event_key e1 = create_event_key e2) as Hsame.
  { unfold create_event_key. rewrite Hn1, Hn2. simpl.
    rewrite Hd, Hs, Hk, He, Hl. reflexivity. }
  split; [exact Hsame|]. intros Hk1 Ht.
  assert (create_event_key e2 = Ok k) as Hk2 by (rewrite <- Hsame; exact Hk1).
  assert (detect_changes n1 n2 = ["time"]) as Hdet.
  { pose proof Hk1 as Hj. unfold create_event_key in Hj. rewrite Hn1 in Hj. simpl in Hj.
    destruct (Py.join "|" (educators n1)) as [es|] eqn:Hje; simpl in Hj; [|discriminate].
    destruct (Py.join "|" (locations n1)) as [ls|] eqn:Hjl; simpl in Hj; [|discriminate].
    destruct (normalize_is_online _ _ Hn1) as (s1 & Hs1 & Ho1).
    destruct (normalize_is_online _ _ Hn2) as (s2 & Hs2 & Ho2).
    apply (detect_changes_time_only n1 n2 s1 Ht He Hl).
    - rewrite Ho1, Ho2. rewrite <- Hl in Hs2. congruence.
    - eapply join_Ok_list_eqb. exact Hje.
    - eapply join_Ok_list_eqb. exact Hjl. }
  unfold compare_schedules. simpl. rewrite Hk1, Hn1, Hk2, Hn2. simpl.
  rewrite !dom_insert_L, !dom_empty_L.
  replace (({[k]} ∪ ∅) ∖ ({[k]} ∪ ∅) : gset string) with (∅ : gset string) by sets.
  replace (({[k]} ∪ ∅) ∩ ({[k]} ∪ ∅) : gset string) with ({[k]} : gset string) by sets.
  rewrite set_iter_empty, set_iter_singleton. simpl.
  rewrite !lookup_insert_eq. rewrite Hdet. rewrite Hk1, Hk2. simpl.
  rewrite string_eqb_refl. reflexivity.
Qed.

Lemma event_keys_bucket (events : list event) (X : gset string) :
  X ⊆ event_keys events ->
  event_keys (omap (fun k => first_with_key k events) (set_iter X)) = X.
Proof.
  intros Hsub. apply set_eq. intros k. rewrite elem_of_event_keys. split.
  - intros (e & Hin & Hk). apply list_elem_of_omap in Hin as (k' & Hk' & Hf).
    apply first_with_key_Some in Hf as [_ Hf]. rewrite Hk in Hf.
    apply Ok_inj in Hf. subst k'. apply elem_of_set_iter in Hk'. exact Hk'.
  - intros Hk. destruct (first_with_key k events) as [e|] eqn:Hf.
    + exists e. split; [|apply (first_with_key_Some _ _ _ Hf)].
      apply list_elem_of_omap. exists k. split; [apply elem_of_set_iter, Hk | exact Hf].
    + apply first_with_key_None in Hf. exfalso. apply Hf, Hsub, Hk.
Qed.

(** C7. Swapping the two collections swaps [added] and [removed]: the
    keys underlying [added] are the keys of the new collection that the
    old one lacks, the keys underlying [removed] are the keys of the old
    collection that the new one lacks, so the keys of one bucket are the
    keys of the other after the swap (the buckets even hold the same
    events, up to their order); and the comparison returns for one order
    exactly when it returns for the other. *)
Theorem compare_schedules_swap (A B : list event) :
  match compare_schedules A B, compare_schedules B A with
  | Ok dAB, Ok dBA =>
      event_keys (added dAB) = event_keys B ∖ event_keys A
      /\ event_keys (removed dAB) = event_keys A ∖ event_keys B
      /\ event_keys (added dAB) = event_keys (removed dBA)
      /\ event_keys (removed dAB) = event_keys (added dBA)
      /\ added dAB ≡ₚ removed dBA
      /\ removed dAB ≡ₚ added dBA
  | Raise _, Raise _ => True
  | _, _ => False
  end.
Proof.
  destruct (compare_schedules A B) as [dAB|eAB] eqn:HAB.
  - destruct (compare_schedules_Ok_keyed _ _ _ HAB) as [HkA HkB].
    destruct (compare_schedules_keyed _ _ HkA HkB) as (mA & mB & HmA & HmB & HAB').
    destruct (compare_schedules_keyed _ _ HkB HkA) as (mB' & mA' & HmB' & HmA' & HBA).
    rewrite HmB in HmB'. apply Ok_inj in HmB'. subst mB'.
    rewrite HmA in HmA'. apply Ok_inj in HmA'. subst mA'.
    rewrite HBA. rewrite HAB in HAB'. apply Ok_inj in HAB'. subst dAB. simpl.
    pose proof (dom_normalized_by_key _ _ HmA) as HdA.
    pose proof (dom_normalized_by_key _ _ HmB) as HdB.
    split; [|split; [|repeat split; reflexivity]].
    + rewrite event_keys_bucket; [rewrite HdA, HdB; reflexivity|].
      rewrite <- HdB. apply subseteq_difference_l. reflexivity.
    + rewrite event_keys_bucket; [rewrite HdA, HdB; reflexivity|].
      rewrite <- HdA. apply subseteq_difference_l. reflexivity.
  - destruct (compare_schedules B A) as [dBA|eBA] eqn:HBA; [|exact I].
    destruct (compare_schedules_Ok_keyed _ _ _ HBA) as [HkB HkA].
    destruct (compare_schedules_keyed _ _ HkA HkB) as (mA & mB & _ & _ & HAB').
    congruence.
Qed.

Lemma last_with_key_normalized k events e :
  last_with_key k events = Some e -> exists n, normalize_event e = Ok n.
Proof.
  intros Hl. apply last_with_key_Some in Hl as [_ Hk].
  eapply create_event_key_normalize. exact Hk.
Qed.

Lemma first_with_key_is_Some k events :
  k ∈ event_keys events -> is_Some (first_with_key k events).
Proof.
  intros Hk. destruct (first_with_key k events) eqn:Hf; [eauto|].
  apply first_with_key_None in Hf. contradiction.
Qed.

(** C9. When several events of one collection share a key, the values
    compared are those of the last of them, and the event put into a
    bucket is the first of them. *)
Theorem duplicates_first_reported_last_compared
    (old_events new_events : list event) (d : diff) :
  compare_schedules old_events new_events = Ok d ->
  first_reported_last_compared old_events new_events d.
Proof.
  intros Hc. destruct (compare_schedules_Ok_keyed _ _ _ Hc) as [Hko Hkn].
  destruct (compare_schedules_keyed _ _ Hko Hkn) as (mo & mn & Hmo & Hmn & Hc').
  rewrite Hc in Hc'. apply Ok_inj in Hc'. subst d.
  pose proof (dom_normalized_by_key _ _ Hmo) as Hdo.
  pose proof (dom_normalized_by_key _ _ Hmn) as Hdn.
  unfold first_reported_last_compared. simpl. split; [|split].
  - intros e. rewrite list_elem_of_omap. split.
    + intros (k & Hk & Hf). exists k. split; [exact Hf|].
      apply elem_of_set_iter in Hk. sets.
    + intros (k & Hf & Hk). exists k. split; [|exact Hf].
      apply elem_of_set_iter. apply elem_of_difference. split; [|sets].
      rewrite Hdn. apply elem_of_event_keys. exists e.
      apply first_with_key_Some in Hf. exact Hf.
  - intros e. rewrite list_elem_of_omap. split.
    + intros (k & Hk & Hf). exists k. split; [exact Hf|].
      apply elem_of_set_iter in Hk. sets.
    + intros (k & Hf & Hk). exists k. split; [|exact Hf].
      apply elem_of_set_iter. apply elem_of_difference. split; [|sets].
      rewrite Hdo. apply elem_of_event_keys. exists e.
      apply first_with_key_Some in Hf. exact Hf.
  - intros c. rewrite list_elem_of_omap. split.
    + intros (k & Hk & Hch). apply elem_of_set_iter in Hk.
      apply elem_of_intersection in Hk as [Hio Hin].
      unfold change_for in Hch.
      rewrite (lookup_normalized_by_key _ _ k Hmo) in Hch.
      rewrite (lookup_normalized_by_key _ _ k Hmn) in Hch.
      destruct (last_with_key k old_events) as [ol|] eqn:Hol; simpl in Hch; [|discriminate].
      destruct (last_with_key k new_events) as [nl|] eqn:Hnl; simpl in Hch;
        [|destruct (normalized_of ol); discriminate].
      destruct (last_with_key_normalized _ _ _ Hol) as [od Hod].
      destruct (last_with_key_normalized _ _ _ Hnl) as [nd Hnd].
      unfold normalized_of in Hch. rewrite Hod, Hnd in Hch.
      exists k, ol, nl, od, nd.
      destruct (detect_changes od nd) as [|ch chs] eqn:Hdet; [discriminate|].
      injection Hch as <-.
      repeat split; try assumption; try reflexivity; try discriminate.
      * apply first_with_key_is_Some. rewrite <- Hdo. exact Hio.
      * apply first_with_key_is_Some. rewrite <- Hdn. exact Hin.
    + intros (k & ol & nl & od & nd & Hol & Hod & Hnl & Hnd & Hne & -> & Hso & Hsn).
      exists k. split.
      * apply elem_of_set_iter. apply elem_of_intersection.
        rewrite Hdo, Hdn. split; apply elem_of_event_keys.
        -- exists ol. apply (last_with_key_Some _ _ _ Hol).
        -- exists nl. apply (last_with_key_Some _ _ _ Hnl).
      * unfold change_for.
        rewrite (lookup_normalized_by_key _ _ k Hmo).
        rewrite (lookup_normalized_by_key _ _ k Hmn).
        rewrite Hol, Hnl. simpl. unfold normalized_of. rewrite Hod, Hnd.
        destruct (detect_changes od nd); [contradiction|reflexivity].
Qed.

Lemma new_effects_app w w' es : log w' = log w ++ es -> new_effects w w' = es.
Proof. unfold new_effects. intros ->. apply drop_app_length. Qed.

Lemma is_notification_sent_true db u d :
  is_notification_sent db u d = true
  <-> (u, _hash_notification u d) ∈ sent_notifications db.
Proof. unfold is_notification_sent. apply bool_decide_eq_true. Qed.

Lemma is_notification_sent_false db u d :
  is_notification_sent db u d = false
  <-> (u, _hash_notification u d) ∉ sent_notifications db.
Proof. unfold is_notification_sent. apply bool_decide_eq_false. Qed.

Lemma mark_recorded db u d :
  is_notification_sent (mark_notification_sent db u d) u d = true.
Proof.
  apply is_notification_sent_true. simpl. apply elem_of_union. left.
  apply elem_of_singleton. reflexivity.
Qed.

(** C10. After [mark_notification_sent(u, d)] the pair is reported as
    sent, and marking it a second time leaves the store as it is. *)
Theorem mark_notification_sent_idempotent (db : Database) (u : Z) (d : pydict) :
  is_notification_sent (mark_notification_sent db u d) u d = true
  /\ mark_notification_sent (mark_notification_sent db u d) u d
     = mark_notification_sent db u d.
Proof.
  split.
  - apply mark_recorded.
  - unfold mark_notification_sent. simpl. f_equal. sets.
Qed.

(** One turn of the delivery loop, case by case. *)
Lemma deliver_run (u : Z) (text : string) (data : pydict) (w : World) :
  deliver u (text, data) w =
  if is_notification_sent (db w) u data then (Ok 0, w)
  else
    let o := bot_send_message w u text in
    if succeeded o
    then (Ok 1, {| db := mark_notification_sent (db w) u data;
                   log := (log w ++ [Send u text data o]) ++ [MarkSent u data] |})
    else (Ok 0, {| db := db w; log := log w ++ [Send u text data o] |}).
Proof.
  unfold deliver, bind, read, send_notification, write, emit, ret. simpl.
  destruct (is_notification_sent (db w) u data); [reflexivity|]. simpl.
  destruct (succeeded (bot_send_message w u text)); reflexivity.
Qed.

Lemma delivery_refl ns us w : delivery ns us w w [].
Proof.
  split; try reflexivity.
  - rewrite app_nil_r. reflexivity.
  - intros e He. inversion He.
  - intros u t d o He. inversion He.
  - intros u d He. inversion He.
  - intros p. split; [auto|]. intros [Hp|(u & t & d & He & _)]; [exact Hp|inversion He].
Qed.

Lemma delivery_trans ns us w w1 w2 es1 es2 :
  delivery ns us w w1 es1 -> delivery ns us w1 w2 es2 ->
  delivery ns us w w2 (es1 ++ es2).
Proof.
  intros [L1 O1 S1 M1 T1 U1 P1 Y1] [L2 O2 S2 M2 T2 U2 P2 Y2]. split.
  - rewrite L2, L1. rewrite app_assoc. reflexivity.
  - intros e He. apply elem_of_app in He as [He|He]; [exact (O1 _ He) | exact (O2 _ He)].
  - intros u t d o He. apply elem_of_app in He as [He|He]; [exact (S1 _ _ _ _ He)|].
    destruct (S2 _ _ _ _ He) as (Hu & Hn & Hs). split; [exact Hu|]. split; [exact Hn|].
    apply is_notification_sent_false. apply is_notification_sent_false in Hs.
    intros Hin. apply Hs. apply T1. left. exact Hin.
  - intros u d He. apply elem_of_app in He as [He|He].
    + destruct (M1 _ _ He) as [t Ht]. exists t. apply elem_of_app. left. exact Ht.
    + destruct (M2 _ _ He) as [t Ht]. exists t. apply elem_of_app. right. exact Ht.
  - intros p. split.
    + intros Hp. apply T2 in Hp as [Hp|(u & t & d & He & Hp)].
      * apply T1 in Hp as [Hp|(u & t & d & He & Hp)]; [left; exact Hp|].
        right. exists u, t, d. split; [|exact Hp]. apply elem_of_app. left. exact He.
      * right. exists u, t, d. split; [|exact Hp]. apply elem_of_app. right. exact He.
    + intros [Hp|(u & t & d & He & Hp)].
      * apply T2. left. apply T1. left. exact Hp.
      * apply T2. apply elem_of_app in He as [He|He].
        -- left. apply T1. right. eauto.
        -- right. eauto.
  - congruence.
  - congruence.
  - congruence.
Qed.

Lemma delivery_weaken ns ns' us us' w w' es :
  delivery ns us w w' es -> ns ⊆ ns' -> us ⊆ us' -> delivery ns' us' w w' es.
Proof.
  intros [L O S M T U P Y] Hns Hus. split; try assumption.
  intros u t d o He. destruct (S _ _ _ _ He) as (Hu & Hn & Hs). auto.
Qed.

Lemma succeeded_Delivered o : succeeded o = true <-> o = Delivered.
Proof. destruct o; simpl; split; congruence. Qed.

Lemma deliver_delivery u n w :
  exists a es, deliver u n w = (Ok a, snd (deliver u n w))
               /\ delivery [n] [u] w (snd (deliver u n w)) es.
Proof.
  destruct n as [text data]. rewrite deliver_run.
  destruct (is_notification_sent (db w) u data) eqn:Hs.
  - exists 0, []. split; [reflexivity|]. apply delivery_refl.
  - simpl. destruct (succeeded (bot_send_message w u text)) eqn:Ho.
    + apply succeeded_Delivered in Ho. rewrite Ho.
      exists 1, [Send u text data Delivered; MarkSent u data].
      split; [reflexivity|]. simpl. split; simpl; try reflexivity.
      * rewrite <- app_assoc. reflexivity.
      * intros e He. apply elem_of_cons in He as [->|He]; [left; eauto|].
        apply list_elem_of_singleton in He as ->. right; left; eauto.
      * intros u' t d o He. apply elem_of_cons in He as [He|He].
        -- injection He as -> -> -> ->. split; [left|]. split; [left|exact Hs].
        -- apply list_elem_of_singleton in He. discriminate.
      * intros u' d He. apply elem_of_cons in He as [He|He]; [discriminate|].
        apply list_elem_of_singleton in He. injection He as -> ->.
        exists text. left.
      * intros p. rewrite elem_of_union, elem_of_singleton. split.
        -- intros [->|Hp]; [right|left; exact Hp]. exists u, text, data.
           split; [left|reflexivity].
        -- intros [Hp|(u' & t & d & He & ->)]; [right; exact Hp|left].
           apply elem_of_cons in He as [He|He].
           ++ injection He as -> -> ->. reflexivity.
           ++ apply list_elem_of_singleton in He. discriminate.
    + exists 0, [Send u text data (bot_send_message w u text)].
      split; [reflexivity|]. split; simpl; try reflexivity.
      * intros e He. apply list_elem_of_singleton in He as ->. left; eauto.
      * intros u' t d o He. apply list_elem_of_singleton in He.
        injection He as -> -> -> ->. split; [left|]. split; [left|exact Hs].
      * intros u' d He. apply list_elem_of_singleton in He. discriminate.
      * intros p. split; [auto|]. intros [Hp|(u' & t & d & He & ->)]; [exact Hp|].
        apply list_elem_of_singleton in He. injection He as -> -> -> Hd.
        rewrite <- Hd in Ho. discriminate.
Qed.

Lemma covered_app_l w es1 es2 u d : covered w es1 u d -> covered w (es1 ++ es2) u d.
Proof.
  intros [Hs|(t & d' & o & He & Hh)]; [left; exact Hs|right].
  exists t, d', o. split; [apply elem_of_app; left; exact He | exact Hh].
Qed.

Lemma covered_app_r ns us w w1 es1 es2 u d :
  delivery ns us w w1 es1 -> covered w1 es2 u d -> covered w (es1 ++ es2) u d.
Proof.
  intros Hd [Hs|(t & d' & o & He & Hh)].
  - apply is_notification_sent_true in Hs. apply (dl_sent _ _ _ _ _ Hd) in Hs.
    destruct Hs as [Hs|(u' & t & d' & He & Hp)].
    + left. apply is_notification_sent_true. exact Hs.
    + injection Hp as <- Hh. right. exists t, d', Delivered.
      split; [apply elem_of_app; left; exact He | symmetry; exact Hh].
  - right. exists t, d', o. split; [apply elem_of_app; right; exact He | exact Hh].
Qed.

Lemma deliver_covered u text data w es :
  delivery [(text, data)] [u] w (snd (deliver u (text, data) w)) es ->
  covered w es u data.
Proof.
  intros Hd. pose proof (dl_log _ _ _ _ _ Hd) as Hl. rewrite deliver_run in Hl.
  destruct (is_notification_sent (db w) u data) eqn:Hs; [left; exact Hs|].
  right. exists text, data, (bot_send_message w u text). split; [|reflexivity].
  simpl in Hl. destruct (succeeded (bot_send_message w u text)); simpl in Hl.
  - rewrite <- app_assoc in Hl. apply app_inv_head in Hl. subst es. left.
  - apply app_inv_head in Hl. subst es. left.
Qed.

Lemma deliver_all_delivery u ns w :
  exists a es,
    deliver_all u ns w = (Ok a, snd (deliver_all u ns w))
    /\ delivery ns [u] w (snd (deliver_all u ns w)) es
    /\ forall n, n ∈ ns -> covered w es u (snd n).
Proof.
  revert w. induction ns as [|n ns IH]; intros w; simpl.
  - exists 0, []. split; [reflexivity|]. split; [apply delivery_refl|].
    intros n Hn. inversion Hn.
  - unfold bind.
    destruct (deliver_delivery u n w) as (a1 & es1 & Hr1 & Hd1).
    rewrite Hr1.
    destruct (IH (snd (deliver u n w))) as (a2 & es2 & Hr2 & Hd2 & Hc2).
    rewrite Hr2. simpl. exists (a1 + a2), (es1 ++ es2). split; [reflexivity|]. split.
    + eapply delivery_trans.
      * eapply delivery_weaken; [exact Hd1 | sublist | sublist].
      * eapply delivery_weaken; [exact Hd2 | sublist | sublist].
    + intros n' Hn'. apply elem_of_cons in Hn' as [->|Hn'].
      * apply covered_app_l. destruct n as [text data]. simpl.
        eapply deliver_covered. exact Hd1.
      * eapply covered_app_r; [exact Hd1 | apply Hc2, Hn'].
Qed.

Lemma deliver_users_delivery (us : list user_row) ns w :
  exists a es,
    deliver_users us ns w = (Ok a, snd (deliver_users us ns w))
    /\ delivery ns (List.map user_id us) w (snd (deliver_users us ns w)) es
    /\ forall u n, u ∈ List.map user_id us -> n ∈ ns -> covered w es u (snd n).
Proof.
  revert w. induction us as [|u us IH]; intros w; simpl.
  - exists 0, []. split; [reflexivity|]. split; [apply delivery_refl|].
    intros u n Hu. inversion Hu.
  - unfold bind.
    destruct (deliver_all_delivery (user_id u) ns w) as (a1 & es1 & Hr1 & Hd1 & Hc1).
    rewrite Hr1.
    destruct (IH (snd (deliver_all (user_id u) ns w))) as (a2 & es2 & Hr2 & Hd2 & Hc2).
    rewrite Hr2. simpl. exists (a1 + a2), (es1 ++ es2). split; [reflexivity|]. split.
    + eapply delivery_trans.
      * eapply delivery_weaken; [exact Hd1 | sublist | sublist].
      * eapply delivery_weaken; [exact Hd2 | sublist | sublist].
    + intros u' n Hu' Hn. apply elem_of_cons in Hu' as [->|Hu'].
      * apply covered_app_l. apply Hc1, Hn.
      * eapply covered_app_r; [exact Hd1 | apply Hc2; assumption].
Qed.

Lemma delivery_start ns us w w' es e :
  (exists g o n, e = Notify g o n) ->
  delivery ns us {| db := db w; log := log w ++ [e] |} w' es ->
  delivery ns us w w' (e :: es).
Proof.
  intros He [L O S M T U P Y]. simpl in *. split; try assumption.
  - rewrite L. rewrite <- app_assoc. reflexivity.
  - intros e' He'. apply elem_of_cons in He' as [->|He'];
      [right; right; exact He | exact (O _ He')].
  - intros u t d o Hs. apply elem_of_cons in Hs as [Hs|Hs]; [|exact (S _ _ _ _ Hs)].
    destruct He as (g & o' & n & ->). discriminate.
  - intros u d Hm. apply elem_of_cons in Hm as [Hm|Hm].
    + destruct He as (g & o' & n & ->). discriminate.
    + destruct (M _ _ Hm) as [t Ht]. exists t. right. exact Ht.
  - intros p. split.
    + intros Hp. apply T in Hp as [Hp|(u & t & d & Hs & Hp)]; [left; exact Hp|].
      right. exists u, t, d. split; [right; exact Hs|exact Hp].
    + intros [Hp|(u & t & d & Hs & Hp)]; apply T; [left; exact Hp|].
      right. exists u, t, d. split; [|exact Hp].
      apply elem_of_cons in Hs as [Hs|Hs]; [|exact Hs].
      destruct He as (g & o' & n & ->). discriminate.
Qed.

Lemma covered_start w es e u d :
  covered {| db := db w; log := log w ++ [e] |} es u d -> covered w (e :: es) u d.
Proof.
  intros [Hs|(t & d' & o & He & Hh)]; [left; exact Hs|right].
  exists t, d', o. split; [right; exact He|exact Hh].
Qed.

(** A whole run of [notify_schedule_changes]. *)
Lemma notify_delivery g old_events new_events w :
  exists es,
    delivery (units_of g old_events new_events w) (recipients g w)
      w (snd (notify_schedule_changes g old_events new_events w))
      (Notify g old_events new_events :: es)
    /\ forall u n, u ∈ recipients g w -> n ∈ units_of g old_events new_events w ->
         covered w (Notify g old_events new_events :: es) u (snd n).
Proof.
  unfold notify_schedule_changes, units_of, recipients.
  unfold bind, emit, lift, read, ret. simpl.
  set (w0 := {| db := db w; log := log w ++ [Notify g old_events new_events] |}).
  assert (forall ns us, delivery ns us w w0 [Notify g old_events new_events]) as Hstart.
  { intros ns us. apply delivery_start; [eauto|]. apply delivery_refl. }
  destruct (compare_schedules old_events new_events) as [d|e] eqn:Hc; simpl.
  2:{ exists []. split; [apply Hstart|]. intros u n _ Hn. inversion Hn. }
  destruct (is_empty_diff d); simpl.
  { exists []. split; [apply Hstart|]. intros u n _ Hn. inversion Hn. }
  destruct (get_users_by_group (db w) g true) as [|first rest] eqn:Hus; simpl.
  { exists []. split; [apply Hstart|]. intros u n _ Hn. inversion Hn. }
  destruct (build_notifications d (from_option JStr JNull (group_name first)))
    as [ns|e] eqn:Hb; simpl.
  2:{ exists []. split; [apply Hstart|]. intros u n _ Hn. inversion Hn. }
  destruct (deliver_users_delivery (first :: rest) ns w0) as (a & es & Hr & Hd & Hcov).
  exists es. split.
  - apply delivery_start; [eauto|]. exact Hd.
  - intros u n Hu Hn. apply covered_start. apply Hcov; assumption.
Qed.

Lemma notify_new_effects g old_events new_events w :
  exists es,
    new_effects w (snd (notify_schedule_changes g old_events new_events w)) = es
    /\ delivery (units_of g old_events new_events w) (recipients g w)
         w (snd (notify_schedule_changes g old_events new_events w)) es
    /\ forall u n, u ∈ recipients g w -> n ∈ units_of g old_events new_events w ->
         covered w es u (snd n).
Proof.
  destruct (notify_delivery g old_events new_events w)
    as (es & Hd & Hc).
  exists (Notify g old_events new_events :: es). split; [|split; assumption].
  apply new_effects_app. apply (dl_log _ _ _ _ _ Hd).
Qed.

(** C2. A turn of the delivery loop, for one user and one unit: when the
    fingerprint of the pair is recorded nothing happens; otherwise one
    message is sent, and the fingerprint is recorded afterwards exactly
    when the send succeeded.  In a run of [notify_schedule_changes]: a
    message is sent only for a (user, unit) pair whose fingerprint was
    not recorded; every pair of a recipient and a built unit is either
    recorded already or has a send with its fingerprint; at the end a
    fingerprint is recorded exactly when it was recorded before or a
    send carrying it succeeded (a failed send records nothing); hence
    after a send that succeeded, no later run sends that user a unit
    with the same fingerprint, as long as the record is kept. *)
Theorem dedup_gates_delivery (g : Z) (old_events new_events : list event) (w : World) :
  let w' := snd (notify_schedule_changes g old_events new_events w) in
  let es := new_effects w w' in
  (forall w0 u t d,
     let turn := deliver u (t, d) w0 in
     let outcome := bot_send_message w0 u t in
     if is_notification_sent (db w0) u d then turn = (Ok 0, w0)
     else
       new_effects w0 (snd turn)
       = Send u t d outcome :: (if succeeded outcome then [MarkSent u d] else [])
       /\ is_notification_sent (db (snd turn)) u d = succeeded outcome)
  /\ (forall u t d o, Send u t d o ∈ es ->
     is_notification_sent (db w) u d = false
     /\ u ∈ recipients g w /\ (t, d) ∈ units_of g old_events new_events w)
  /\ (forall u n, u ∈ recipients g w -> n ∈ units_of g old_events new_events w ->
        covered w es u (snd n))
  /\ (forall u d,
        is_notification_sent (db w') u d = true
        <-> is_notification_sent (db w) u d = true
            \/ exists t d', Send u t d' Delivered ∈ es
                            /\ _hash_notification u d' = _hash_notification u d)
  /\ (forall u d, MarkSent u d ∈ es -> exists t, Send u t d Delivered ∈ es)
  /\ (forall u t d, Send u t d Delivered ∈ es ->
        forall w2 g2 old2 new2,
          sent_notifications (db w') ⊆ sent_notifications (db w2) ->
          forall t2 d2 o2,
            Send u t2 d2 o2 ∈ new_effects w2 (snd (notify_schedule_changes g2 old2 new2 w2)) ->
            _hash_notification u d2 <> _hash_notification u d).
Proof.
  intros w' es.
  destruct (notify_new_effects g old_events new_events w) as (es' & Hes & Hd & Hc).
  fold w' in Hes, Hd. fold es in Hes. subst es'.
  assert (forall u d,
        is_notification_sent (db w') u d = true
        <-> is_notification_sent (db w) u d = true
            \/ exists t d', Send u t d' Delivered ∈ es
                            /\ _hash_notification u d' = _hash_notification u d) as Hrec.
  { intros u d. rewrite !is_notification_sent_true. split.
    - intros Hp. apply (dl_sent _ _ _ _ _ Hd) in Hp as [Hp|(u' & t & d' & He & Hp)];
        [left; exact Hp|].
      injection Hp as <- Hh. right. exists t, d'. split; [exact He|symmetry; exact Hh].
    - intros [Hp|(t & d' & He & Hh)]; apply (dl_sent _ _ _ _ _ Hd); [left; exact Hp|].
      right. exists u, t, d'. split; [exact He|]. rewrite Hh. reflexivity. }
  split; [|split; [|split; [exact Hc|split; [exact Hrec|split]]]].
  - intros w0 u t d turn outcome. unfold turn, outcome. rewrite deliver_run.
    destruct (is_notification_sent (db w0) u d) eqn:Hs; [reflexivity|]. simpl.
    destruct (succeeded (bot_send_message w0 u t)); simpl.
    + split; [apply new_effects_app; rewrite <- app_assoc; reflexivity|].
      apply mark_recorded.
    + split; [apply new_effects_app; reflexivity|exact Hs].
  - intros u t d o He. destruct (dl_send _ _ _ _ _ Hd _ _ _ _ He) as (Hu & Hn & Hs).
    split; [exact Hs|split; assumption].
  - intros u d Hm. exact (dl_mark _ _ _ _ _ Hd _ _ Hm).
  - intros u t d He w2 g2 old2 new2 Hsub t2 d2 o2 He2 Hh.
    destruct (notify_new_effects g2 old2 new2 w2) as (es2 & Hes2 & Hd2 & _).
    rewrite Hes2 in He2.
    destruct (dl_send _ _ _ _ _ Hd2 _ _ _ _ He2) as (_ & _ & Hs2).
    apply is_notification_sent_false in Hs2. apply Hs2. rewrite Hh. apply Hsub.
    apply is_notification_sent_true. apply Hrec. right. exists t, d.
    split; [exact He|reflexivity].
Qed.

Lemma event_notifications_elem ty evs gname ns t data :
  event_notifications ty evs gname = Ok ns -> (t, data) ∈ ns ->
  exists ev k, ev ∈ evs /\ is_session_event ev = Ok false
               /\ create_event_key ev = Ok k /\ data = event_payload ty k.
Proof.
  revert ns. induction evs as [|ev evs IH]; simpl; intros ns Hb Hin.
  - apply Ok_inj in Hb. subst ns. inversion Hin.
  - destruct (is_session_event ev) as [[|]|] eqn:Hs; simpl in Hb; [|  |discriminate].
    + destruct (IH _ Hb Hin) as (ev' & k & He & Hr). exists ev', k.
      split; [right; exact He|exact Hr].
    + destruct (format_change_notification ty ev [] gname)
        as [text|] eqn:Hf; simpl in Hb; [|discriminate].
      destruct (create_event_key ev) as [k|] eqn:Hk; simpl in Hb; [|discriminate].
      destruct (event_notifications ty evs gname) as [more|] eqn:Hm; simpl in Hb;
        [|discriminate].
      apply Ok_inj in Hb. subst ns. apply elem_of_cons in Hin as [Hin|Hin].
      * injection Hin as -> ->. exists ev, k. repeat split; try assumption. left.
      * destruct (IH _ eq_refl Hin) as (ev' & k' & He & Hr). exists ev', k'.
        split; [right; exact He|exact Hr].
Qed.

Lemma change_notifications_elem entries gname ns t data :
  change_notifications entries gname = Ok ns -> (t, data) ∈ ns ->
  exists c ev k, c ∈ entries /\ new c = Some ev /\ is_session_event ev = Ok false
                 /\ create_event_key ev = Ok k
                 /\ data = change_payload k (changes c).
Proof.
  revert ns. induction entries as [|c entries IH]; simpl; intros ns Hb Hin.
  - apply Ok_inj in Hb. subst ns. inversion Hin.
  - destruct (new c) as [ev|] eqn:Hn; [|discriminate].
    destruct (is_session_event ev) as [[|]|] eqn:Hs; simpl in Hb; [|  |discriminate].
    + destruct (IH _ Hb Hin) as (c' & ev' & k & He & Hr). exists c', ev', k.
      split; [right; exact He|exact Hr].
    + destruct (format_change_notification "changed" ev (changes c) gname)
        as [text|] eqn:Hf; simpl in Hb; [|discriminate].
      destruct (create_event_key ev) as [k|] eqn:Hk; simpl in Hb; [|discriminate].
      destruct (change_notifications entries gname) as [more|] eqn:Hm; simpl in Hb;
        [|discriminate].
      apply Ok_inj in Hb. subst ns. apply elem_of_cons in Hin as [Hin|Hin].
      * injection Hin as -> ->. exists c, ev, k. repeat split; try assumption. left.
      * destruct (IH _ eq_refl Hin) as (c' & ev' & k' & He & Hr). exists c', ev', k'.
        split; [right; exact He|exact Hr].
Qed.

(** Every unit built from a diff is the unit of an added event, of a
    removed event or of the new event of a change, and that event is
    not a session event. *)
Lemma build_notifications_elem d gname ns t data :
  build_notifications d gname = Ok ns -> (t, data) ∈ ns ->
  exists ev, is_session_event ev = Ok false /\ notification_for d ev data.
Proof.
  unfold build_notifications. intros Hb Hin.
  destruct (event_notifications "added" (added d) gname) as [a|] eqn:Ha;
    simpl in Hb; [|discriminate].
  destruct (event_notifications "removed" (removed d) gname) as [r|] eqn:Hr;
    simpl in Hb; [|discriminate].
  destruct (change_notifications (changed d) gname) as [c|] eqn:Hc;
    simpl in Hb; [|discriminate].
  apply Ok_inj in Hb. subst ns.
  apply elem_of_app in Hin as [Hin|Hin]; [|apply elem_of_app in Hin as [Hin|Hin]].
  - destruct (event_notifications_elem _ _ _ _ _ _ Ha Hin) as (ev & k & He & Hs & Hk & Hd).
    exists ev. split; [exact Hs|]. exists k. split; [exact Hk|]. left. split; assumption.
  - destruct (event_notifications_elem _ _ _ _ _ _ Hr Hin) as (ev & k & He & Hs & Hk & Hd).
    exists ev. split; [exact Hs|]. exists k. split; [exact Hk|]. right. left.
    split; assumption.
  - destruct (change_notifications_elem _ _ _ _ _ Hc Hin)
      as (ch & ev & k & He & Hn & Hs & Hk & Hd).
    exists ev. split; [exact Hs|]. exists k. split; [exact Hk|]. right. right.
    exists ch. repeat split; assumption.
Qed.

(** Every event of a bucket is the first event of its side under some
    key. *)
Lemma bucket_representatives old_events new_events d :
  compare_schedules old_events new_events = Ok d ->
  (forall e, e ∈ added d -> exists k, first_with_key k new_events = Some e)
  /\ (forall e, e ∈ removed d -> exists k, first_with_key k old_events = Some e)
  /\ (forall c, c ∈ changed d -> exists k, new c = first_with_key k new_events).
Proof.
  intros Hc. destruct (compare_schedules_Ok_keyed _ _ _ Hc) as [Hko Hkn].
  destruct (compare_schedules_keyed _ _ Hko Hkn) as (mo & mn & _ & _ & Hc').
  rewrite Hc in Hc'. apply Ok_inj in Hc'. subst d. simpl.
  split; [|split].
  - intros e He. apply list_elem_of_omap in He as (k & _ & Hf). eauto.
  - intros e He. apply list_elem_of_omap in He as (k & _ & Hf). eauto.
  - intros c He. apply list_elem_of_omap in He as (k & _ & Hf). exists k.
    unfold change_for in Hf.
    destruct (mo !! k) as [od|]; [|discriminate].
    destruct (mn !! k) as [nd|]; [|discriminate].
    destruct (detect_changes od nd); [discriminate|].
    injection Hf as <-. reflexivity.
Qed.

(** Within a diff computed by [compare_schedules], a payload determines
    its event. *)
Lemma notification_for_inj old_events new_events d ev ev' data :
  compare_schedules old_events new_events = Ok d ->
  notification_for d ev data -> notification_for d ev' data -> ev = ev'.
Proof.
  intros Hc (k & Hk & Hev) (k' & Hk' & Hev').
  destruct (bucket_representatives _ _ _ Hc) as (Ha & Hr & Hch).
  assert (forall evs : list event,
            (exists a, first_with_key a evs = Some ev) ->
            (exists a, first_with_key a evs = Some ev') -> k = k' -> ev = ev') as Hfirst.
  { intros evs [a Hf] [a' Hf'] <-.
    pose proof (first_with_key_Some _ _ _ Hf) as [_ Hka].
    pose proof (first_with_key_Some _ _ _ Hf') as [_ Hka'].
    rewrite Hk in Hka. rewrite Hk' in Hka'. apply Ok_inj in Hka, Hka'. subst a a'.
    rewrite Hf in Hf'. injection Hf' as ->. reflexivity. }
  unfold event_payload, change_payload in *.
  destruct Hev as [[Hin ->]|[[Hin ->]|(c & Hin & Hn & ->)]];
    destruct Hev' as [[Hin' Hd]|[[Hin' Hd]|(c' & Hin' & Hn' & Hd)]];
    try discriminate Hd.
  - injection Hd as Hd. apply (Hfirst new_events); [apply Ha, Hin|apply Ha, Hin'|exact Hd].
  - injection Hd as Hd. apply (Hfirst old_events); [apply Hr, Hin|apply Hr, Hin'|exact Hd].
  - injection Hd as Hd _. apply (Hfirst new_events); [| |exact Hd].
    + destruct (Hch _ Hin) as [a Hf]. exists a. rewrite <- Hf. exact Hn.
    + destruct (Hch _ Hin') as [a Hf]. exists a. rewrite <- Hf. exact Hn'.
Qed.

(** The old and the new event of an entry of [changed] are the first
    events of the two collections under one key. *)
Lemma changed_entry_events old_events new_events d c :
  compare_schedules old_events new_events = Ok d ->
  c ∈ changed d ->
  exists k, old c = first_with_key k old_events /\ new c = first_with_key k new_events.
Proof.
  intros Hc. destruct (compare_schedules_Ok_keyed _ _ _ Hc) as [Hko Hkn].
  destruct (compare_schedules_keyed _ _ Hko Hkn) as (mo & mn & _ & _ & Hc').
  rewrite Hc in Hc'. apply Ok_inj in Hc'. subst d. simpl.
  intros He. apply list_elem_of_omap in He as (k & _ & Hf). exists k.
  unfold change_for in Hf.
  destruct (mo !! k) as [od|]; [|discriminate].
  destruct (mn !! k) as [nd|]; [|discriminate].
  destruct (detect_changes od nd); [discriminate|].
  injection Hf as <-. split; reflexivity.
Qed.

(** A text without a bar, followed by a bar, can be read off the front
    of a text in one way only. *)
Lemma split_at_bar (a a' r r' : string) :
  no_bar a = true -> no_bar a' = true ->
  a +:+ "|" +:+ r = a' +:+ "|" +:+ r' -> a = a' /\ r = r'.
Proof.
  assert (forall x, EmptyString +:+ x = x) as Hnil by reflexivity.
  assert (forall c x y, String c x +:+ y = String c (x +:+ y)) as Hcons by reflexivity.
  revert a'. induction a as [|c a IH]; intros [|c' a']; simpl; intros Ha Ha' Heq;
    rewrite ?Hcons, ?Hnil in Heq.
  - injection Heq as ->. split; reflexivity.
  - injection Heq as <- _. discriminate Ha'.
  - injection Heq as -> _. discriminate Ha.
  - injection Heq as <- Heq.
    apply andb_true_iff in Ha as [_ Ha]. apply andb_true_iff in Ha' as [_ Ha'].
    destruct (IH a' Ha Ha' Heq) as [-> ->]. split; reflexivity.
Qed.

Lemma normalize_event_identity (ev : event) (n : normalized) :
  normalize_event ev = Ok n ->
  date n = Py.get_or ev "DayDate" (JStr EmptyString)
  /\ subject n = Py.get_or ev "Subject" (JStr EmptyString)
  /\ kind n = Py.get_or ev "Kind" (JStr EmptyString).
Proof.
  unfold normalize_event. intros Hn.
  destruct (Py.iter (Py.or_ (Py.get ev "EducatorIds")
                       (Py.or_ (Py.get ev "Educators") (JArr [])))) as [edu|];
    simpl in Hn; [|discriminate].
  destruct (Py.iter (Py.or_ (Py.get ev "EventLocations")
                       (Py.or_ (Py.get ev "Locations") (JArr [])))) as [loc|];
    simpl in Hn; [|discriminate].
  destruct (Py.join " " (extract_names "DisplayName" "Address" loc)) as [ls|];
    simpl in Hn; [|discriminate].
  apply Ok_inj in Hn. subst n. repeat split; reflexivity.
Qed.

(** What [event.get(k) or ""] is when [event.get(k, "")] is a string. *)
Lemma get_or_empty (ev : event) (k s : string) :
  Py.get_or ev k (JStr EmptyString) = JStr s ->
  Py.or_ (Py.get ev k) (JStr EmptyString) = JStr s.
Proof.
  unfold Py.get_or, Py.get, Py.or_. destruct (Py.assoc k ev) as [v|]; simpl.
  - intros ->. simpl. destruct (String.eqb_spec s EmptyString) as [->|_]; reflexivity.
  - intros Hs. exact Hs.
Qed.

(** The key of an event whose date, subject and kind are plain, and
    what [is_session_event] reads of it. *)
Lemma plain_identity_key (ev : event) (k : string) :
  create_event_key ev = Ok k -> plain_identity ev = true ->
  exists d s kd rest,
    no_bar d = true /\ no_bar s = true /\ no_bar kd = true
    /\ k = d +:+ "|" +:+ s +:+ "|" +:+ kd +:+ "|" +:+ rest
    /\ is_session_event ev
       = Ok (existsb (fun keyword => PyStr.contains keyword (PyStr.lower kd)
                                     || PyStr.contains keyword (PyStr.lower s))
               SESSION_EVENT_TYPES).
Proof.
  unfold create_event_key, plain_identity, plain_field. intros Hk Hp.
  destruct (normalize_event ev) as [n|] eqn:Hn; simpl in Hk; [|discriminate].
  destruct (normalize_event_identity ev n Hn) as (Hd & Hs & Hkd).
  rewrite Hd, Hs, Hkd in Hk.
  destruct (Py.join "|" (educators n)) as [es|]; simpl in Hk; [|discriminate].
  destruct (Py.join "|" (locations n)) as [ls|]; simpl in Hk; [|discriminate].
  apply Ok_inj in Hk.
  apply andb_true_iff in Hp as [Hp Hpk]. apply andb_true_iff in Hp as [Hpd Hps].
  destruct (Py.get_or ev "DayDate" (JStr EmptyString)) as [| | |d| |] eqn:Ed;
    try discriminate Hpd.
  destruct (Py.get_or ev "Subject" (JStr EmptyString)) as [| | |s| |] eqn:Es;
    try discriminate Hps.
  destruct (Py.get_or ev "Kind" (JStr EmptyString)) as [| | |kd| |] eqn:Ek;
    try discriminate Hpk.
  exists d, s, kd, (es +:+ "|" +:+ ls).
  split; [exact Hpd|]. split; [exact Hps|]. split; [exact Hpk|].
  split; [symmetry; exact Hk|].
  unfold is_session_event.
  rewrite (get_or_empty ev "Kind" kd Ek), (get_or_empty ev "Subject" s Es). reflexivity.
Qed.

(** Two events under one key, with plain dates, subjects and kinds,
    are session events together or not at all. *)
Lemma plain_same_session (e1 e2 : event) (k : string) :
  create_event_key e1 = Ok k -> create_event_key e2 = Ok k ->
  plain_identity e1 = true -> plain_identity e2 = true ->
  is_session_event e1 = is_session_event e2.
Proof.
  intros Hk1 Hk2 Hp1 Hp2.
  destruct (plain_identity_key e1 k Hk1 Hp1) as (d1 & s1 & kd1 & r1 & Hd1 & Hs1 & Hkd1 & E1 & ->).
  destruct (plain_identity_key e2 k Hk2 Hp2) as (d2 & s2 & kd2 & r2 & Hd2 & Hs2 & Hkd2 & E2 & ->).
  rewrite E1 in E2.
  apply split_at_bar in E2 as [_ E2]; [|assumption|assumption].
  apply split_at_bar in E2 as [-> E2]; [|assumption|assumption].
  apply split_at_bar in E2 as [-> _]; [|assumption|assumption].
  reflexivity.
Qed.

(** A payload that is sent in a run was built from the diff of the
    run. *)
Lemma sent_was_built g old_events new_events w d u t data o :
  compare_schedules old_events new_events = Ok d ->
  Send u t data o
    ∈ new_effects w (snd (notify_schedule_changes g old_events new_events w)) ->
  exists gname ns, build_notifications d gname = Ok ns /\ (t, data) ∈ ns.
Proof.
  intros Hc He.
  destruct (notify_new_effects g old_events new_events w) as (es & Hes & Hd & _).
  rewrite Hes in He.
  destruct (dl_send _ _ _ _ _ Hd _ _ _ _ He) as (_ & Hunit & _).
  unfold units_of in Hunit. rewrite Hc in Hunit.
  destruct (is_empty_diff d); [inversion Hunit|].
  destruct (get_users_by_group (db w) g true) as [|first rest]; [inversion Hunit|].
  destruct (build_notifications d (from_option JStr JNull (group_name first)))
    as [ns|] eqn:Hb; [|inversion Hunit].
  exists (from_option JStr JNull (group_name first)), ns. split; [exact Hb|exact Hunit].
Qed.

(** C3, amended. For the diff of a run and an event for which
    [is_session_event] is true, no unit built from the diff and no
    message sent in the run is a notification for that event as an
    added event, as a removed event or as the new event of an entry of
    the [changed] bucket.  An entry of that bucket is judged by its new
    event alone: a unit or a message is a notification about the event
    as the old event of an entry only when the new event of the entry,
    which has the same key, is not a session event; and then the date,
    the subject or the kind of one of the two events is not a string
    without a bar. *)
Theorem session_events_never_notified
    (g : Z) (old_events new_events : list event) (w : World) (d : diff) (ev : event) :
  compare_schedules old_events new_events = Ok d ->
  is_session_event ev = Ok true ->
  let judged_by_the_new_event (data : pydict) : Prop :=
    ~ notification_for d ev data
    /\ (notification_about d ev data ->
        exists c ev', c ∈ changed d /\ old c = Some ev /\ new c = Some ev'
          /\ create_event_key ev' = create_event_key ev
          /\ is_session_event ev' = Ok false
          /\ plain_identity ev && plain_identity ev' = false) in
  (forall gname ns t data,
     build_notifications d gname = Ok ns -> (t, data) ∈ ns ->
     judged_by_the_new_event data)
  /\ (forall u t data o,
        Send u t data o
          ∈ new_effects w (snd (notify_schedule_changes g old_events new_events w)) ->
        judged_by_the_new_event data).
Proof.
  intros Hc Hs judged.
  assert (forall gname ns t data,
     build_notifications d gname = Ok ns -> (t, data) ∈ ns -> judged data) as Hbuilt.
  { intros gname ns t data Hb Hin.
    destruct (build_notifications_elem _ _ _ _ _ Hb Hin) as (ev0 & Hs0 & Hfor0).
    assert (~ notification_for d ev data) as Hnot.
    { intros Hfor. rewrite (notification_for_inj _ _ _ _ _ _ Hc Hfor Hfor0) in Hs.
      congruence. }
    split; [exact Hnot|].
    intros [Hfor|(c & k & Hin_c & Hold & Hnew & ->)]; [contradiction|].
    destruct (new c) as [ev'|] eqn:Hn; [|discriminate].
    simpl in Hnew. unfold event_key in Hnew.
    destruct (create_event_key ev') as [k'|] eqn:Hk'; [|discriminate].
    injection Hnew as ->.
    assert (notification_for d ev' (change_payload k (changes c))) as Hfor'.
    { exists k. split; [exact Hk'|]. right. right. exists c. repeat split; assumption. }
    rewrite (notification_for_inj _ _ _ _ _ _ Hc Hfor0 Hfor') in Hs0.
    destruct (changed_entry_events _ _ _ _ Hc Hin_c) as (k0 & Ho0 & Hn0).
    rewrite Hold in Ho0. rewrite Hn in Hn0.
    destruct (first_with_key_Some _ _ _ (eq_sym Ho0)) as [_ Hk_ev].
    destruct (first_with_key_Some _ _ _ (eq_sym Hn0)) as [_ Hk_ev'].
    exists c, ev'. repeat split; try assumption; [congruence|].
    destruct (plain_identity ev) eqn:Hp; [|reflexivity].
    destruct (plain_identity ev') eqn:Hp'; [|reflexivity].
    rewrite (plain_same_session ev ev' k0 Hk_ev Hk_ev' Hp Hp') in Hs. congruence. }
  split; [exact Hbuilt|].
  intros u t data o He.
  destruct (sent_was_built _ _ _ _ _ _ _ _ _ Hc He) as (gname & ns & Hb & Hin).
  exact (Hbuilt gname ns t data Hb Hin).
Qed.

(** The per-group check, branch by branch. *)
Lemma check_group_schedule_run (g : Z) (w : World) :
  _check_group_schedule g w =
  match api_get_group_schedule_regular w g with
  | Raise e => (Raise e, fetched w g)
  | Ok new_events =>
      match schedule_snapshots (db w) !! (g, "regular"%string) with
      | None =>
          (Ok 0, {| db := snd (save_schedule_snapshot (db w) g new_events "regular");
                    log := (log w ++ [Fetch g]) ++ [SaveSnapshot g "regular" new_events] |})
      | Some (h, old_events) =>
          if bool_decide (h = _hash_schedule new_events) then (Ok 0, fetched w g)
          else
            match notify_schedule_changes g old_events new_events (fetched w g) with
            | (Ok n, w1) =>
                (Ok n, {| db := snd (save_schedule_snapshot (db w1) g new_events "regular");
                          log := log w1 ++ [SaveSnapshot g "regular" new_events] |})
            | (Raise e, w1) => (Raise e, w1)
            end
      end
  end.
Proof.
  unfold _check_group_schedule, bind, fetch_regular, read, fetched. simpl.
  destruct (api_get_group_schedule_regular w g) as [new_events|e]; [|reflexivity].
  unfold get_schedule_snapshot. simpl.
  destruct (schedule_snapshots (db w) !! (g, "regular"%string)) as [[h old_events]|];
    [|reflexivity].
  destruct (decide (h = _hash_schedule new_events)) as [->|Hne].
  - rewrite !bool_decide_eq_true_2; reflexivity.
  - rewrite !bool_decide_eq_false_2; [|exact Hne|congruence].
    unfold bind.
    destruct (notify_schedule_changes g old_events new_events _)
      as [[n|e] w1]; reflexivity.
Qed.

(** C4. With no stored snapshot of kind regular and a fetch that
    succeeded, the check stores the fetched events as the snapshot,
    returns zero, and does nothing else: its only effects are the
    fetch and the save, so no dispatch is invoked and nothing is sent
    or marked. *)
Theorem cold_start_stores_without_notifying (g : Z) (w : World) (new_events : list event) :
  api_get_group_schedule_regular w g = Ok new_events ->
  schedule_snapshots (db w) !! (g, "regular"%string) = None ->
  let run := _check_group_schedule g w in
  fst run = Ok 0
  /\ get_schedule_snapshot (db (snd run)) g "regular"
     = (Some (_hash_schedule new_events), Some new_events)
  /\ new_effects w (snd run) = [Fetch g; SaveSnapshot g "regular" new_events]
  /\ sent_notifications (db (snd run)) = sent_notifications (db w).
Proof.
  intros Hf Hs run. unfold run. rewrite check_group_schedule_run, Hf, Hs. simpl.
  split; [reflexivity|]. split; [|split; [|reflexivity]].
  - unfold get_schedule_snapshot. simpl. rewrite lookup_insert_eq. reflexivity.
  - apply new_effects_app. simpl. rewrite <- app_assoc. reflexivity.
Qed.

(** C5. When the fetched events hash to the stored snapshot hash, the
    check returns zero, leaves the whole store as it was, and its only
    effect is the fetch: no diff, no dispatch, no write. *)
Theorem unchanged_hash_touches_nothing
    (g : Z) (w : World) (new_events old_events : list event) (h : string) :
  api_get_group_schedule_regular w g = Ok new_events ->
  schedule_snapshots (db w) !! (g, "regular"%string) = Some (h, old_events) ->
  _hash_schedule new_events = h ->
  let run := _check_group_schedule g w in
  fst run = Ok 0
  /\ db (snd run) = db w
  /\ new_effects w (snd run) = [Fetch g].
Proof.
  intros Hf Hs Hh run. unfold run. rewrite check_group_schedule_run, Hf, Hs.
  rewrite bool_decide_eq_true_2 by (symmetry; exact Hh). simpl.
  split; [reflexivity|]. split; [reflexivity|].
  apply new_effects_app. reflexivity.
Qed.

Lemma notify_log g old_events new_events w :
  exists es, log (snd (notify_schedule_changes g old_events new_events w)) = log w ++ es
             /\ forall e, e ∈ es ->
                  (exists u t d o, e = Send u t d o) \/ (exists u d, e = MarkSent u d)
                  \/ (exists g o n, e = Notify g o n).
Proof.
  destruct (notify_delivery g old_events new_events w)
    as (es & Hd & _).
  eexists. split; [apply (dl_log _ _ _ _ _ Hd)|apply (dl_only _ _ _ _ _ Hd)].
Qed.

(** C6, amended. After a fetch that succeeded, the snapshot is saved
    with the fetched events when none was stored, and when the stored
    hash differs and the dispatch returns (whatever it sent); when the
    hashes are equal, or the dispatch raises, nothing is saved. *)
Theorem snapshot_saved_unless_unchanged (g : Z) (w : World) (new_events : list event) :
  api_get_group_schedule_regular w g = Ok new_events ->
  save_policy g w new_events.
Proof.
  intros Hf. unfold save_policy, snapshot_saved, snapshot_untouched.
  rewrite check_group_schedule_run, Hf.
  destruct (schedule_snapshots (db w) !! (g, "regular"%string)) as [[h old_events]|] eqn:Hs.
  2:{ simpl. split.
      - erewrite new_effects_app; [|simpl; rewrite <- app_assoc; reflexivity].
        right. left.
      - unfold get_schedule_snapshot. simpl. rewrite lookup_insert_eq. reflexivity. }
  destruct (bool_decide (h = _hash_schedule new_events)).
  { simpl. split; [reflexivity|]. intros ty data.
    erewrite new_effects_app; [|reflexivity].
    intros Hin. apply list_elem_of_singleton in Hin. discriminate. }
  destruct (notify_log g old_events new_events (fetched w g)) as (es & Hl & Honly).
  destruct (notify_delivery g old_events new_events
              (fetched w g)) as (es' & Hd & _).
  destruct (notify_schedule_changes g old_events new_events (fetched w g))
    as [[n|e] w1] eqn:Hn; simpl in *.
  - split; [reflexivity|]. split.
    + erewrite new_effects_app; [|simpl; rewrite Hl, <- !app_assoc; reflexivity].
      apply elem_of_app. right. apply elem_of_app. right. left.
    + unfold get_schedule_snapshot. simpl. rewrite lookup_insert_eq. reflexivity.
  - split; [reflexivity|]. split.
    + exact (dl_snapshots _ _ _ _ _ Hd).
    + intros ty data. erewrite new_effects_app; [|rewrite Hl, <- app_assoc; reflexivity].
      intros Hin. apply elem_of_cons in Hin as [Hin|Hin]; [discriminate|].
      destruct (Honly _ Hin) as [(? & ? & ? & ? & ?)|[(? & ? & ?)|(? & ? & ? & ?)]];
        discriminate.
Qed.

(** No step of the check forgets a fingerprint. *)
Lemma check_keeps_fingerprints (g : Z) (w : World) :
  sent_notifications (db w) ⊆ sent_notifications (db (snd (_check_group_schedule g w))).
Proof.
  rewrite check_group_schedule_run.
  destruct (api_get_group_schedule_regular w g) as [new_events|e]; [|reflexivity].
  destruct (schedule_snapshots (db w) !! (g, "regular"%string)) as [[h old_events]|];
    [|reflexivity].
  destruct (bool_decide (h = _hash_schedule new_events)); [reflexivity|].
  destruct (notify_delivery g old_events new_events (fetched w g)) as (es & Hd & _).
  assert (sent_notifications (db w)
          ⊆ sent_notifications
              (db (snd (notify_schedule_changes g old_events new_events (fetched w g)))))
    as Hsub.
  { intros p Hp. apply (dl_sent _ _ _ _ _ Hd). left. exact Hp. }
  destruct (notify_schedule_changes g old_events new_events (fetched w g))
    as [[n|e] w1]; exact Hsub.
Qed.

(* ------------------------------------------------------------------- *)
(** *** Comparing a collection with itself *)

Section json_induction.
Variable P : json -> Prop.
Hypothesis P_null : P JNull.
Hypothesis P_bool : forall b, P (JBool b).
Hypothesis P_num : forall z, P (JNum z).
Hypothesis P_str : forall s, P (JStr s).
Hypothesis P_arr : forall l, Forall P l -> P (JArr l).
Hypothesis P_obj : forall d, Forall (fun kv => P (snd kv)) d -> P (JObj d).

Fixpoint json_nested_ind (v : json) : P v :=
  match v with
  | JNull => P_null
  | JBool b => P_bool b
  | JNum z => P_num z
  | JStr s => P_str s
  | JArr l =>
      P_arr l ((fix go (l : list json) : Forall P l :=
                  match l with
                  | [] => List.Forall_nil P
                  | x :: r => List.Forall_cons P x r (json_nested_ind x) (go r)
                  end) l)
  | JObj d =>
      P_obj d ((fix go (d : list (string * json)) : Forall (fun kv => P (snd kv)) d :=
                  match d with
                  | [] => List.Forall_nil _
                  | kv :: r =>
                      List.Forall_cons _ kv r
                        (let '(_, x) as p := kv return P (snd p) in json_nested_ind x) (go r)
                  end) d)
  end.

End json_induction.

Lemma assoc_NoDup {V} (k : string) (v : V) (d : list (string * V)) :
  NoDup (List.map fst d) -> (k, v) ∈ d -> Py.assoc k d = Some v.
Proof.
  induction d as [|[k' v'] d IH]; simpl; intros Hnd Hin.
  - inversion Hin.
  - apply NoDup_cons in Hnd as [Hk' Hnd].
    apply elem_of_cons in Hin as [Heq|Hin].
    + injection Heq as -> ->. rewrite string_eqb_refl. reflexivity.
    + destruct (String.eqb k' k) eqn:Hkk.
      * apply String.eqb_eq in Hkk. subst k'. exfalso. apply Hk'.
        apply list_elem_of_In, in_map_iff. exists (k, v).
        split; [reflexivity|apply list_elem_of_In; exact Hin].
      * apply IH; assumption.
Qed.

Lemma eqb_arr (l l' : list json) : Py.eqb (JArr l) (JArr l') = Py.list_eqb l l'.
Proof.
  simpl. revert l'. induction l as [|x l IH]; intros [|y l']; reflexivity.
Qed.

Lemma eqb_obj (d d' : list (string * json)) :
  Py.eqb (JObj d) (JObj d')
  = Nat.eqb (length d) (length d')
    && forallb (fun kv => match Py.assoc (fst kv) d' with
                          | Some v' => Py.eqb (snd kv) v'
                          | None => false
                          end) d.
Proof.
  simpl. f_equal. induction d as [|[k v] d IH]; simpl; [reflexivity|].
  rewrite IH. reflexivity.
Qed.

(** A value of [json.loads] is equal to itself under [==]. *)
Lemma eqb_well_formed (v : json) : well_formed v = true -> Py.eqb v v = true.
Proof.
  induction v as [ |b|z|s|l IH|d IH] using json_nested_ind; intros Hwf.
  - reflexivity.
  - destruct b; reflexivity.
  - simpl. apply Z.eqb_refl.
  - simpl. apply string_eqb_refl.
  - rewrite eqb_arr. simpl in Hwf.
    induction l as [|x l IHl]; simpl in *; [reflexivity|].
    apply andb_true_iff in Hwf as [Hx Hl]. inversion IH; subst.
    apply andb_true_iff. split; auto.
  - rewrite eqb_obj. simpl in Hwf. apply andb_true_iff in Hwf as [Hnd Hall].
    apply bool_decide_eq_true in Hnd.
    rewrite Nat.eqb_refl. simpl. apply forallb_forall. intros [k v] Hin. simpl.
    apply list_elem_of_In in Hin.
    rewrite (assoc_NoDup k v d Hnd Hin).
    rewrite Forall_forall in IH. apply (IH (k, v) Hin).
    rewrite forallb_forall in Hall. apply (Hall (k, v)). apply list_elem_of_In. exact Hin.
Qed.

Lemma well_formed_get (e : event) (k : string) :
  well_formed_event e = true -> well_formed (Py.get e k) = true.
Proof.
  unfold well_formed_event, Py.get. simpl. intros Hwf.
  apply andb_true_iff in Hwf as [_ Hall].
  induction e as [|[k' v] e IH]; simpl in *; [reflexivity|].
  apply andb_true_iff in Hall as [Hv Hall].
  destruct (String.eqb k' k); [exact Hv|apply IH; exact Hall].
Qed.

Lemma well_formed_or (a b : json) :
  well_formed a = true -> well_formed b = true -> well_formed (Py.or_ a b) = true.
Proof. unfold Py.or_. destruct (Py.truthy a); auto. Qed.

(** The normal form of a well-formed event that has a key shows no
    change against itself. *)
Lemma detect_changes_same (e : event) (n : normalized) (k : string) :
  normalize_event e = Ok n -> create_event_key e = Ok k ->
  well_formed_event e = true -> detect_changes n n = [].
Proof.
  intros Hn Hk Hwf. unfold create_event_key in Hk. rewrite Hn in Hk. simpl in Hk.
  destruct (Py.join "|" (educators n)) as [es|] eqn:Hje; simpl in Hk; [|discriminate].
  destruct (Py.join "|" (locations n)) as [ls|] eqn:Hjl; simpl in Hk; [|discriminate].
  unfold detect_changes.
  rewrite (join_Ok_list_eqb _ _ _ Hje), (join_Ok_list_eqb _ _ _ Hjl), eqb_reflx.
  unfold normalize_event in Hn. inv_result. simpl.
  rewrite !eqb_well_formed; [reflexivity| |];
    apply well_formed_or; try reflexivity; apply well_formed_get; exact Hwf.
Qed.

Lemma omap_nil {A B} (f : A -> option B) (l : list A) :
  (forall x, x ∈ l -> f x = None) -> omap f l = [].
Proof.
  induction l as [|x l IH]; intros Hf; [reflexivity|].
  simpl. rewrite (Hf x) by left. apply IH. intros y Hy. apply Hf. right. exact Hy.
Qed.

(** X1. Comparing a collection with itself finds nothing: when every
    event has a key and is a dict as [json.loads] builds it, the three
    buckets are empty. *)
Theorem compare_schedules_same (A : list event) :
  keyed A -> Forall (fun e => well_formed_event e = true) A ->
  compare_schedules A A = Ok {| added := []; removed := []; changed := [] |}.
Proof.
  intros Hk Hwf.
  destruct (compare_schedules_keyed _ _ Hk Hk) as (m & m' & Hm & Hm' & Hc).
  rewrite Hm in Hm'. apply Ok_inj in Hm'. subst m'. rewrite Hc.
  replace (dom m ∖ dom m) with (∅ : gset string) by sets.
  rewrite set_iter_empty. simpl. f_equal. f_equal.
  apply omap_nil. intros k _. unfold change_for.
  rewrite (lookup_normalized_by_key _ _ k Hm).
  destruct (last_with_key k A) as [e|] eqn:Hl; simpl; [|reflexivity].
  destruct (last_with_key_Some _ _ _ Hl) as [Hin Hke].
  destruct (create_event_key_normalize _ _ Hke) as [n Hn].
  unfold normalized_of. rewrite Hn.
  rewrite Forall_forall in Hwf.
  rewrite (detect_changes_same e n k Hn Hke (Hwf e Hin)). reflexivity.
Qed.

(** With every key once in the collection, the event under a key is
    the last one under it. *)
Lemma last_with_key_unique (events : list event) (e : event) (k : string) :
  NoDup (bucket_keys events) -> e ∈ events -> create_event_key e = Ok k ->
  last_with_key k events = Some e.
Proof.
  unfold bucket_keys. induction events as [|e0 events IH]; intros Hnd Hin Hk.
  - inversion Hin.
  - rewrite last_with_key_cons. simpl in Hnd.
    apply elem_of_cons in Hin as [->|Hin].
    + unfold event_key at 1 in Hnd. rewrite Hk in Hnd.
      apply NoDup_cons in Hnd as [Hfresh _].
      destruct (last_with_key k events) as [e'|] eqn:Hl.
      * exfalso. apply Hfresh. apply list_elem_of_omap. exists e'.
        destruct (last_with_key_Some _ _ _ Hl) as [Hin' Hk'].
        split; [exact Hin'|]. unfold event_key. rewrite Hk'. reflexivity.
      * assert (has_key k e0 = true) as -> by (apply has_key_true; exact Hk).
        reflexivity.
    + assert (NoDup (omap event_key events)) as Hnd'.
      { destruct (event_key e0); [apply NoDup_cons in Hnd as [_ Hnd]|]; exact Hnd. }
      rewrite (IH Hnd' Hin Hk). reflexivity.
Qed.

Lemma event_keys_perm (A B : list event) : A ≡ₚ B -> event_keys A = event_keys B.
Proof.
  intros Hp. apply set_eq. intros k. rewrite !elem_of_event_keys.
  split; intros (e & Hin & Hk); exists e; split; try exact Hk.
  - rewrite <- Hp. exact Hin.
  - rewrite Hp. exact Hin.
Qed.

(** X29. A response that lists the same events in another order shows
    no difference: when every event has a key, no two events share one
    and the events are dicts as [json.loads] builds them, the three
    buckets are empty, and the dispatch returns zero at once, with no
    other effect than its own start. *)
Theorem compare_schedules_reordered (g : Z) (A B : list event) (w : World) :
  A ≡ₚ B -> keyed A -> NoDup (bucket_keys A) ->
  Forall (fun e => well_formed_event e = true) A ->
  compare_schedules A B = Ok {| added := []; removed := []; changed := [] |}
  /\ notify_schedule_changes g A B w
     = (Ok 0, {| db := db w; log := log w ++ [Notify g A B] |}).
Proof.
  intros Hp HkA Hnd Hwf.
  assert (keyed B) as HkB by (unfold keyed in *; rewrite <- Hp; exact HkA).
  assert (compare_schedules A B = Ok {| added := []; removed := []; changed := [] |})
    as Hc.
  { destruct (compare_schedules_keyed _ _ HkA HkB) as (mA & mB & HmA & HmB & Hc).
    rewrite Hc.
    pose proof (dom_normalized_by_key _ _ HmA) as HdA.
    pose proof (dom_normalized_by_key _ _ HmB) as HdB.
    rewrite (event_keys_perm _ _ Hp) in HdA. rewrite HdA, HdB.
    replace (event_keys B ∖ event_keys B) with (∅ : gset string) by sets.
    rewrite set_iter_empty. simpl. f_equal. f_equal.
    apply omap_nil. intros k _. unfold change_for.
    rewrite (lookup_normalized_by_key _ _ k HmA), (lookup_normalized_by_key _ _ k HmB).
    destruct (last_with_key k A) as [e|] eqn:Hl; simpl; [|reflexivity].
    destruct (last_with_key_Some _ _ _ Hl) as [Hin Hke].
    assert (NoDup (bucket_keys B)) as HndB.
    { unfold bucket_keys in *. rewrite <- Hp. exact Hnd. }
    assert (e ∈ B) as HinB by (rewrite <- Hp; exact Hin).
    rewrite (last_with_key_unique B e k HndB HinB Hke). simpl.
    destruct (create_event_key_normalize _ _ Hke) as [n Hn].
    unfold normalized_of. rewrite Hn.
    rewrite Forall_forall in Hwf.
    rewrite (detect_changes_same e n k Hn Hke (Hwf e Hin)). reflexivity. }
  split; [exact Hc|].
  unfold notify_schedule_changes, bind, emit, lift, ret. simpl. rewrite Hc. reflexivity.
Qed.

(* ------------------------------------------------------------------- *)
(** *** One entry per key *)

Lemma set_iter_NoDup (X : gset string) : NoDup (set_iter X).
Proof. rewrite set_iter_perm. apply NoDup_elements. Qed.

Lemma bucket_keys_first (events : list event) (keys : list string) :
  (forall k, k ∈ keys -> k ∈ event_keys events) ->
  bucket_keys (omap (fun k => first_with_key k events) keys) = keys
  /\ length (omap (fun k => first_with_key k events) keys) = length keys.
Proof.
  unfold bucket_keys. induction keys as [|k keys IH]; simpl; intros Hsub.
  - split; reflexivity.
  - destruct (first_with_key_is_Some k events) as [e He]; [apply Hsub; left|].
    destruct (first_with_key_Some _ _ _ He) as [_ Hk].
    destruct IH as [IH1 IH2]; [intros k' Hk'; apply Hsub; right; exact Hk'|].
    rewrite He. simpl. unfold event_key at 1. rewrite Hk.
    split; f_equal; assumption.
Qed.

Lemma change_keys_changed mo mn (old_events new_events : list event) (keys : list string) :
  (forall k, k ∈ keys -> k ∈ event_keys new_events) ->
  change_keys (omap (change_for mo mn old_events new_events) keys) `sublist_of` keys
  /\ length (change_keys (omap (change_for mo mn old_events new_events) keys))
     = length (omap (change_for mo mn old_events new_events) keys).
Proof.
  unfold change_keys. induction keys as [|k keys IH]; simpl; intros Hsub.
  - split; [constructor|reflexivity].
  - destruct IH as [IH1 IH2]; [intros k' Hk'; apply Hsub; right; exact Hk'|].
    destruct (change_for mo mn old_events new_events k) as [c|] eqn:Hc.
    + unfold change_for in Hc.
      destruct (mo !! k); [|discriminate]. destruct (mn !! k); [|discriminate].
      destruct (detect_changes _ _); [discriminate|]. injection Hc as <-.
      destruct (first_with_key_is_Some k new_events) as [e He]; [apply Hsub; left|].
      destruct (first_with_key_Some _ _ _ He) as [_ Hk].
      assert (event_key e = Some k) as Hek by (unfold event_key; rewrite Hk; reflexivity).
      simpl. rewrite He. simpl. rewrite Hek. simpl.
      split; [apply sublist_skip; exact IH1|f_equal; exact IH2].
    + split; [apply sublist_cons; exact IH1|exact IH2].
Qed.

(** X2. A diff names every key at most once: the keys of the added
    events, of the removed events and of the changed entries, listed
    one after the other, show no key twice; and every entry of a bucket
    has a key. *)
Theorem compare_schedules_one_entry_per_key (A B : list event) (d : diff) :
  compare_schedules A B = Ok d ->
  NoDup (bucket_keys (added d) ++ bucket_keys (removed d) ++ change_keys (changed d))
  /\ length (bucket_keys (added d)) = length (added d)
  /\ length (bucket_keys (removed d)) = length (removed d)
  /\ length (change_keys (changed d)) = length (changed d).
Proof.
  intros Hc. destruct (compare_schedules_Ok_keyed _ _ _ Hc) as [HkA HkB].
  destruct (compare_schedules_keyed _ _ HkA HkB) as (mA & mB & HmA & HmB & Hc').
  rewrite Hc in Hc'. apply Ok_inj in Hc'. subst d. simpl.
  pose proof (dom_normalized_by_key _ _ HmA) as HdA.
  pose proof (dom_normalized_by_key _ _ HmB) as HdB.
  destruct (bucket_keys_first B (set_iter (dom mB ∖ dom mA))) as [Ha La].
  { intros k Hk. apply elem_of_set_iter in Hk. rewrite <- HdB. sets. }
  destruct (bucket_keys_first A (set_iter (dom mA ∖ dom mB))) as [Hr Lr].
  { intros k Hk. apply elem_of_set_iter in Hk. rewrite <- HdA. sets. }
  destruct (change_keys_changed mA mB A B (set_iter (dom mA ∩ dom mB))) as [Hch Lch].
  { intros k Hk. apply elem_of_set_iter in Hk. rewrite <- HdB. sets. }
  split; [|split; [congruence|split; [congruence|exact Lch]]].
  rewrite Ha, Hr.
  apply NoDup_app. split; [apply set_iter_NoDup|]. split.
  - intros k Hk Hin. apply elem_of_set_iter in Hk.
    apply elem_of_app in Hin as [Hin|Hin].
    + apply elem_of_set_iter in Hin. sets.
    + apply (fun Hx => elem_of_sublist _ _ _ Hx Hch) in Hin. apply elem_of_set_iter in Hin. sets.
  - apply NoDup_app. split; [apply set_iter_NoDup|]. split.
    + intros k Hk Hin. apply elem_of_set_iter in Hk.
      apply (fun Hx => elem_of_sublist _ _ _ Hx Hch) in Hin. apply elem_of_set_iter in Hin. sets.
    + eapply sublist_NoDup; [apply set_iter_NoDup|exact Hch].
Qed.

(* ------------------------------------------------------------------- *)
(** *** The key and the time fields of a raw event *)

(** X3. The key of an event reads no time field: two events that agree
    on every field but [Start], [End] and [TimeIntervalString] get the
    same key, or fail to get one with the same exception. *)
Theorem key_ignores_time_fields (e1 e2 : event) :
  (forall k, time_field k = false -> Py.assoc k e1 = Py.assoc k e2) ->
  create_event_key e1 = create_event_key e2.
Proof.
  intros Hsame.
  assert (forall k dflt, time_field k = false ->
            Py.get_or e1 k dflt = Py.get_or e2 k dflt) as Hget_or.
  { intros k dflt Hk. unfold Py.get_or. rewrite (Hsame k Hk). reflexivity. }
  assert (forall k, time_field k = false -> Py.get e1 k = Py.get e2 k) as Hget.
  { intros k Hk. unfold Py.get. rewrite (Hsame k Hk). reflexivity. }
  unfold create_event_key, normalize_event.
  rewrite <- (Hget "EducatorIds"), <- (Hget "Educators"), <- (Hget "EventLocations"),
    <- (Hget "Locations"), <- (Hget_or "DayDate"), <- (Hget_or "Subject"),
    <- (Hget_or "Kind") by reflexivity.
  destruct (Py.iter (Py.or_ (Py.get e1 "EducatorIds")
                       (Py.or_ (Py.get e1 "Educators") (JArr [])))) as [edu|];
    simpl; [|reflexivity].
  destruct (Py.iter (Py.or_ (Py.get e1 "EventLocations")
                       (Py.or_ (Py.get e1 "Locations") (JArr [])))) as [loc|];
    simpl; [|reflexivity].
  destruct (Py.join " " (extract_names "DisplayName" "Address" loc)); reflexivity.
Qed.

(* ------------------------------------------------------------------- *)
(** *** The units of a diff *)

Lemma event_notifications_complete ty evs gname ns ev k :
  event_notifications ty evs gname = Ok ns ->
  ev ∈ evs -> is_session_event ev = Ok false -> create_event_key ev = Ok k ->
  exists t, (t, event_payload ty k) ∈ ns.
Proof.
  revert ns. induction evs as [|ev' evs IH]; simpl; intros ns Hb Hin Hs Hk.
  - inversion Hin.
  - destruct (is_session_event ev') as [[|]|] eqn:Hs'; simpl in Hb; [|  |discriminate].
    + apply elem_of_cons in Hin as [->|Hin]; [congruence|].
      apply (IH _ Hb Hin Hs Hk).
    + destruct (format_change_notification ty ev' [] gname)
        as [text|] eqn:Hf; simpl in Hb; [|discriminate].
      destruct (create_event_key ev') as [k'|] eqn:Hk'; simpl in Hb; [|discriminate].
      destruct (event_notifications ty evs gname) as [more|] eqn:Hm; simpl in Hb;
        [|discriminate].
      apply Ok_inj in Hb. subst ns. apply elem_of_cons in Hin as [->|Hin].
      * rewrite Hk in Hk'. apply Ok_inj in Hk'. subst k'. exists text. left.
      * destruct (IH _ eq_refl Hin Hs Hk) as [t Ht]. exists t. right. exact Ht.
Qed.

Lemma change_notifications_complete entries gname ns c ev k :
  change_notifications entries gname = Ok ns ->
  c ∈ entries -> new c = Some ev ->
  is_session_event ev = Ok false -> create_event_key ev = Ok k ->
  exists t, (t, change_payload k (changes c)) ∈ ns.
Proof.
  revert ns. induction entries as [|c' entries IH]; simpl; intros ns Hb Hin Hn Hs Hk.
  - inversion Hin.
  - destruct (new c') as [ev'|] eqn:Hn'; [|discriminate].
    destruct (is_session_event ev') as [[|]|] eqn:Hs'; simpl in Hb; [|  |discriminate].
    + apply elem_of_cons in Hin as [->|Hin]; [congruence|].
      apply (IH _ Hb Hin Hn Hs Hk).
    + destruct (format_change_notification "changed" ev' (changes c') gname)
        as [text|] eqn:Hf; simpl in Hb; [|discriminate].
      destruct (create_event_key ev') as [k'|] eqn:Hk'; simpl in Hb; [|discriminate].
      destruct (change_notifications entries gname) as [more|] eqn:Hm; simpl in Hb;
        [|discriminate].
      apply Ok_inj in Hb. subst ns. apply elem_of_cons in Hin as [->|Hin].
      * rewrite Hn in Hn'. injection Hn' as <-.
        rewrite Hk in Hk'. apply Ok_inj in Hk'. subst k'. exists text. left.
      * destruct (IH _ eq_refl Hin Hn Hs Hk) as [t Ht]. exists t. right. exact Ht.
Qed.

(** X4. The units built from a diff are exactly the payloads of its
    events that are not session events: every unit is the payload of an
    added event, of a removed event or of the new event of a change for
    which [is_session_event] is false, and each such event has its
    unit. *)
Theorem units_are_the_non_session_changes (d : diff) (gname : json)
    (ns : list notification) :
  build_notifications d gname = Ok ns ->
  forall data, (exists t, (t, data) ∈ ns) <-> unit_wanted d data.
Proof.
  intros Hb data. split.
  - intros [t Hin]. exact (build_notifications_elem _ _ _ _ _ Hb Hin).
  - intros (ev & Hs & k & Hk & Hev). unfold build_notifications in Hb.
    destruct (event_notifications "added" (added d) gname) as [a|] eqn:Ha;
      simpl in Hb; [|discriminate].
    destruct (event_notifications "removed" (removed d) gname) as [r|] eqn:Hr;
      simpl in Hb; [|discriminate].
    destruct (change_notifications (changed d) gname) as [c|] eqn:Hc;
      simpl in Hb; [|discriminate].
    apply Ok_inj in Hb. subst ns.
    destruct Hev as [[Hin ->]|[[Hin ->]|(ch & Hin & Hn & ->)]].
    + destruct (event_notifications_complete _ _ _ _ _ _ Ha Hin Hs Hk) as [t Ht].
      exists t. apply elem_of_app. left. exact Ht.
    + destruct (event_notifications_complete _ _ _ _ _ _ Hr Hin Hs Hk) as [t Ht].
      exists t. apply elem_of_app. right. apply elem_of_app. left. exact Ht.
    + destruct (change_notifications_complete _ _ _ _ _ _ Hc Hin Hn Hs Hk) as [t Ht].
      exists t. apply elem_of_app. right. apply elem_of_app. right. exact Ht.
Qed.

(* ------------------------------------------------------------------- *)
(** *** What a dispatch returns, whom it reaches, what it leaves alone *)

Lemma accepted_sends_app es1 es2 :
  accepted_sends (es1 ++ es2) = accepted_sends es1 + accepted_sends es2.
Proof.
  unfold accepted_sends. rewrite List.filter_app, length_app. apply Nat2Z.inj_add.
Qed.

Lemma deliver_count u n w :
  exists es w', deliver u n w = (Ok (accepted_sends es), w') /\ log w' = log w ++ es.
Proof.
  destruct n as [text data]. rewrite deliver_run.
  destruct (is_notification_sent (db w) u data).
  - exists [], w. split; [reflexivity|]. rewrite app_nil_r. reflexivity.
  - simpl. destruct (succeeded (bot_send_message w u text)) eqn:Ho.
    + apply succeeded_Delivered in Ho. rewrite Ho.
      eexists [Send u text data Delivered; MarkSent u data], _.
      split; [reflexivity|]. simpl. rewrite <- app_assoc. reflexivity.
    + exists [Send u text data (bot_send_message w u text)],
        {| db := db w; log := log w ++ [Send u text data (bot_send_message w u text)] |}.
      split; [|reflexivity]. unfold accepted_sends. simpl.
      destruct (bot_send_message w u text); try reflexivity; discriminate.
Qed.

Lemma deliver_all_count u ns w :
  exists es w', deliver_all u ns w = (Ok (accepted_sends es), w') /\ log w' = log w ++ es.
Proof.
  revert w. induction ns as [|n ns IH]; intros w; simpl.
  - exists [], w. split; [reflexivity|]. rewrite app_nil_r. reflexivity.
  - unfold bind. destruct (deliver_count u n w) as (es1 & w1 & Hr1 & Hl1). rewrite Hr1.
    destruct (IH w1) as (es2 & w2 & Hr2 & Hl2). rewrite Hr2. simpl.
    exists (es1 ++ es2), w2. rewrite accepted_sends_app. split; [reflexivity|].
    rewrite Hl2, Hl1, app_assoc. reflexivity.
Qed.

Lemma deliver_users_count (us : list user_row) ns w :
  exists es w', deliver_users us ns w = (Ok (accepted_sends es), w')
                /\ log w' = log w ++ es.
Proof.
  revert w. induction us as [|u us IH]; intros w; simpl.
  - exists [], w. split; [reflexivity|]. rewrite app_nil_r. reflexivity.
  - unfold bind. destruct (deliver_all_count (user_id u) ns w) as (es1 & w1 & Hr1 & Hl1).
    rewrite Hr1. destruct (IH w1) as (es2 & w2 & Hr2 & Hl2). rewrite Hr2. simpl.
    exists (es1 ++ es2), w2. rewrite accepted_sends_app. split; [reflexivity|].
    rewrite Hl2, Hl1, app_assoc. reflexivity.
Qed.

(** X5. The number that [notify_schedule_changes] returns is the number
    of messages the sink accepted in the run; and a run that raises has
    sent nothing. *)
Theorem notify_returns_the_accepted_sends
    (g : Z) (old_events new_events : list event) (w : World) :
  let run := notify_schedule_changes g old_events new_events w in
  match fst run with
  | Ok n => n = accepted_sends (new_effects w (snd run))
  | Raise _ => new_effects w (snd run) = [Notify g old_events new_events]
  end.
Proof.
  unfold notify_schedule_changes, bind, emit, lift, read, ret. simpl.
  set (w0 := {| db := db w; log := log w ++ [Notify g old_events new_events] |}).
  assert (new_effects w w0 = [Notify g old_events new_events]) as Hstart.
  { apply new_effects_app. reflexivity. }
  destruct (compare_schedules old_events new_events) as [d|e]; simpl; [|exact Hstart].
  destruct (is_empty_diff d); simpl; [rewrite Hstart; reflexivity|].
  destruct (get_users_by_group (db w) g true) as [|first rest]; simpl;
    [rewrite Hstart; reflexivity|].
  destruct (build_notifications d (from_option JStr JNull (group_name first)))
    as [ns|e]; simpl; [|exact Hstart].
  destruct (deliver_users_count (first :: rest) ns w0) as (es & w' & Hr & Hl).
  simpl in Hr. rewrite Hr. simpl.
  erewrite new_effects_app; [|rewrite Hl; simpl; rewrite <- app_assoc; reflexivity].
  reflexivity.
Qed.

(** X6. A dispatch sends to, and marks for, nobody but the users who
    have a row in the group with notifications switched on when the
    run begins. *)
Theorem sends_reach_subscribers_only
    (g : Z) (old_events new_events : list event) (w : World) :
  Forall (fun e => match e with
                   | Send u _ _ _ | MarkSent u _ => subscribed (db w) g u
                   | _ => True
                   end)
    (new_effects w (snd (notify_schedule_changes g old_events new_events w))).
Proof.
  destruct (notify_new_effects g old_events new_events w) as (es & -> & Hd & _).
  assert (forall u, u ∈ recipients g w -> subscribed (db w) g u) as Hsub.
  { intros u Hu. unfold recipients in Hu.
    apply list_elem_of_In, in_map_iff in Hu as (row & <- & Hrow).
    unfold get_users_by_group in Hrow. apply filter_In in Hrow as [Hin Hrow].
    apply andb_true_iff in Hrow as [Hg Hn]. simpl in Hn.
    exists row. split; [apply list_elem_of_In; exact Hin|]. split; [reflexivity|].
    split; [apply bool_decide_eq_true in Hg; exact Hg|apply Z.eqb_eq; exact Hn]. }
  apply Forall_forall. intros e He. destruct e as [| | |u t d o|u d]; try exact I.
  - apply Hsub. apply (dl_send _ _ _ _ _ Hd _ _ _ _ He).
  - destruct (dl_mark _ _ _ _ _ Hd _ _ He) as [t Ht].
    apply Hsub. apply (dl_send _ _ _ _ _ Hd _ _ _ _ Ht).
Qed.

(** X7. Whether it returns or raises, a dispatch leaves the users, the
    snapshots and the system state as they were, and forgets no
    fingerprint. *)
Theorem dispatch_only_records_fingerprints
    (g : Z) (old_events new_events : list event) (w : World) :
  only_records_fingerprints (db w)
    (db (snd (notify_schedule_changes g old_events new_events w))).
Proof.
  destruct (notify_delivery g old_events new_events w) as (es & Hd & _).
  split; [exact (dl_users _ _ _ _ _ Hd)|].
  split; [exact (dl_snapshots _ _ _ _ _ Hd)|].
  split; [exact (dl_state _ _ _ _ _ Hd)|].
  intros p Hp. apply (dl_sent _ _ _ _ _ Hd). left. exact Hp.
Qed.

(* ------------------------------------------------------------------- *)
(** *** A check after a check *)

(** X8. After a check of a group that returned, a check that fetches
    the same events does nothing: whatever happened in between to the
    rest of the store, as long as the snapshot of the group is the one
    the first check left, the second check returns zero, and its only
    effect is the fetch. *)
Theorem check_after_check_is_silent
    (g : Z) (w w2 : World) (new_events : list event) (n : Z) :
  api_get_group_schedule_regular w g = Ok new_events ->
  fst (_check_group_schedule g w) = Ok n ->
  schedule_snapshots (db w2) !! (g, "regular"%string)
  = schedule_snapshots (db (snd (_check_group_schedule g w))) !! (g, "regular"%string) ->
  api_get_group_schedule_regular w2 g = Ok new_events ->
  _check_group_schedule g w2 = (Ok 0, fetched w2 g).
Proof.
  intros Hf Hr Hsnap Hf2.
  assert (exists old_events,
            schedule_snapshots (db (snd (_check_group_schedule g w))) !! (g, "regular"%string)
            = Some (_hash_schedule new_events, old_events)) as [old_events Hstored].
  { revert Hr. rewrite check_group_schedule_run, Hf.
    destruct (schedule_snapshots (db w) !! (g, "regular"%string)) as [[h old_events]|] eqn:Hs.
    - destruct (decide (h = _hash_schedule new_events)) as [->|Hne].
      + rewrite bool_decide_eq_true_2 by reflexivity. simpl. intros _.
        exists old_events. exact Hs.
      + rewrite bool_decide_eq_false_2 by exact Hne.
        destruct (notify_schedule_changes g old_events new_events (fetched w g))
          as [[m|e] w1]; simpl; [|discriminate].
        intros _. exists new_events. apply lookup_insert_eq.
    - simpl. intros _. exists new_events. apply lookup_insert_eq. }
  rewrite check_group_schedule_run, Hf2, Hsnap, Hstored.
  rewrite bool_decide_eq_true_2 by reflexivity. reflexivity.
Qed.

(* ------------------------------------------------------------------- *)
(** *** The content hash and the order of keys *)

Lemma N_of_ascii_inj (x y : ascii) : N_of_ascii x = N_of_ascii y -> x = y.
Proof.
  intros Hxy. rewrite <- (ascii_N_embedding x), <- (ascii_N_embedding y), Hxy.
  reflexivity.
Qed.

Lemma ltb_asym (a b : string) : PyStr.ltb a b = true -> PyStr.ltb b a = false.
Proof.
  revert b. induction a as [|x a IH]; intros [|y b]; simpl; try congruence.
  destruct (N.ltb_spec (N_of_ascii x) (N_of_ascii y)) as [Hxy|Hxy];
    destruct (N.ltb_spec (N_of_ascii y) (N_of_ascii x)) as [Hyx|Hyx];
    try congruence; try lia.
  apply IH.
Qed.

Lemma ltb_trans (a b c : string) :
  PyStr.ltb a b = true -> PyStr.ltb b c = true -> PyStr.ltb a c = true.
Proof.
  revert b c. induction a as [|x a IH]; intros [|y b] [|z c]; simpl; try congruence.
  destruct (N.ltb_spec (N_of_ascii x) (N_of_ascii y)) as [Hxy|Hxy];
    destruct (N.ltb_spec (N_of_ascii y) (N_of_ascii x)) as [Hyx|Hyx];
    destruct (N.ltb_spec (N_of_ascii y) (N_of_ascii z)) as [Hyz|Hyz];
    destruct (N.ltb_spec (N_of_ascii z) (N_of_ascii y)) as [Hzy|Hzy];
    destruct (N.ltb_spec (N_of_ascii x) (N_of_ascii z)) as [Hxz|Hxz];
    destruct (N.ltb_spec (N_of_ascii z) (N_of_ascii x)) as [Hzx|Hzx];
    try congruence; try lia.
  apply IH.
Qed.

Lemma ltb_total (a b : string) : a <> b -> PyStr.ltb a b = true \/ PyStr.ltb b a = true.
Proof.
  revert b. induction a as [|x a IH]; intros [|y b]; simpl; intros Hne; auto;
    try (exfalso; apply Hne; reflexivity).
  destruct (N.ltb_spec (N_of_ascii x) (N_of_ascii y)) as [Hxy|Hxy]; [auto|].
  destruct (N.ltb_spec (N_of_ascii y) (N_of_ascii x)) as [Hyx|Hyx]; [auto|].
  assert (x = y) as -> by (apply N_of_ascii_inj; lia).
  apply IH. congruence.
Qed.

(** Putting two items with different keys into a list gives the same
    list in either order. *)
Lemma insert_item_comm (a b : string * string) (l : list (string * string)) :
  fst a <> fst b ->
  Json.insert_item a (Json.insert_item b l) = Json.insert_item b (Json.insert_item a l).
Proof.
  intros Hne.
  assert (PyStr.ltb (fst a) (fst b) = negb (PyStr.ltb (fst b) (fst a))) as Hab.
  { destruct (ltb_total _ _ Hne) as [Hlt|Hlt]; rewrite Hlt.
    - rewrite (ltb_asym _ _ Hlt). reflexivity.
    - rewrite (ltb_asym _ _ Hlt). reflexivity. }
  induction l as [|c l IH]; simpl.
  - rewrite Hab. destruct (PyStr.ltb (fst b) (fst a)); reflexivity.
  - destruct (PyStr.ltb (fst a) (fst c)) eqn:Hac;
      destruct (PyStr.ltb (fst b) (fst c)) eqn:Hbc; simpl;
      rewrite ?Hac, ?Hbc.
    + rewrite Hab. destruct (PyStr.ltb (fst b) (fst a)); reflexivity.
    + destruct (PyStr.ltb (fst b) (fst a)) eqn:Hba; [|reflexivity].
      rewrite (ltb_trans _ _ _ Hba Hac) in Hbc. discriminate.
    + destruct (PyStr.ltb (fst a) (fst b)) eqn:Hab'; [|reflexivity].
      rewrite (ltb_trans _ _ _ Hab' Hbc) in Hac. discriminate.
    + rewrite IH. reflexivity.
Qed.

(** Sorting the items of a dict gives one list, in whatever order the
    dict lists them. *)
Lemma sort_items_perm (l l' : list (string * string)) :
  l ≡ₚ l' -> NoDup (List.map fst l) -> Json.sort_items l = Json.sort_items l'.
Proof.
  unfold Json.sort_items. induction 1 as [|x l l' Hp IH|x y l|l l' l'' Hp IH Hp' IH'];
    simpl; intros Hnd.
  - reflexivity.
  - apply NoDup_cons in Hnd as [_ Hnd]. rewrite IH by exact Hnd. reflexivity.
  - apply NoDup_cons in Hnd as [Hy _]. apply insert_item_comm.
    intros Heq. apply Hy. rewrite Heq. left.
  - rewrite IH by exact Hnd. apply IH'.
    assert (List.map fst l ≡ₚ List.map fst l') as Hm by (apply Permutation_map; exact Hp).
    rewrite <- Hm. exact Hnd.
Qed.

Lemma dumps_same_up_to_key_order (v v' : json) :
  same_up_to_key_order v v' -> Json.dumps true v = Json.dumps true v'.
Proof.
  revert v v'. fix IH 3. intros v v' [v0|l l' HF|d d' r Hnd Hp HF].
  - reflexivity.
  - simpl. do 3 f_equal.
    induction HF as [|x y l l' Hxy HF IHF]; simpl; [reflexivity|].
    f_equal; [apply IH; exact Hxy|exact IHF].
  - simpl. do 4 f_equal.
    transitivity (Json.sort_items
                    (List.map (fun kv => let '(k, x) := kv in (k, Json.dumps true x)) r)).
    + apply sort_items_perm; [apply Permutation_map; exact Hp|].
      rewrite List.map_map.
      erewrite List.map_ext; [exact Hnd|]. intros [k x]. reflexivity.
    + f_equal. clear Hp Hnd.
      induction HF as [|[k x] [k' x'] l l' [Hk Hx] HF IHF]; simpl; [reflexivity|].
      simpl in Hk. subst k'. f_equal; [f_equal; apply IH; exact Hx|exact IHF].
Qed.

(** X9. The content hash of a schedule does not depend on the order in
    which the dicts of its events, at any depth, list their keys. *)
Theorem hash_ignores_key_order (events events' : list event) :
  Forall2 (fun e e' => same_up_to_key_order (JObj e) (JObj e')) events events' ->
  _hash_schedule events = _hash_schedule events'.
Proof.
  intros HF. unfold _hash_schedule. f_equal.
  apply dumps_same_up_to_key_order. apply same_items.
  induction HF as [|e e' l l' He HF IHF]; simpl; constructor; assumption.
Qed.

(* ------------------------------------------------------------------- *)
(** *** database/db.py: the users *)

Lemma find_user_map (uid : Z) (f : user_row -> user_row) (rows : list user_row) :
  (forall row, user_id (f row) = user_id row) ->
  find (fun row => user_id row =? uid) (List.map f rows)
  = option_map f (find (fun row => user_id row =? uid) rows).
Proof.
  intros Hf. induction rows as [|row rows IH]; simpl; [reflexivity|].
  rewrite Hf. destruct (user_id row =? uid); [reflexivity|exact IH].
Qed.

Lemma find_user_None (uid : Z) (rows : list user_row) :
  find (fun row => user_id row =? uid) rows = None <-> uid ∉ List.map user_id rows.
Proof.
  induction rows as [|row rows IH]; simpl.
  - split; [intros _ Hin; inversion Hin|reflexivity].
  - destruct (Z.eqb_spec (user_id row) uid) as [Heq|Hne].
    + split; [discriminate|]. intros Hn. exfalso. apply Hn. rewrite Heq. left.
    + rewrite IH. split.
      * intros Hn Hin. apply elem_of_cons in Hin as [Hin|Hin]; [congruence|contradiction].
      * intros Hn Hin. apply Hn. right. exact Hin.
Qed.

Lemma update_user_id gid gname flag row :
  user_id (update_user gid gname flag row) = user_id row.
Proof. reflexivity. Qed.

Lemma update_user_nothing row : update_user None None None row = row.
Proof. destruct row. reflexivity. Qed.

(** The rows after [create_or_update_user], whichever branch it takes. *)
Lemma create_or_update_user_users (d : Database) (uid : Z)
    (gid : option Z) (gname : option string) (flag : option bool) :
  users (create_or_update_user d uid gid gname flag)
  = match get_user d uid with
    | None =>
        users d ++
        [ {| user_id := uid; group_id := gid; group_name := gname;
             notifications_enabled :=
               match flag with None => 1 | Some b => int_of_bool b end |} ]
    | Some _ =>
        List.map (fun row => if user_id row =? uid
                             then update_user gid gname flag row else row) (users d)
    end
  /\ schedule_snapshots (create_or_update_user d uid gid gname flag) = schedule_snapshots d
  /\ sent_notifications (create_or_update_user d uid gid gname flag) = sent_notifications d
  /\ system_state (create_or_update_user d uid gid gname flag) = system_state d.
Proof.
  unfold create_or_update_user. destruct (get_user d uid) as [row|].
  - destruct gid, gname, flag; simpl; repeat split; try reflexivity.
    symmetry. erewrite List.map_ext; [apply List.map_id|].
    intros r. simpl. rewrite update_user_nothing. destruct (user_id r =? uid); reflexivity.
  - simpl. repeat split; reflexivity.
Qed.

(** X10. After [create_or_update_user] the user has one row: the row
    they had, with the columns that were given replaced, or a new row
    with notifications switched on unless told otherwise.  The rows of
    the other users, the uniqueness of the user ids and the other
    tables are as before. *)
Theorem create_or_update_user_sets_the_row (d : Database) (uid : Z)
    (gid : option Z) (gname : option string) (flag : option bool) :
  let d' := create_or_update_user d uid gid gname flag in
  get_user d' uid
  = Some match get_user d uid with
         | Some row => update_user gid gname flag row
         | None =>
             {| user_id := uid; group_id := gid; group_name := gname;
                notifications_enabled :=
                  match flag with None => 1 | Some b => int_of_bool b end |}
         end
  /\ (forall other, other <> uid -> get_user d' other = get_user d other)
  /\ (NoDup (List.map user_id (users d)) -> NoDup (List.map user_id (users d')))
  /\ schedule_snapshots d' = schedule_snapshots d
  /\ sent_notifications d' = sent_notifications d
  /\ system_state d' = system_state d.
Proof.
  intros d'. destruct (create_or_update_user_users d uid gid gname flag)
    as (Hu & Hs & Hn & Hy). fold d' in Hu, Hs, Hn, Hy.
  split; [|split; [|split; [|repeat split; assumption]]].
  - unfold get_user at 1. rewrite Hu. destruct (get_user d uid) as [row|] eqn:Hg.
    + rewrite find_user_map by (intros r; destruct (user_id r =? uid); reflexivity).
      unfold get_user in Hg. rewrite Hg. simpl.
      apply find_some in Hg as [_ Hid]. rewrite Hid. reflexivity.
    + rewrite find_app. unfold get_user in Hg. rewrite Hg. simpl.
      rewrite Z.eqb_refl. reflexivity.
  - intros other Hne. unfold get_user at 1. rewrite Hu.
    destruct (get_user d uid) as [row|] eqn:Hg.
    + rewrite find_user_map by (intros r; destruct (user_id r =? uid); reflexivity).
      unfold get_user. destruct (find _ (users d)) as [r|] eqn:Hf; [|reflexivity].
      simpl. apply find_some in Hf as [_ Hid]. apply Z.eqb_eq in Hid.
      destruct (Z.eqb_spec (user_id r) uid); [congruence|reflexivity].
    + rewrite find_app. unfold get_user.
      destruct (find _ (users d)) as [r|]; [reflexivity|]. simpl.
      destruct (Z.eqb_spec uid other); [congruence|reflexivity].
  - intros Hnd. rewrite Hu. destruct (get_user d uid) as [row|] eqn:Hg.
    + rewrite List.map_map. erewrite List.map_ext; [exact Hnd|].
      intros r. simpl. destruct (user_id r =? uid); reflexivity.
    + rewrite List.map_app. simpl. apply NoDup_app. split; [exact Hnd|]. split.
      * intros x Hx Hin. apply list_elem_of_singleton in Hin. subst x.
        apply find_user_None in Hg. contradiction.
      * apply NoDup_singleton.
Qed.

Lemma toggle_notifications_users (d : Database) (uid : Z) (row : user_row) :
  get_user d uid = Some row ->
  toggle_notifications d uid
  = (bool_decide (notifications_enabled row = 0),
     with_users d
       (List.map (fun r => if user_id r =? uid
                           then update_user None None
                                  (Some (bool_decide (notifications_enabled row = 0))) r
                           else r) (users d))).
Proof.
  intros Hg. unfold toggle_notifications, create_or_update_user. rewrite Hg. simpl.
  destruct (Z.eqb_spec (notifications_enabled row) 0) as [H0|H0]; simpl.
  - rewrite bool_decide_eq_true_2 by exact H0. reflexivity.
  - rewrite bool_decide_eq_false_2 by exact H0. reflexivity.
Qed.

(** X11. [toggle_notifications] returns [False] and changes nothing for
    a user without a row.  For a user with a row it returns [True]
    exactly when notifications were off, leaves the row with the flag
    set to that state and nothing else changed, and a second toggle
    returns the opposite state. *)
Theorem toggle_notifications_flips (d : Database) (uid : Z) :
  match get_user d uid with
  | None => toggle_notifications d uid = (false, d)
  | Some row =>
      let state := fst (toggle_notifications d uid) in
      let d' := snd (toggle_notifications d uid) in
      state = bool_decide (notifications_enabled row = 0)
      /\ get_user d' uid = Some (update_user None None (Some state) row)
      /\ fst (toggle_notifications d' uid) = negb state
  end.
Proof.
  destruct (get_user d uid) as [row|] eqn:Hg.
  - rewrite (toggle_notifications_users d uid row Hg). simpl.
    set (state := bool_decide (notifications_enabled row = 0)).
    assert (get_user
              (with_users d
                 (List.map (fun r => if user_id r =? uid
                                     then update_user None None (Some state) r else r)
                    (users d))) uid
            = Some (update_user None None (Some state) row)) as Hg'.
    { unfold get_user. simpl.
      rewrite find_user_map by (intros r; destruct (user_id r =? uid); reflexivity).
      unfold get_user in Hg. rewrite Hg. simpl.
      apply find_some in Hg as [_ Hid]. rewrite Hid. reflexivity. }
    split; [reflexivity|]. split; [exact Hg'|].
    rewrite (toggle_notifications_users _ uid _ Hg'). simpl.
    destruct state; reflexivity.
  - unfold toggle_notifications. rewrite Hg. reflexivity.
Qed.

(** Two toggles in a row give back the rows of the model, when the user
    ids are unique and the flag of the user is 0 or 1. *)
Lemma two_toggles_give_back_the_rows (d : Database) (uid : Z) (row : user_row) :
  NoDup (List.map user_id (users d)) ->
  get_user d uid = Some row ->
  notifications_enabled row = 0 \/ notifications_enabled row = 1 ->
  snd (toggle_notifications (snd (toggle_notifications d uid)) uid) = d.
Proof.
  intros Hnd Hg Hflag.
  assert (forall r, r ∈ users d -> user_id r = uid -> r = row) as Hrow.
  { unfold get_user in Hg. revert Hnd Hg. generalize (users d) as rows.
    induction rows as [|r0 rows IH]; simpl; intros Hnd Hg r Hin Hid; [inversion Hin|].
    apply NoDup_cons in Hnd as [Hr0 Hnd].
    destruct (Z.eqb_spec (user_id r0) uid) as [Heq|Hne].
    - injection Hg as ->. apply elem_of_cons in Hin as [Hin|Hin]; [exact Hin|].
      exfalso. apply Hr0. rewrite Heq, <- Hid.
      apply list_elem_of_In, in_map, list_elem_of_In. exact Hin.
    - apply elem_of_cons in Hin as [Hin|Hin]; [congruence|].
      apply (IH Hnd Hg r Hin Hid). }
  rewrite (toggle_notifications_users d uid row Hg). simpl.
  set (state := bool_decide (notifications_enabled row = 0)).
  erewrite toggle_notifications_users.
  2:{ unfold get_user. simpl.
      rewrite find_user_map by (intros r; destruct (user_id r =? uid); reflexivity).
      unfold get_user in Hg. rewrite Hg. simpl.
      apply find_some in Hg as [_ Hid]. rewrite Hid. reflexivity. }
  simpl. unfold with_users. simpl. destruct d as [us sn se st]. simpl in *. f_equal.
  rewrite List.map_map. erewrite List.map_ext_in; [apply List.map_id|].
  intros r Hin. apply list_elem_of_In in Hin.
  destruct (Z.eqb_spec (user_id r) uid) as [Hid|Hid]; simpl.
  - rewrite Hid, Z.eqb_refl. rewrite (Hrow r Hin Hid).
    unfold state. destruct row as [ru rg rn re]. simpl in *. unfold update_user. simpl.
    f_equal. destruct Hflag as [->| ->]; reflexivity.
  - destruct (Z.eqb_spec (user_id r) uid); [contradiction|reflexivity].
Qed.

(** X12. Two toggles in a row restore, for every user and in the order
    of the rows, the columns of the users table that the program reads
    (user id, group, group name and notification flag), and leave the
    other tables as they were, when the user ids are unique and the
    flag of the user is 0 or 1.  In between, the flag of the user is
    the other one.  The column [updated_at], which each of the two
    toggles sets, is outside the statement: it is not restored. *)
Theorem toggle_notifications_twice (d : Database) (uid : Z) (row : user_row) :
  NoDup (List.map user_id (users d)) ->
  get_user d uid = Some row ->
  notifications_enabled row = 0 \/ notifications_enabled row = 1 ->
  let d1 := snd (toggle_notifications d uid) in
  let d2 := snd (toggle_notifications d1 uid) in
  (exists row1, get_user d1 uid = Some row1
                /\ notifications_enabled row1 = 1 - notifications_enabled row)
  /\ user_columns d2 = user_columns d
  /\ schedule_snapshots d2 = schedule_snapshots d
  /\ sent_notifications d2 = sent_notifications d
  /\ system_state d2 = system_state d.
Proof.
  intros Hnd Hg Hflag d1 d2.
  assert (d2 = d) as -> by exact (two_toggles_give_back_the_rows d uid row Hnd Hg Hflag).
  split; [|repeat split; reflexivity].
  unfold d1. rewrite (toggle_notifications_users d uid row Hg). simpl.
  exists (update_user None None (Some (bool_decide (notifications_enabled row = 0))) row).
  split.
  - unfold get_user. simpl.
    rewrite find_user_map by (intros r; destruct (user_id r =? uid); reflexivity).
    unfold get_user in Hg. rewrite Hg. simpl.
    apply find_some in Hg as [_ Hid]. rewrite Hid. reflexivity.
  - simpl. destruct Hflag as [->| ->]; reflexivity.
Qed.

Lemma recipients_subscribed (g : Z) (w : World) (u : Z) :
  u ∈ recipients g w <-> subscribed (db w) g u.
Proof.
  unfold recipients, subscribed, get_users_by_group. split.
  - intros Hu. apply list_elem_of_In, in_map_iff in Hu as (row & <- & Hrow).
    apply filter_In in Hrow as [Hin Hrow].
    apply andb_true_iff in Hrow as [Hg Hn]. simpl in Hn.
    exists row. split; [apply list_elem_of_In; exact Hin|]. split; [reflexivity|].
    split; [apply bool_decide_eq_true in Hg; exact Hg|apply Z.eqb_eq; exact Hn].
  - intros (row & Hin & <- & Hg & Hn). apply list_elem_of_In, in_map.
    apply filter_In. split; [apply list_elem_of_In; exact Hin|].
    apply andb_true_iff. split; [apply bool_decide_eq_true; exact Hg|].
    simpl. apply Z.eqb_eq. exact Hn.
Qed.

(** X13. A user for whom [toggle_notifications] has returned [False]
    gets nothing from a dispatch that runs on the table it left: no
    message is sent to them and nothing is marked for them, whatever
    the group and the diff. *)
Theorem switched_off_user_gets_nothing
    (w : World) (uid g : Z) (old_events new_events : list event) :
  fst (toggle_notifications (db w) uid) = false ->
  let w' := {| db := snd (toggle_notifications (db w) uid); log := log w |} in
  Forall (fun e => match e with
                   | Send u _ _ _ | MarkSent u _ => u <> uid
                   | _ => True
                   end)
    (new_effects w' (snd (notify_schedule_changes g old_events new_events w'))).
Proof.
  intros Hoff w'.
  assert (forall g', ~ subscribed (db w') g' uid) as Hnot.
  { intros g' (r & Hin & Hid & _ & Hn). revert Hoff Hin. unfold w'. simpl.
    destruct (get_user (db w) uid) as [row|] eqn:Hg.
    - rewrite (toggle_notifications_users _ uid row Hg). simpl. intros Hoff Hin.
      apply list_elem_of_In, in_map_iff in Hin as (r0 & Hr & _).
      rewrite Hoff in Hr. destruct (Z.eqb_spec (user_id r0) uid) as [Heq|Hne].
      + subst r. simpl in Hn. discriminate.
      + subst r. contradiction.
    - unfold toggle_notifications. rewrite Hg. simpl. intros _ Hin.
      apply find_user_None in Hg. apply Hg. rewrite <- Hid.
      apply list_elem_of_In, in_map, list_elem_of_In. exact Hin. }
  destruct (notify_new_effects g old_events new_events w') as (es & -> & Hd & _).
  apply Forall_forall. intros e He. destruct e as [| | |u t d o|u d]; try exact I.
  - intros ->. apply (Hnot g). apply recipients_subscribed.
    apply (dl_send _ _ _ _ _ Hd _ _ _ _ He).
  - intros ->. destruct (dl_mark _ _ _ _ _ Hd _ _ He) as [t Ht].
    apply (Hnot g). apply recipients_subscribed.
    apply (dl_send _ _ _ _ _ Hd _ _ _ _ Ht).
Qed.

(* ------------------------------------------------------------------- *)
(** *** services/spbu_api.py *)

Lemma request_loop_succeeds (server : nat -> reply) (max_retries : nat) (body : json)
    (retries attempt remaining : nat) :
  (attempt + remaining = max_retries)%nat ->
  (retries < remaining)%nat ->
  (forall j, (attempt <= j < attempt + retries)%nat -> retryable (server j) = true) ->
  server (attempt + retries)%nat = Response 200 body ->
  _request_loop server max_retries attempt remaining = (Ok body, backoff attempt retries).
Proof.
  revert attempt remaining.
  induction retries as [|k IH]; intros attempt remaining Hsum Hlt Hretry Hok.
  - destruct remaining as [|rest]; [lia|]. simpl.
    rewrite Nat.add_0_r in Hok. rewrite Hok. reflexivity.
  - destruct remaining as [|rest]; [lia|]. simpl.
    assert ((attempt <? max_retries - 1)%nat = true) as Hlast
      by (apply Nat.ltb_lt; lia).
    assert (_request_loop server max_retries (Datatypes.S attempt) rest
            = (Ok body, backoff (Datatypes.S attempt) k)) as Hrest.
    { apply IH; [lia|lia| |].
      - intros j Hj. apply Hretry. lia.
      - rewrite <- Hok. f_equal. lia. }
    pose proof (Hretry attempt ltac:(lia)) as Hr.
    destruct (server attempt) as [status b| |]; simpl in Hr; [| |discriminate].
    + destruct (Z.eqb_spec status 200) as [->|_]; [discriminate|].
      rewrite Hr, Hlast, Hrest. reflexivity.
    + rewrite Hlast, Hrest. reflexivity.
Qed.

(** X14. [_request] returns the body of the first reply with status
    200, when every reply before it is a status of 500 or more or a
    client error and it comes within [max_retries] attempts; it has
    then made these attempts and no other, sleeping [2 ** attempt]
    seconds after each one that failed. *)
Theorem request_returns_first_success (server : nat -> reply) (max_retries : nat)
    (retries : nat) (body : json) :
  (retries < max_retries)%nat ->
  (forall j, (j < retries)%nat -> retryable (server j) = true) ->
  server retries = Response 200 body ->
  _request server max_retries = (Ok body, backoff 0 retries).
Proof.
  intros Hlt Hretry Hok. unfold _request.
  apply request_loop_succeeds; [reflexivity|exact Hlt| |exact Hok].
  intros j Hj. apply Hretry. lia.
Qed.

Lemma request_loop_fails_fast (server : nat -> reply) (max_retries : nat)
    (retries attempt remaining : nat) :
  (attempt + remaining = max_retries)%nat ->
  (retries < remaining)%nat ->
  (forall j, (attempt <= j < attempt + retries)%nat -> retryable (server j) = true) ->
  fatal (server (attempt + retries)%nat) = true ->
  _request_loop server max_retries attempt remaining
  = (Raise SpbuApiError, backoff attempt retries).
Proof.
  revert attempt remaining.
  induction retries as [|k IH]; intros attempt remaining Hsum Hlt Hretry Hfatal.
  - destruct remaining as [|rest]; [lia|]. simpl.
    rewrite Nat.add_0_r in Hfatal.
    destruct (server attempt) as [status b| |]; simpl in Hfatal; [|discriminate|reflexivity].
    apply andb_true_iff in Hfatal as [H200 H500].
    apply negb_true_iff in H200, H500. rewrite H200, H500. reflexivity.
  - destruct remaining as [|rest]; [lia|]. simpl.
    assert ((attempt <? max_retries - 1)%nat = true) as Hlast
      by (apply Nat.ltb_lt; lia).
    assert (_request_loop server max_retries (Datatypes.S attempt) rest
            = (Raise SpbuApiError, backoff (Datatypes.S attempt) k)) as Hrest.
    { apply IH; [lia|lia| |].
      - intros j Hj. apply Hretry. lia.
      - rewrite <- Hfatal. do 2 f_equal. lia. }
    pose proof (Hretry attempt ltac:(lia)) as Hr.
    destruct (server attempt) as [status b| |]; simpl in Hr; [| |discriminate].
    + destruct (Z.eqb_spec status 200) as [->|_]; [discriminate|].
      rewrite Hr, Hlast, Hrest. reflexivity.
    + rewrite Hlast, Hrest. reflexivity.
Qed.

(** X28. [_request] does not try again after a reply that is neither a
    success nor a server or client error: a status below 500 other than
    200, or an unexpected exception, makes it raise [SpbuApiError] at
    once, without a pause after that attempt. *)
Theorem request_fails_fast (server : nat -> reply) (max_retries : nat) (retries : nat) :
  (retries < max_retries)%nat ->
  (forall j, (j < retries)%nat -> retryable (server j) = true) ->
  fatal (server retries) = true ->
  _request server max_retries = (Raise SpbuApiError, backoff 0 retries).
Proof.
  intros Hlt Hretry Hfatal. unfold _request.
  apply request_loop_fails_fast; [reflexivity|exact Hlt| |exact Hfatal].
  intros j Hj. apply Hretry. lia.
Qed.

Lemma request_loop_bounded (server : nat -> reply) (max_retries : nat)
    (remaining attempt : nat) :
  (attempt + remaining = max_retries)%nat ->
  let '(r, es) := _request_loop server max_retries attempt remaining in
  (attempts es <= remaining)%nat
  /\ slept es + 2 ^ Z.of_nat attempt
     <= Z.max (2 ^ Z.of_nat attempt) (2 ^ Z.of_nat (max_retries - 1))
  /\ match r with
     | Ok body => exists k, (attempt <= k < max_retries)%nat /\ server k = Response 200 body
     | Raise e => e = SpbuApiError
     end.
Proof.
  revert attempt. induction remaining as [|rest IH]; intros attempt Hsum; simpl.
  - split; [reflexivity|]. split; [unfold slept; simpl; lia|reflexivity].
  - assert (forall r es,
              _request_loop server max_retries (Datatypes.S attempt) rest = (r, es) ->
              (attempt < max_retries - 1)%nat ->
              (attempts (Get attempt :: Sleep (2 ^ Z.of_nat attempt) :: es) <= Datatypes.S rest)%nat
              /\ slept (Get attempt :: Sleep (2 ^ Z.of_nat attempt) :: es)
                 + 2 ^ Z.of_nat attempt
                 <= Z.max (2 ^ Z.of_nat attempt) (2 ^ Z.of_nat (max_retries - 1))
              /\ match r with
                 | Ok body => exists k, (attempt <= k < max_retries)%nat
                                        /\ server k = Response 200 body
                 | Raise e => e = SpbuApiError
                 end) as Hretry.
    { intros r es Hrun Hlast.
      specialize (IH (Datatypes.S attempt) ltac:(lia)). rewrite Hrun in IH.
      destruct IH as (Ha & Hs & Hr). unfold attempts, slept in *. simpl.
      split; [lia|]. split.
      - rewrite Nat2Z.inj_succ, Z.pow_succ_r in Hs by lia.
        assert (2 ^ Z.of_nat (Datatypes.S attempt) <= 2 ^ Z.of_nat (max_retries - 1)) as Hpow
          by (apply Z.pow_le_mono_r; lia).
        rewrite Nat2Z.inj_succ, Z.pow_succ_r in Hpow by lia.
        lia.
      - destruct r as [body|e]; [|exact Hr].
        destruct Hr as (k & Hk & Hok). exists k. split; [lia|exact Hok]. }
    assert (forall e es, e = SpbuApiError -> es = [] ->
              (attempts (Get attempt :: es) <= Datatypes.S rest)%nat
              /\ slept (Get attempt :: es) + 2 ^ Z.of_nat attempt
                 <= Z.max (2 ^ Z.of_nat attempt) (2 ^ Z.of_nat (max_retries - 1))
              /\ e = SpbuApiError) as Hfail.
    { intros e es -> ->. unfold attempts, slept. simpl.
      split; [lia|]. split; [lia|reflexivity]. }
    destruct (server attempt) as [status body| |] eqn:Hreply.
    + destruct (Z.eqb_spec status 200) as [->|Hne].
      * unfold attempts, slept. simpl. split; [lia|]. split; [lia|].
        exists attempt. split; [lia|exact Hreply].
      * destruct ((status >=? 500) && (attempt <? max_retries - 1)%nat) eqn:Hcond.
        -- apply andb_true_iff in Hcond as [_ Hlast].
           destruct (_request_loop server max_retries (Datatypes.S attempt) rest)
             as [r es] eqn:Hrun.
           apply (Hretry r es eq_refl). apply Nat.ltb_lt. exact Hlast.
        -- apply (Hfail SpbuApiError []); reflexivity.
    + destruct (attempt <? max_retries - 1)%nat eqn:Hlast.
      * destruct (_request_loop server max_retries (Datatypes.S attempt) rest)
          as [r es] eqn:Hrun.
        apply (Hretry r es eq_refl). apply Nat.ltb_lt. exact Hlast.
      * apply Nat.ltb_ge in Hlast. assert (rest = O) as -> by lia. simpl.
        apply (Hfail SpbuApiError []); reflexivity.
    + apply (Hfail SpbuApiError []); reflexivity.
Qed.

(** X15. Whatever the server answers, [_request] makes at most
    [max_retries] attempts and sleeps less than [2 ** (max_retries - 1)]
    seconds in all; it raises nothing but [SpbuApiError]; and what it
    returns is the body of a reply with status 200. *)
Theorem request_is_bounded (server : nat -> reply) (max_retries : nat) :
  let run := _request server max_retries in
  (attempts (snd run) <= max_retries)%nat
  /\ slept (snd run) < Z.max 1 (2 ^ Z.of_nat (max_retries - 1))
  /\ match fst run with
     | Ok body => exists k, (k < max_retries)%nat /\ server k = Response 200 body
     | Raise e => e = SpbuApiError
     end.
Proof.
  unfold _request.
  pose proof (request_loop_bounded server max_retries max_retries 0%nat eq_refl) as Hb.
  destruct (_request_loop server max_retries 0 max_retries) as [r es]. simpl.
  destruct Hb as (Ha & Hs & Hr). split; [exact Ha|]. split.
  - simpl in Hs. lia.
  - destruct r as [body|e]; [|exact Hr].
    destruct Hr as (k & Hk & Hok). exists k. split; [lia|exact Hok].
Qed.

Lemma mapR_set_item (day_date : json) (evs : list pydict) :
  mapR (fun event => set_item event "DayDate" day_date) (List.map JObj evs)
  = Ok (List.map (fun ev => JObj (Py.set "DayDate" day_date ev)) evs).
Proof.
  induction evs as [|ev evs IH]; simpl; [reflexivity|]. rewrite IH. reflexivity.
Qed.

Lemma assoc_set (k k' : string) (v : json) (d : pydict) :
  Py.assoc k' (Py.set k v d) = if String.eqb k k' then Some v else Py.assoc k' d.
Proof.
  induction d as [|[k0 v0] d IH]; simpl.
  - reflexivity.
  - destruct (String.eqb k0 k) eqn:H0k; simpl.
    + apply String.eqb_eq in H0k. subst k0.
      destruct (String.eqb k k'); reflexivity.
    + rewrite IH. destruct (String.eqb k0 k') eqn:H0k'; [|reflexivity].
      apply String.eqb_eq in H0k'. subst k0. rewrite String.eqb_sym, H0k. reflexivity.
Qed.

(** X16. [get_group_events] on a response grouped by days returns the
    events of the days in order, each with the date of its day as
    [DayDate] in place of any it had, and its other fields as they
    were. *)
Theorem get_group_events_stamps_the_day
    (d : pydict) (daily : list (pydict * list pydict)) :
  Py.get_or d "Days" (JArr []) = JArr (List.map (fun day => JObj (fst day)) daily) ->
  Forall (fun day => Py.get_or (fst day) "DayStudyEvents" (JArr [])
                     = JArr (List.map JObj (snd day))) daily ->
  get_group_events (JObj d)
  = Ok (flat_map (fun day => List.map (fun ev => JObj (stamped (fst day) ev)) (snd day))
          daily)
  /\ forall day ev k,
       Py.assoc k (stamped day ev)
       = if String.eqb "DayDate" k
         then Some (Py.get_or day "Day" (JStr EmptyString))
         else Py.assoc k ev.
Proof.
  intros Hdays Hevents. split; [|intros day ev k; apply assoc_set].
  unfold get_group_events. rewrite Hdays. simpl. clear Hdays.
  induction daily as [|[day evs] daily IH]; simpl; [reflexivity|].
  inversion Hevents as [|? ? Hday Hrest]; subst. simpl in Hday.
  rewrite Hday. simpl. rewrite mapR_set_item. simpl.
  rewrite (IH Hrest). reflexivity.
Qed.

Lemma session_events_cons (ev : event) (events : list json) :
  session_events (JObj ev :: events)
  = (session <- is_session_event ev ;;
     more <- session_events events ;;
     Ok (if session then JObj ev :: more else more))%result.
Proof.
  unfold is_session_event. cbn [session_events dict_get rbind].
  change (Py.get_or ev "Kind" JNull) with (Py.get ev "Kind").
  change (Py.get_or ev "Subject" JNull) with (Py.get ev "Subject").
  destruct (Py.lower (Py.or_ (Py.get ev "Kind") (JStr EmptyString))); [|reflexivity].
  destruct (Py.lower (Py.or_ (Py.get ev "Subject") (JStr EmptyString))); reflexivity.
Qed.

(** X17. The filter of [get_group_session_schedule] and
    [is_session_event] agree: the filter keeps exactly the events, in
    order, for which [is_session_event] is true, and it raises exactly
    when [is_session_event] raises on some event. *)
Theorem session_filter_agrees (events : list event) :
  match session_events (List.map JObj events) with
  | Ok kept =>
      kept = List.map JObj (List.filter is_session events)
      /\ Forall (fun ev => is_ok (is_session_event ev) = true) events
  | Raise e => exists ev, ev ∈ events /\ is_session_event ev = Raise e
  end.
Proof.
  induction events as [|ev events IH].
  - split; [reflexivity|constructor].
  - cbn [List.map List.filter]. rewrite session_events_cons. unfold is_session at 1.
    destruct (is_session_event ev) as [session|e] eqn:Hs; cbn [rbind].
    2:{ exists ev. split; [left|exact Hs]. }
    destruct (session_events (List.map JObj events)) as [kept|e]; cbn [rbind].
    + destruct IH as [-> Hall]. split.
      * destruct session; reflexivity.
      * constructor; [rewrite Hs; reflexivity|exact Hall].
    + destruct IH as (ev' & Hin & Hr). exists ev'. split; [right; exact Hin|exact Hr].
Qed.

(* ------------------------------------------------------------------- *)
(** *** The check of a group, seen from the cycle *)

Lemma fetches_app es1 es2 : fetches (es1 ++ es2) = fetches es1 ++ fetches es2.
Proof. unfold fetches. apply omap_app. Qed.

Lemma fetches_dispatch (es : list effect) :
  (forall e, e ∈ es ->
     (exists u t d o, e = Send u t d o) \/ (exists u d, e = MarkSent u d)
     \/ (exists g o n, e = Notify g o n)) ->
  fetches es = [].
Proof.
  intros Honly. apply omap_nil. intros e He.
  destruct (Honly e He) as [(? & ? & ? & ? & ->)|[(? & ? & ->)|(? & ? & ? & ->)]];
    reflexivity.
Qed.

(** A check fetches its group, once, and no other. *)
Lemma check_group_effects (g : Z) (w : World) :
  exists es, log (snd (_check_group_schedule g w)) = log w ++ es /\ fetches es = [g].
Proof.
  rewrite check_group_schedule_run.
  destruct (api_get_group_schedule_regular w g) as [new_events|e].
  2:{ exists [Fetch g]. split; reflexivity. }
  destruct (schedule_snapshots (db w) !! (g, "regular"%string)) as [[h old_events]|].
  2:{ exists [Fetch g; SaveSnapshot g "regular" new_events]. simpl.
      split; [rewrite <- app_assoc; reflexivity|reflexivity]. }
  destruct (bool_decide (h = _hash_schedule new_events)).
  { exists [Fetch g]. split; reflexivity. }
  destruct (notify_log g old_events new_events (fetched w g)) as (es & Hl & Honly).
  pose proof (fetches_dispatch es Honly) as Hnone.
  destruct (notify_schedule_changes g old_events new_events (fetched w g))
    as [[n|e] w1]; simpl in *.
  - exists (Fetch g :: es ++ [SaveSnapshot g "regular" new_events]). split.
    + rewrite Hl. rewrite <- !app_assoc. reflexivity.
    + change (Fetch g :: es ++ [SaveSnapshot g "regular" new_events])
        with ([Fetch g] ++ es ++ [SaveSnapshot g "regular" new_events]).
      rewrite !fetches_app, Hnone. reflexivity.
  - exists (Fetch g :: es). split.
    + rewrite Hl. rewrite <- app_assoc. reflexivity.
    + change (Fetch g :: es) with ([Fetch g] ++ es). rewrite fetches_app, Hnone.
      reflexivity.
Qed.

Lemma checks_only_refl (groups : list Z) (d : Database) : checks_only groups d d.
Proof.
  split; [reflexivity|]. split; [reflexivity|]. split; [reflexivity|].
  intros g ty _. reflexivity.
Qed.

Lemma checks_only_trans (gs1 gs2 : list Z) (d d1 d2 : Database) :
  checks_only gs1 d d1 -> checks_only gs2 d1 d2 -> checks_only (gs1 ++ gs2) d d2.
Proof.
  intros (U1 & Y1 & F1 & S1) (U2 & Y2 & F2 & S2).
  split; [congruence|]. split; [congruence|]. split.
  - intros p Hp. apply F2, F1, Hp.
  - intros g ty Hg. rewrite S2, S1; [reflexivity| |].
    + destruct Hg as [Hg|Hg]; [left|right; exact Hg].
      intros Hin. apply Hg. apply elem_of_app. left. exact Hin.
    + destruct Hg as [Hg|Hg]; [left|right; exact Hg].
      intros Hin. apply Hg. apply elem_of_app. right. exact Hin.
Qed.

(** A check writes no part of the store but the fingerprints of its
    dispatch and the regular snapshot of its group. *)
Lemma check_group_frame (g : Z) (w : World) :
  checks_only [g] (db w) (db (snd (_check_group_schedule g w))).
Proof.
  assert (forall d new_events,
            checks_only [g] d (snd (save_schedule_snapshot d g new_events "regular")))
    as Hsave.
  { intros d new_events.
    split; [reflexivity|]. split; [reflexivity|]. split; [reflexivity|].
    intros g' ty Hg. simpl.
    apply lookup_insert_ne. intros Heq. injection Heq as <- <-.
    destruct Hg as [Hg|Hg]; [apply Hg; left|apply Hg; reflexivity]. }
  rewrite check_group_schedule_run.
  destruct (api_get_group_schedule_regular w g) as [new_events|e];
    [|apply checks_only_refl].
  destruct (schedule_snapshots (db w) !! (g, "regular"%string)) as [[h old_events]|];
    [|apply Hsave].
  destruct (bool_decide (h = _hash_schedule new_events)); [apply checks_only_refl|].
  destruct (notify_delivery g old_events new_events (fetched w g)) as (es & Hd & _).
  assert (checks_only []
            (db w) (db (snd (notify_schedule_changes g old_events new_events (fetched w g)))))
    as Hnotify.
  { split; [exact (dl_users _ _ _ _ _ Hd)|]. split; [exact (dl_state _ _ _ _ _ Hd)|].
    split; [intros p Hp; apply (dl_sent _ _ _ _ _ Hd); left; exact Hp|].
    intros g' ty _. rewrite (dl_snapshots _ _ _ _ _ Hd). reflexivity. }
  destruct (notify_schedule_changes g old_events new_events (fetched w g))
    as [[n|e] w1]; simpl in *.
  - apply (checks_only_trans [] [g] _ _ _ Hnotify). apply Hsave.
  - apply (checks_only_trans [] [g] _ _ _ Hnotify). apply checks_only_refl.
Qed.

(* ------------------------------------------------------------------- *)
(** *** services/scheduler_service.py: the cycle *)

Section Cycle.

(** The rest of the scheduler.  The clock is read through [now()]:
    [clock n] is the wall-clock time of the reading number [n], in
    microseconds; [strftime] and [strptime] are those of the format
    [%Y-%m-%d %H:%M:%S] ([None] for a [ValueError]); [exn_text] is
    [str(e)].  [api_get_group_events] is [get_group_events] for a group
    from today over a number of days, request included. *)
Context `{Sqlite}.
Variable clock : nat -> Z.
Variable strftime : Z -> string.
Variable strptime : string -> option Z.
Variable exn_text : exn -> string.
Variable api_get_group_events : Process -> Z -> Z -> result (list json).

Definition now : S Z :=
  fun s =>
    (Ok (clock (clock_reads s)),
     {| world := world s;
        session_requests := session_requests s;
        clock_reads := Datatypes.S (clock_reads s) |}).

(** [now().strftime("%Y-%m-%d %H:%M:%S")] *)
Definition now_text : S string := (t <- now ;; sret (strftime t))%S.

Definition set_state (key value : string) : S unit :=
  run (write (fun d => set_system_state d key value)).

(** [get_group_session_schedule]: the events of the next 90 days that
    the filter keeps. *)
Definition get_group_session_schedule (g : Z) : S (list json) :=
  fun s =>
    ((events <- api_get_group_events s g SESSION_SCHEDULE_DAYS ;;
      session_events events)%result,
     {| world := world s;
        session_requests := session_requests s ++ [g];
        clock_reads := clock_reads s |}).

(** [_check_session_data]: only [SpbuApiError] is caught. *)
Definition _check_session_data (group_ids : list Z) : S bool :=
  match group_ids with
  | [] => sret false
  | first :: _ =>
      fun s =>
        match get_group_session_schedule first s with
        | (Ok _, s') => (Ok true, s')
        | (Raise SpbuApiError, s') => (Ok false, s')
        | (Raise e, s') => (Raise e, s')
        end
  end.

Definition SESSION_CHECK_INTERVAL_HOURS : Z := 6.

(** [timedelta(hours=h)], in microseconds. *)
Definition timedelta_hours (h : Z) : Z := h * 3600 * 1000000.

(** The test at the head of [_maybe_check_session]: the last session
    check is on record, its time can be read, and it is less than six
    hours old. *)
Definition session_check_is_recent (last_check_str : option string) : S bool :=
  match last_check_str with
  | Some text =>
      if negb (String.eqb text EmptyString) then
        match strptime text with
        | Some last_check =>
            (t <- now ;;
             sret (t - last_check <? timedelta_hours SESSION_CHECK_INTERVAL_HOURS))%S
        | None => sret false
        end
      else sret false
  | None => sret false
  end.

Definition _maybe_check_session (group_ids : list Z) : S unit :=
  (last_check_str <- run (read (fun d => get_system_state d "last_session_check")) ;;
   recent <- session_check_is_recent last_check_str ;;
   if recent then sret tt
   else
     ok <- _check_session_data group_ids ;;
     if ok then
       text <- now_text ;;
       set_state "last_session_check" text
     else sret tt)%S.

(** The loop of [check_schedule_changes] over the groups: a check that
    raises is put on the list of errors, and the loop goes on. *)
Fixpoint check_groups (group_ids : list Z) (total_notifications : Z)
    (errors : list string) : S (Z * list string) :=
  match group_ids with
  | [] => sret (total_notifications, errors)
  | group_id :: rest =>
      fun s =>
        match run (_check_group_schedule group_id) s with
        | (Ok notifications, s') =>
            check_groups rest (total_notifications + notifications) errors s'
        | (Raise e, s') =>
            check_groups rest total_notifications
              (errors ++ ["Group " +:+ PyStr.of_Z group_id +:+ ": " +:+ exn_text e]) s'
        end
  end.

Definition check_schedule_changes : S unit :=
  try_except
    (group_ids <- run (read get_all_unique_groups) ;;
     match group_ids with
     | [] => sret tt
     | _ =>
         outcome <- check_groups group_ids 0 [] ;;
         let errors := snd outcome in
         text <- now_text ;;
         set_state "last_schedule_check" text ;;
         _maybe_check_session group_ids ;;
         match errors with
         | [] => sret tt
         | _ =>
             text <- now_text ;;
             set_state "last_error" (text +:+ ": " +:+ PyStr.join "; " (take 3 errors))
         end
     end)%S
    (fun e =>
       (text <- now_text ;;
        set_state "last_error" (text +:+ ": " +:+ exn_text e))%S).

(* ------------------------------------------------------------------- *)
(** *** The vocabulary of the cycle *)

(** The process after a reading of the clock, after a write to the
    system state, and after a request for the session schedule of a
    group. *)
Definition tick (s : Process) : Process :=
  {| world := world s;
     session_requests := session_requests s;
     clock_reads := Datatypes.S (clock_reads s) |}.

Definition with_state (key value : string) (s : Process) : Process :=
  {| world := {| db := set_system_state (db (world s)) key value; log := log (world s) |};
     session_requests := session_requests s;
     clock_reads := clock_reads s |}.

Definition requested (g : Z) (s : Process) : Process :=
  {| world := world s;
     session_requests := session_requests s ++ [g];
     clock_reads := clock_reads s |}.

(** The checks of the groups, one after the other: what each returned
    or raised, and the world they leave. *)
Fixpoint outcomes (groups : list Z) (w : World) : list (Z * result Z) * World :=
  match groups with
  | [] => ([], w)
  | g :: rest =>
      let '(r, w1) := _check_group_schedule g w in
      let '(os, w2) := outcomes rest w1 in
      ((g, r) :: os, w2)
  end.

(** The message kept for a group whose check raised, and the messages
    of some outcomes. *)
Definition group_error (g : Z) (e : exn) : string :=
  "Group " +:+ PyStr.of_Z g +:+ ": " +:+ exn_text e.

Definition failures (os : list (Z * result Z)) : list string :=
  omap (fun o => match snd o with
                 | Raise e => Some (group_error (fst o) e)
                 | Ok _ => None
                 end) os.

(** The text of the clock reading number [n]. *)
Definition time_text (n : nat) : string := strftime (clock n).

(** The keys of the system state that the cycle writes. *)
Definition cycle_keys : list string :=
  ["last_schedule_check"; "last_session_check"; "last_error"].

(* ------------------------------------------------------------------- *)
(** *** The steps of the cycle *)

Lemma get_all_unique_groups_NoDup (d : Database) : NoDup (get_all_unique_groups d).
Proof.
  unfold get_all_unique_groups. rewrite select_distinct_perm. apply NoDup_remove_dups.
Qed.

Lemma elem_of_get_all_unique_groups (d : Database) (g : Z) :
  g ∈ get_all_unique_groups d <-> exists row, row ∈ users d /\ group_id row = Some g.
Proof.
  unfold get_all_unique_groups. rewrite select_distinct_perm, elem_of_remove_dups.
  apply list_elem_of_omap.
Qed.

Lemma run_read {A} (f : Database -> A) (s : Process) :
  run (read f) s
  = (Ok (f (db (world s))),
     {| world := world s;
        session_requests := session_requests s;
        clock_reads := clock_reads s |}).
Proof. reflexivity. Qed.

Lemma process_eta (s : Process) :
  {| world := world s;
     session_requests := session_requests s;
     clock_reads := clock_reads s |} = s.
Proof. destruct s. reflexivity. Qed.

Lemma now_text_run (s : Process) : now_text s = (Ok (time_text (clock_reads s)), tick s).
Proof. reflexivity. Qed.

Lemma set_state_run (key value : string) (s : Process) :
  set_state key value s = (Ok tt, with_state key value s).
Proof. reflexivity. Qed.

(** The loop over the groups never raises; it runs the checks in order
    and keeps the message of each one that raised. *)
Lemma check_groups_run (groups : list Z) (total : Z) (errors : list string) (s : Process) :
  exists total',
    check_groups groups total errors s
    = (Ok (total', errors ++ failures (fst (outcomes groups (world s)))),
       {| world := snd (outcomes groups (world s));
          session_requests := session_requests s;
          clock_reads := clock_reads s |}).
Proof.
  revert total errors s. induction groups as [|g rest IH]; intros total errors s.
  - exists total. simpl. unfold sret, failures. simpl. rewrite app_nil_r, process_eta.
    reflexivity.
  - cbn [check_groups outcomes]. unfold run at 1.
    destruct (_check_group_schedule g (world s)) as [[n|e] w1].
    + destruct (IH (total + n) errors
                  {| world := w1; session_requests := session_requests s;
                     clock_reads := clock_reads s |}) as [total' Hrun].
      rewrite Hrun. simpl. destruct (outcomes rest w1) as [os w2]. simpl.
      exists total'. reflexivity.
    + destruct (IH total (errors ++ [group_error g e])
                  {| world := w1; session_requests := session_requests s;
                     clock_reads := clock_reads s |}) as [total' Hrun].
      unfold group_error in Hrun at 1. rewrite Hrun. simpl.
      destruct (outcomes rest w1) as [os w2]. simpl.
      exists total'. unfold failures. simpl. rewrite <- app_assoc. reflexivity.
Qed.

(** The checks of a cycle fetch every group once, in order, and keep
    within their part of the store. *)
Lemma outcomes_effects (groups : list Z) (w : World) :
  List.map fst (fst (outcomes groups w)) = groups
  /\ (exists es, log (snd (outcomes groups w)) = log w ++ es /\ fetches es = groups)
  /\ checks_only groups (db w) (db (snd (outcomes groups w))).
Proof.
  revert w. induction groups as [|g rest IH]; intros w.
  - simpl. split; [reflexivity|]. split; [|apply checks_only_refl].
    exists []. split; [rewrite app_nil_r; reflexivity|reflexivity].
  - cbn [outcomes].
    destruct (check_group_effects g w) as (es1 & Hl1 & Hf1).
    pose proof (check_group_frame g w) as Hframe.
    destruct (_check_group_schedule g w) as [r w1]. simpl in Hl1, Hframe.
    destruct (IH w1) as (Hgroups & (es2 & Hl2 & Hf2) & Hrest).
    destruct (outcomes rest w1) as [os w2]. simpl in *.
    split; [f_equal; exact Hgroups|]. split.
    + exists (es1 ++ es2). split; [rewrite Hl2, Hl1, app_assoc; reflexivity|].
      rewrite fetches_app, Hf1, Hf2. reflexivity.
    + apply (checks_only_trans [g] rest _ _ _ Hframe Hrest).
Qed.

(** Bookkeeping: steps that read the clock, ask for a session schedule
    or write the keys [keys] of the system state, and leave the log and
    the rest of the store alone. *)
Definition bookkeeping (keys : list string) (s s' : Process) : Prop :=
  log (world s') = log (world s)
  /\ users (db (world s')) = users (db (world s))
  /\ schedule_snapshots (db (world s')) = schedule_snapshots (db (world s))
  /\ sent_notifications (db (world s')) = sent_notifications (db (world s))
  /\ (forall key, key ∉ keys ->
        system_state (db (world s')) !! key = system_state (db (world s)) !! key)
  /\ (clock_reads s <= clock_reads s')%nat.

Lemma bookkeeping_refl (keys : list string) (s : Process) : bookkeeping keys s s.
Proof. repeat split; reflexivity || lia. Qed.

Lemma bookkeeping_trans (keys1 keys2 : list string) (s s1 s2 : Process) :
  bookkeeping keys1 s s1 -> bookkeeping keys2 s1 s2 ->
  bookkeeping (keys1 ++ keys2) s s2.
Proof.
  intros (L1 & U1 & N1 & F1 & Y1 & C1) (L2 & U2 & N2 & F2 & Y2 & C2).
  repeat split; try congruence; try lia.
  intros key Hkey. rewrite Y2, Y1; [reflexivity| |].
  - intros Hin. apply Hkey. apply elem_of_app. left. exact Hin.
  - intros Hin. apply Hkey. apply elem_of_app. right. exact Hin.
Qed.

Lemma bookkeeping_tick (s : Process) : bookkeeping [] s (tick s).
Proof. repeat split; simpl; reflexivity || lia. Qed.

Lemma bookkeeping_requested (g : Z) (s : Process) : bookkeeping [] s (requested g s).
Proof. repeat split; simpl; reflexivity || lia. Qed.

Lemma bookkeeping_with_state (key value : string) (s : Process) :
  bookkeeping [key] s (with_state key value s).
Proof.
  repeat split; simpl; try reflexivity; try lia.
  intros key' Hkey'. apply lookup_insert_ne. intros ->. apply Hkey'. left.
Qed.

(* ------------------------------------------------------------------- *)
(** *** The session check *)

Lemma session_check_is_recent_run (o : option string) (s : Process) :
  exists b s1, session_check_is_recent o s = (Ok b, s1) /\ (s1 = s \/ s1 = tick s).
Proof.
  unfold session_check_is_recent. destruct o as [text|]; [|exists false, s; auto].
  destruct (negb (String.eqb text EmptyString)); [|exists false, s; auto].
  destruct (strptime text) as [last_check|]; [|exists false, s; auto].
  eexists _, (tick s). split; [reflexivity|right; reflexivity].
Qed.

Lemma check_session_data_run (group_ids : list Z) (s : Process) :
  _check_session_data group_ids s
  = match group_ids with
    | [] => (Ok false, s)
    | first :: _ =>
        match (events <- api_get_group_events s first SESSION_SCHEDULE_DAYS ;;
               session_events events)%result with
        | Ok _ => (Ok true, requested first s)
        | Raise SpbuApiError => (Ok false, requested first s)
        | Raise e => (Raise e, requested first s)
        end
    end.
Proof.
  destruct group_ids as [|first rest]; [reflexivity|].
  unfold _check_session_data, get_group_session_schedule.
  destruct (events <- api_get_group_events s first SESSION_SCHEDULE_DAYS ;;
            session_events events)%result as [events|[]]; reflexivity.
Qed.

(** X18. The session check is skipped while the last one is less than
    six hours old: when [last_session_check] holds a text that
    [strptime] reads and the clock is less than six hours past it,
    [_maybe_check_session] asks for no session schedule and writes
    nothing; it has read the clock once. *)
Theorem session_check_is_throttled
    (group_ids : list Z) (s : Process) (text : string) (last_check : Z) :
  get_system_state (db (world s)) "last_session_check" = Some text ->
  text <> EmptyString ->
  strptime text = Some last_check ->
  clock (clock_reads s) - last_check < timedelta_hours SESSION_CHECK_INTERVAL_HOURS ->
  _maybe_check_session group_ids s = (Ok tt, tick s).
Proof.
  intros Hget Htext Hparse Hrecent.
  unfold _maybe_check_session, sbind. rewrite run_read, Hget.
  unfold session_check_is_recent.
  apply String.eqb_neq in Htext. rewrite Htext. cbn [negb]. rewrite Hparse.
  unfold sbind, now, sret. cbn [clock_reads world session_requests].
  apply Z.ltb_lt in Hrecent. rewrite Hrecent. reflexivity.
Qed.

(** X19. A session check that is due asks for the session schedule of
    the first group and of no other, sends nothing, and records its
    time exactly when the request and the filter returned; an
    [SpbuApiError] is swallowed, any other exception is raised. *)
Theorem session_check_when_due (first : Z) (rest : list Z) (s s1 : Process) :
  session_check_is_recent (get_system_state (db (world s)) "last_session_check") s
  = (Ok false, s1) ->
  let run := _maybe_check_session (first :: rest) s in
  session_requests (snd run) = session_requests s ++ [first]
  /\ log (world (snd run)) = log (world s)
  /\ match (events <- api_get_group_events s1 first SESSION_SCHEDULE_DAYS ;;
            session_events events)%result with
     | Ok _ =>
         fst run = Ok tt
         /\ db (world (snd run))
            = set_system_state (db (world s)) "last_session_check"
                (time_text (clock_reads s1))
     | Raise SpbuApiError => fst run = Ok tt /\ db (world (snd run)) = db (world s)
     | Raise e => fst run = Raise e /\ db (world (snd run)) = db (world s)
     end.
Proof.
  destruct s as [w reqs reads]. intros Hdue run. unfold run.
  unfold _maybe_check_session, sbind. rewrite run_read. simpl in Hdue |- *.
  rewrite Hdue.
  destruct (session_check_is_recent_run
              (get_system_state (db w) "last_session_check")
              {| world := w; session_requests := reqs; clock_reads := reads |})
    as (b & s1' & Hrun & Hs1).
  rewrite Hdue in Hrun. injection Hrun as <- <-.
  assert (world s1 = w /\ session_requests s1 = reqs) as [Hw Hr]
    by (destruct Hs1 as [->| ->]; split; reflexivity).
  destruct (events <- api_get_group_events s1 first SESSION_SCHEDULE_DAYS ;;
            session_events events)%result as [events|e].
  - simpl. rewrite Hw, Hr. repeat split; reflexivity.
  - destruct e; simpl; rewrite Hw, Hr; repeat split; reflexivity.
Qed.

Lemma maybe_check_session_bookkeeping (group_ids : list Z) (s : Process) :
  bookkeeping ["last_session_check"%string] s (snd (_maybe_check_session group_ids s)).
Proof.
  destruct s as [w reqs reads].
  unfold _maybe_check_session, sbind. rewrite run_read. simpl.
  set (s := {| world := w; session_requests := reqs; clock_reads := reads |}).
  destruct (session_check_is_recent_run (get_system_state (db w) "last_session_check") s)
    as (b & s1 & Hrun & Hs1).
  rewrite Hrun.
  assert (bookkeeping [] s s1) as Hb1
    by (destruct Hs1 as [->| ->]; [apply bookkeeping_refl|apply bookkeeping_tick]).
  assert (bookkeeping ["last_session_check"%string] s s1) as Hb1'
    by (apply (bookkeeping_trans [] ["last_session_check"%string] _ _ _ Hb1),
          bookkeeping_refl).
  destruct b; [exact Hb1'|].
  rewrite check_session_data_run. destruct group_ids as [|first rest]; [exact Hb1'|].
  assert (bookkeeping [] s (tick (requested first s1))) as Hb2.
  { apply (bookkeeping_trans [] [] _ _ _ Hb1).
    apply (bookkeeping_trans [] [] _ _ _ (bookkeeping_requested first s1)).
    apply bookkeeping_tick. }
  assert (bookkeeping ["last_session_check"%string] s (requested first s1)) as Hb3.
  { apply (bookkeeping_trans [] ["last_session_check"%string] _ _ _ Hb1).
    apply (bookkeeping_trans [] ["last_session_check"%string] _ _ _
             (bookkeeping_requested first s1)).
    apply bookkeeping_refl. }
  destruct (events <- api_get_group_events s1 first SESSION_SCHEDULE_DAYS ;;
            session_events events)%result as [events|e].
  - rewrite set_state_run. cbn [snd].
    apply (bookkeeping_trans [] ["last_session_check"%string] _ _ _ Hb2).
    apply (bookkeeping_with_state "last_session_check" _ (tick (requested first s1))).
  - destruct e; exact Hb3.
Qed.

(* ------------------------------------------------------------------- *)
(** *** The cycle *)

(** The cycle, step by step: the checks; [last_schedule_check]; the
    session check; [last_error], for the checks that raised or for the
    exception of the session check. *)
Lemma cycle_run (s : Process) :
  let groups := get_all_unique_groups (db (world s)) in
  let s1 := {| world := snd (outcomes groups (world s));
               session_requests := session_requests s;
               clock_reads := clock_reads s |} in
  let errors := failures (fst (outcomes groups (world s))) in
  let s2 := with_state "last_schedule_check" (time_text (clock_reads s)) (tick s1) in
  check_schedule_changes s
  = (Ok tt,
     match groups with
     | [] => s1
     | _ :: _ =>
         match _maybe_check_session groups s2 with
         | (Ok _, s3) =>
             match errors with
             | [] => s3
             | _ :: _ =>
                 with_state "last_error"
                   (time_text (clock_reads s3) +:+ ": " +:+ PyStr.join "; " (take 3 errors))
                   (tick s3)
             end
         | (Raise e, s3) =>
             with_state "last_error"
               (time_text (clock_reads s3) +:+ ": " +:+ exn_text e) (tick s3)
         end
     end).
Proof.
  intros groups s1 errors s2.
  unfold check_schedule_changes, try_except. unfold sbind at 1. rewrite run_read.
  fold groups. destruct groups as [|g rest] eqn:Hgroups.
  - unfold s1. reflexivity.
  - unfold sbind at 1.
    destruct (check_groups_run (g :: rest) 0 []
                {| world := world s; session_requests := session_requests s;
                   clock_reads := clock_reads s |}) as [total Hrun].
    rewrite Hrun. cbn [world session_requests clock_reads snd app].
    fold errors. fold s1.
    unfold sbind at 1. rewrite now_text_run.
    unfold sbind at 1. rewrite set_state_run.
    change (with_state "last_schedule_check" (time_text (clock_reads s1)) (tick s1)) with s2.
    unfold sbind at 1.
    destruct (_maybe_check_session (g :: rest) s2) as [[[]|e] s3].
    + destruct errors as [|msg more]; [reflexivity|].
      unfold sbind. rewrite now_text_run, set_state_run. reflexivity.
    + unfold sbind. rewrite now_text_run, set_state_run. reflexivity.
Qed.

Lemma bookkeeping_weaken (keys keys' : list string) (s s' : Process) :
  bookkeeping keys s s' -> (forall key, key ∈ keys -> key ∈ keys') ->
  bookkeeping keys' s s'.
Proof.
  intros (L & U & N & F & Y & C) Hsub. repeat split; try assumption.
  intros key Hkey. apply Y. intros Hin. apply Hkey, Hsub, Hin.
Qed.

(** After the checks, a cycle does bookkeeping only; and it has
    written [last_schedule_check] when there was a group to check. *)
Lemma cycle_tail (s : Process) :
  let groups := get_all_unique_groups (db (world s)) in
  let s1 := {| world := snd (outcomes groups (world s));
               session_requests := session_requests s;
               clock_reads := clock_reads s |} in
  let s' := snd (check_schedule_changes s) in
  bookkeeping cycle_keys s1 s'
  /\ (groups <> [] ->
      system_state (db (world s')) !! "last_schedule_check"%string
      = Some (time_text (clock_reads s))).
Proof.
  intros groups s1 s'. unfold s'. rewrite cycle_run. fold groups. fold s1. cbn [snd].
  destruct groups as [|g rest] eqn:Hgroups.
  { split; [apply bookkeeping_refl|]. intros Hne. contradiction. }
  set (s2 := with_state "last_schedule_check" (time_text (clock_reads s)) (tick s1)).
  assert (bookkeeping ["last_schedule_check"%string] s1 s2) as Hb2.
  { apply (bookkeeping_trans [] ["last_schedule_check"%string] _ _ _ (bookkeeping_tick s1)).
    apply bookkeeping_with_state. }
  assert (system_state (db (world s2)) !! "last_schedule_check"%string
          = Some (time_text (clock_reads s))) as Hset
    by apply lookup_insert_eq.
  pose proof (maybe_check_session_bookkeeping (g :: rest) s2) as Hb3.
  destruct (_maybe_check_session (g :: rest) s2) as [r s3]. cbn [snd] in Hb3.
  assert (bookkeeping ["last_schedule_check"; "last_session_check"]%string s1 s3) as Hb13
    by apply (bookkeeping_trans _ _ _ _ _ Hb2 Hb3).
  assert (system_state (db (world s3)) !! "last_schedule_check"%string
          = Some (time_text (clock_reads s))) as Hset3.
  { destruct Hb3 as (_ & _ & _ & _ & Y & _). rewrite Y; [exact Hset|].
    intros Hin. apply list_elem_of_singleton in Hin. discriminate. }
  assert (forall value,
            bookkeeping cycle_keys s1 (with_state "last_error" value (tick s3))
            /\ system_state (db (world (with_state "last_error" value (tick s3))))
                 !! "last_schedule_check"%string
               = Some (time_text (clock_reads s))) as Herror.
  { intros value. split.
    - apply (bookkeeping_trans _ ["last_error"%string] _ _ _ Hb13).
      apply (bookkeeping_trans [] ["last_error"%string] _ _ _ (bookkeeping_tick s3)).
      apply bookkeeping_with_state.
    - simpl. rewrite lookup_insert_ne by discriminate. exact Hset3. }
  destruct r as [[]|e].
  - destruct (failures (fst (outcomes (g :: rest) (world s)))) as [|msg more].
    + split; [|intros _; exact Hset3].
      apply (bookkeeping_weaken _ _ _ _ Hb13). intros key Hkey.
      apply elem_of_cons in Hkey as [->|Hkey]; [left|].
      apply list_elem_of_singleton in Hkey as ->. right. left.
    + destruct (Herror (time_text (clock_reads s3) +:+ ": "
                        +:+ PyStr.join "; " (take 3 (msg :: more)))) as [Hb Hs].
      split; [exact Hb|intros _; exact Hs].
  - destruct (Herror (time_text (clock_reads s3) +:+ ": " +:+ exn_text e)) as [Hb Hs].
    split; [exact Hb|intros _; exact Hs].
Qed.

(** X20. A cycle never raises, and it fetches every group of the users
    table once, in the order of [get_all_unique_groups], whatever the
    checks of the other groups did: a check that raised stops
    nothing. *)
Theorem cycle_checks_every_group (s : Process) :
  let run := check_schedule_changes s in
  fst run = Ok tt
  /\ NoDup (get_all_unique_groups (db (world s)))
  /\ fetches (new_effects (world s) (world (snd run)))
     = get_all_unique_groups (db (world s)).
Proof.
  intros run. split; [unfold run; rewrite cycle_run; reflexivity|].
  split; [apply get_all_unique_groups_NoDup|].
  destruct (cycle_tail s) as [(Hlog & _) _]. fold run in Hlog. cbn [world] in Hlog.
  destruct (outcomes_effects (get_all_unique_groups (db (world s))) (world s))
    as (_ & (es & Hes & Hf) & _).
  rewrite (new_effects_app (world s) (world (snd run)) es); [exact Hf|].
  rewrite Hlog. exact Hes.
Qed.

(** X21. A cycle keeps to its part of the store: it leaves the users
    alone, forgets no fingerprint, writes no snapshot but the regular
    ones of the groups it checks, and no key of the system state but
    [last_schedule_check], [last_session_check] and [last_error]. *)
Theorem cycle_keeps_to_its_part (s : Process) :
  let d := db (world s) in
  let d' := db (world (snd (check_schedule_changes s))) in
  users d' = users d
  /\ sent_notifications d ⊆ sent_notifications d'
  /\ (forall g ty, g ∉ get_all_unique_groups d \/ ty <> "regular"%string ->
        schedule_snapshots d' !! (g, ty) = schedule_snapshots d !! (g, ty))
  /\ (forall key, key ∉ cycle_keys -> system_state d' !! key = system_state d !! key).
Proof.
  intros d d'. subst d d'. destruct (cycle_tail s) as [(_ & U & N & F & Y & _) _].
  cbn [world] in U, N, F, Y.
  destruct (outcomes_effects (get_all_unique_groups (db (world s))) (world s))
    as (_ & _ & (U1 & Y1 & F1 & N1)).
  split; [congruence|]. split; [rewrite F; exact F1|]. split.
  - intros g ty Hg. rewrite N. apply N1. exact Hg.
  - intros key Hkey. rewrite (Y key Hkey), Y1. reflexivity.
Qed.

(** X22. A cycle without a group to check does nothing at all; any
    other cycle records the time of its first clock reading as
    [last_schedule_check]. *)
Theorem cycle_records_its_run (s : Process) :
  let s' := snd (check_schedule_changes s) in
  match get_all_unique_groups (db (world s)) with
  | [] => s' = s
  | _ :: _ =>
      get_system_state (db (world s')) "last_schedule_check"
      = Some (time_text (clock_reads s))
  end.
Proof.
  intros s'. destruct (get_all_unique_groups (db (world s))) as [|g rest] eqn:Hgroups.
  - unfold s'. rewrite cycle_run, Hgroups. simpl. apply process_eta.
  - destruct (cycle_tail s) as [_ Hset]. apply Hset. rewrite Hgroups. discriminate.
Qed.

(** X23. What a cycle leaves in [last_error].  The session check of the
    cycle is [_maybe_check_session] on the groups of the cycle, run in
    the state the cycle has reached by then: after the checks of the
    groups and the write of [last_schedule_check].  A cycle without a
    group leaves [last_error] as it was.  When the session check
    returned, [last_error] is what it was if no check of a group
    raised, and otherwise the time of the last clock reading and the
    messages of the first three groups whose check raised, in order.
    When the session check raised, [last_error] is the time of the
    last clock reading and the text of that exception alone, whatever
    the checks of the groups did. *)
Theorem cycle_reports_the_checks_that_raised (s : Process) :
  let groups := get_all_unique_groups (db (world s)) in
  let checked := outcomes groups (world s) in
  let errors := failures (fst checked) in
  let at_session_check :=
    with_state "last_schedule_check" (time_text (clock_reads s))
      (tick {| world := snd checked;
               session_requests := session_requests s;
               clock_reads := clock_reads s |}) in
  let s' := snd (check_schedule_changes s) in
  let last_error := fun p : Process => get_system_state (db (world p)) "last_error" in
  match groups with
  | [] => last_error s' = last_error s
  | _ :: _ =>
      match fst (_maybe_check_session groups at_session_check), errors with
      | Ok _, [] => last_error s' = last_error s
      | Ok _, _ :: _ =>
          last_error s'
          = Some (time_text (pred (clock_reads s')) +:+ ": "
                  +:+ PyStr.join "; " (take 3 errors))
      | Raise e, _ =>
          last_error s'
          = Some (time_text (pred (clock_reads s')) +:+ ": " +:+ exn_text e)
      end
  end.
Proof.
  intros groups checked errors at_session_check s' last_error.
  unfold s', last_error, get_system_state.
  rewrite cycle_run. fold groups. fold checked. fold errors. cbn [snd].
  destruct (outcomes_effects groups (world s)) as (_ & _ & (_ & Y1 & _)).
  fold checked in Y1.
  set (s1 := {| world := snd checked;
                session_requests := session_requests s;
                clock_reads := clock_reads s |}) in *.
  destruct groups as [|g rest] eqn:Hgroups.
  { unfold s1. simpl. unfold checked. reflexivity. }
  fold at_session_check.
  pose proof (maybe_check_session_bookkeeping (g :: rest) at_session_check)
    as (_ & _ & _ & _ & Y3 & _).
  destruct (_maybe_check_session (g :: rest) at_session_check) as [r s3] eqn:Hsession.
  cbn [fst snd] in Y3 |- *.
  destruct r as [[]|e].
  - destruct errors as [|msg more].
    + rewrite Y3 by (intros Hin; apply list_elem_of_singleton in Hin; discriminate).
      unfold at_session_check, with_state, set_system_state, tick, s1.
      cbn [world db system_state]. rewrite lookup_insert_ne by discriminate.
      rewrite Y1. reflexivity.
    + simpl. apply lookup_insert_eq.
  - simpl. apply lookup_insert_eq.
Qed.

(** X24. Once [set_user_group] has put a user into a group, every cycle
    that runs on that table fetches the group; and the user is
    subscribed to it if they are new, or had notifications switched
    on. *)
Theorem picked_group_is_checked (d : Database) (uid g : Z) (gname : string) :
  let d' := set_user_group d uid g gname in
  (forall s, db (world s) = d' ->
     g ∈ fetches (new_effects (world s) (world (snd (check_schedule_changes s)))))
  /\ (get_user d uid = None
      \/ (exists row, get_user d uid = Some row /\ notifications_enabled row = 1) ->
      subscribed d' g uid).
Proof.
  intros d'.
  destruct (create_or_update_user_users d uid (Some g) (Some gname) None) as (Hu & _).
  fold (set_user_group d uid g gname) in Hu. fold d' in Hu.
  split.
  - intros s Hs.
    destruct (cycle_tail s) as [(Hlog & _) _]. cbn [world] in Hlog.
    destruct (outcomes_effects (get_all_unique_groups (db (world s))) (world s))
      as (_ & (es & Hes & Hf) & _).
    rewrite (new_effects_app (world s) _ es) by (rewrite Hlog; exact Hes).
    rewrite Hf, Hs. apply elem_of_get_all_unique_groups. rewrite Hu.
    destruct (get_user d uid) as [row|] eqn:Hg.
    + exists (update_user (Some g) (Some gname) None row). split; [|reflexivity].
      unfold get_user in Hg. apply find_some in Hg as [Hin Hid].
      apply list_elem_of_In, in_map_iff. exists row. rewrite Hid.
      split; [reflexivity|exact Hin].
    + eexists. split; [apply elem_of_app; right; left|reflexivity].
  - intros Hsub. unfold subscribed. rewrite Hu.
    destruct (get_user d uid) as [row|] eqn:Hg.
    + destruct Hsub as [Hnone|(row' & Hsome & Hon)]; [discriminate|].
      injection Hsome as <-.
      exists (update_user (Some g) (Some gname) None row).
      unfold get_user in Hg. apply find_some in Hg as [Hin Hid].
      split; [|repeat split; [apply Z.eqb_eq; exact Hid|exact Hon]].
      apply list_elem_of_In, in_map_iff. exists row. rewrite Hid.
      split; [reflexivity|exact Hin].
    + eexists. split; [apply elem_of_app; right; left|]. repeat split.
Qed.

(* ------------------------------------------------------------------- *)
(** *** A cycle after a cycle *)

(** A check that returned leaves the hash of what it fetched in the
    regular snapshot of its group. *)
Lemma check_leaves_hash (g : Z) (w : World) (n : Z) :
  fst (_check_group_schedule g w) = Ok n ->
  exists new_events old_events,
    api_get_group_schedule_regular w g = Ok new_events
    /\ schedule_snapshots (db (snd (_check_group_schedule g w))) !! (g, "regular"%string)
       = Some (_hash_schedule new_events, old_events).
Proof.
  rewrite check_group_schedule_run.
  destruct (api_get_group_schedule_regular w g) as [new_events|e]; [|discriminate].
  intros Hr. exists new_events.
  destruct (schedule_snapshots (db w) !! (g, "regular"%string)) as [[h old_events]|] eqn:Hs.
  - destruct (decide (h = _hash_schedule new_events)) as [->|Hne].
    + rewrite bool_decide_eq_true_2 by reflexivity. exists old_events.
      split; [reflexivity|exact Hs].
    + revert Hr. rewrite bool_decide_eq_false_2 by exact Hne.
      destruct (notify_schedule_changes g old_events new_events (fetched w g))
        as [[m|e] w1]; simpl; [|discriminate].
      intros _. exists new_events. split; [reflexivity|apply lookup_insert_eq].
  - exists new_events. split; [reflexivity|apply lookup_insert_eq].
Qed.

(** After checks that all returned, every group has the hash of its
    events in its snapshot, when the source answers the same at every
    moment. *)
Lemma outcomes_leave_hashes (groups : list Z) (w : World) :
  (forall w1 w2 g, api_get_group_schedule_regular w1 g
                   = api_get_group_schedule_regular w2 g) ->
  NoDup groups ->
  Forall (fun o => is_ok (snd o) = true) (fst (outcomes groups w)) ->
  forall g, g ∈ groups ->
    exists new_events old_events,
      api_get_group_schedule_regular w g = Ok new_events
      /\ schedule_snapshots (db (snd (outcomes groups w))) !! (g, "regular"%string)
         = Some (_hash_schedule new_events, old_events).
Proof.
  intros Hsame. revert w. induction groups as [|g0 rest IH]; intros w Hnd Hok g Hin.
  - inversion Hin.
  - apply NoDup_cons in Hnd as [Hg0 Hnd]. cbn [outcomes] in Hok |- *.
    pose proof (check_leaves_hash g0 w) as Hhash.
    destruct (_check_group_schedule g0 w) as [r w1]. cbn [fst snd] in Hhash.
    pose proof (IH w1 Hnd) as IHrest.
    destruct (outcomes_effects rest w1) as (_ & _ & (_ & _ & _ & Hframe)).
    destruct (outcomes rest w1) as [os w2]. cbn [fst snd] in *.
    inversion Hok as [|? ? Hr Hos]; subst. cbn [snd] in Hr.
    apply elem_of_cons in Hin as [->|Hin].
    + destruct r as [n|e]; [|discriminate].
      destruct (Hhash n eq_refl) as (new_events & old_events & Hf & Hs).
      exists new_events, old_events. split; [exact Hf|].
      rewrite Hframe by (left; exact Hg0). exact Hs.
    + destruct (IHrest Hos g Hin) as (new_events & old_events & Hf & Hs).
      exists new_events, old_events. split; [|exact Hs].
      rewrite (Hsame w w1). exact Hf.
Qed.

(** Checks of groups whose snapshots hold the hash of what the source
    answers do nothing but fetch. *)
Lemma outcomes_steady (groups : list Z) (w : World) :
  (forall w1 w2 g, api_get_group_schedule_regular w1 g
                   = api_get_group_schedule_regular w2 g) ->
  (forall g, g ∈ groups ->
     exists new_events old_events,
       api_get_group_schedule_regular w g = Ok new_events
       /\ schedule_snapshots (db w) !! (g, "regular"%string)
          = Some (_hash_schedule new_events, old_events)) ->
  snd (outcomes groups w) = {| db := db w; log := log w ++ List.map Fetch groups |}.
Proof.
  intros Hsame. revert w. induction groups as [|g rest IH]; intros w Hall.
  - simpl. rewrite app_nil_r. destruct w. reflexivity.
  - cbn [outcomes]. destruct (Hall g) as (new_events & old_events & Hf & Hs); [left|].
    rewrite check_group_schedule_run, Hf, Hs.
    rewrite bool_decide_eq_true_2 by reflexivity.
    specialize (IH (fetched w g)).
    destruct (outcomes rest (fetched w g)) as [os w2]. cbn [snd] in *.
    rewrite IH.
    + simpl. rewrite <- app_assoc. reflexivity.
    + intros g' Hg'. destruct (Hall g') as (ne & oe & Hf' & Hs'); [right; exact Hg'|].
      exists ne, oe. split; [|exact Hs']. rewrite (Hsame _ w). exact Hf'.
Qed.

(** X27. After a cycle in which every check returned, the next cycle
    does nothing but fetch the groups, when the source answers the
    same throughout: no diff is computed, nothing is sent, marked or
    saved. *)
Theorem cycle_after_quiet_cycle (s : Process) :
  (forall w1 w2 g, api_get_group_schedule_regular w1 g
                   = api_get_group_schedule_regular w2 g) ->
  Forall (fun o => is_ok (snd o) = true)
    (fst (outcomes (get_all_unique_groups (db (world s))) (world s))) ->
  let s1 := snd (check_schedule_changes s) in
  new_effects (world s1) (world (snd (check_schedule_changes s1)))
  = List.map Fetch (get_all_unique_groups (db (world s))).
Proof.
  intros Hsame Hok s1.
  set (groups := get_all_unique_groups (db (world s))) in *.
  destruct (cycle_tail s) as [(_ & Hu & Hn & _) _]. fold s1 in Hu, Hn. cbn [world] in Hu, Hn.
  fold groups in Hu, Hn.
  destruct (outcomes_effects groups (world s)) as (_ & _ & (Hu1 & _)).
  assert (get_all_unique_groups (db (world s1)) = groups) as Hgroups.
  { unfold groups, get_all_unique_groups. rewrite Hu, Hu1. reflexivity. }
  destruct (cycle_tail s1) as [(Hlog & _) _]. cbn [world] in Hlog.
  rewrite Hgroups in Hlog.
  rewrite outcomes_steady in Hlog; [|exact Hsame|].
  - apply new_effects_app. exact Hlog.
  - intros g Hg.
    destruct (outcomes_leave_hashes groups (world s) Hsame
                (get_all_unique_groups_NoDup _) Hok g Hg)
      as (new_events & old_events & Hf & Hs).
    exists new_events, old_events. split; [rewrite (Hsame _ (world s)); exact Hf|].
    rewrite Hn. exact Hs.
Qed.

End Cycle.

End Pipeline.

(* ===================================================================== *)
(** ** A concrete run *)
(* ===================================================================== *)

(** The runtime the examples are evaluated in: [repr] as CPython prints
    it, sets iterated in the order of [elements]. *)
#[global] Instance reference_runtime : Runtime := {|
  py_repr := PyRepr.repr;
  set_iter := elements;
  set_iter_perm := fun X => reflexivity (elements X)
|}.

(** The store the examples are evaluated in: [SELECT DISTINCT] keeps
    the values in the order of [remove_dups]. *)
#[global] Instance reference_sqlite : Sqlite := {|
  select_distinct := remove_dups;
  select_distinct_perm := fun l => reflexivity (remove_dups l)
|}.

Module Scenario.

(** A lesson as the schedule API sends it, with [DayDate] set by the
    client. *)
Definition lecture (start : string) : event :=
  [("StudyEventsTimeTableKindCode", JNum 0);
   ("Start", JStr start);
   ("End", JStr "11:30");
   ("Subject", JStr "Алгебра");
   ("Kind", JStr "лекция");
   ("TimeIntervalString", JStr "10:00–11:30");
   ("EducatorIds", JArr [JObj [("Item1", JNum 5); ("FullName", JStr "Иванов И. И.")]]);
   ("EventLocations", JArr [JObj [("DisplayName", JStr "Волховский пер., 3, ауд. 101")]]);
   ("DayDate", JStr "2024-09-28")].

Definition at10 : event := lecture "10:00".
Definition at12 : event := lecture "12:00".

Definition lecture_key : string :=
  "2024-09-28|Алгебра|лекция|Иванов И. И.|Волховский пер., 3, ауд. 101".

Definition normalized_lecture (start : string) : normalized :=
  {| date := JStr "2024-09-28";
     time_start := JStr start;
     time_end := JStr "11:30";
     time_interval := JStr "10:00–11:30";
     subject := JStr "Алгебра";
     kind := JStr "лекция";
     educators := [JStr "Иванов И. И."];
     locations := [JStr "Волховский пер., 3, ауд. 101"];
     is_online := false |}.

(** The same lesson as an exam, and held remotely. *)
Definition exam (start : string) : event :=
  Py.set "Kind" (JStr "Экзамен") (lecture start).

Definition in_dot : event :=
  Py.set "EventLocations" (JArr [JObj [("DisplayName", JStr "ДОТ")]]) at10.

Definition with_note : event :=
  at10 ++ [("OnlineNote", JStr "Занятие проводится онлайн")].

(** An oral exam, and a lesson whose date holds a bar: the two split one
    text differently into date, subject, kind and educators, and so
    share their key. *)
Definition oral_exam : event :=
  [("DayDate", JStr "2024-09-28"); ("Subject", JStr "Экзамен"); ("Kind", JStr "устный");
   ("Educators", JArr [JStr EmptyString; JStr EmptyString]); ("Start", JStr "10:00")].

Definition relabelled : event :=
  [("DayDate", JStr "2024-09-28|Экзамен"); ("Subject", JStr "устный");
   ("Kind", JStr EmptyString); ("Start", JStr "12:00")].

Definition relabelled_diff : diff :=
  {| added := [];
     removed := [];
     changed := [ {| old := Some oral_exam; new := Some relabelled;
                     changes := ["time"; "educator"] |} ] |}.

(** A lesson that the source lists by its time range alone, without
    [Start] and [End]. *)
Definition by_interval (interval : string) : event :=
  [("Subject", JStr "Алгебра");
   ("Kind", JStr "лекция");
   ("TimeIntervalString", JStr interval);
   ("EducatorIds", JArr [JObj [("Item1", JNum 5); ("FullName", JStr "Иванов И. И.")]]);
   ("EventLocations", JArr [JObj [("DisplayName", JStr "Волховский пер., 3, ауд. 101")]]);
   ("DayDate", JStr "2024-09-28")].

Definition morning : event := by_interval "10:00–11:30".
Definition noon : event := by_interval "12:00–13:30".

(** Collaborators: a card that shows the subject, a sink that user 9
    has blocked, a source that serves group 1. *)
Definition card (ev : event) : result string := Ok (py_str (Py.get ev "Subject")).

Definition bot (w : World) (user : Z) (text : string) : tg_outcome :=
  if user =? 9 then TelegramForbiddenError else Delivered.

Definition api (w : World) (g : Z) : result (list event) :=
  if g =? 1 then Ok [at12] else Raise SpbuApiError.

(** The source once the lecture has moved back to 10:00. *)
Definition api_moved (w : World) (g : Z) : result (list event) :=
  if g =? 1 then Ok [at10] else Raise SpbuApiError.

(** The source while the lesson listed by its time range is in the
    morning, and once it has moved to noon. *)
Definition api_morning (w : World) (g : Z) : result (list event) :=
  if g =? 1 then Ok [morning] else Raise SpbuApiError.

Definition api_noon (w : World) (g : Z) : result (list event) :=
  if g =? 1 then Ok [noon] else Raise SpbuApiError.

Definition subscriber (user enabled : Z) : user_row :=
  {| user_id := user;
     group_id := Some 1;
     group_name := Some "21.Б01-м"%string;
     notifications_enabled := enabled |}.

Definition db0 : Database :=
  {| users := [subscriber 7 1; subscriber 8 0; subscriber 9 1];
     schedule_snapshots := ∅;
     sent_notifications := ∅;
     system_state := ∅ |}.

(** The world before the first check, and after it. *)
Definition w0 : World := {| db := db0; log := [] |}.
Definition w1 : World := snd (_check_group_schedule card bot api 1 w0).

(** The world after a third check, the lecture having moved. *)
Definition w2 : World := snd (_check_group_schedule card bot api_moved 1 w1).

Definition time_change : change :=
  {| old := Some at10; new := Some at12; changes := ["time"] |}.

Definition time_payload : pydict :=
  [("type", JStr "changed"); ("event_key", JStr lecture_key);
   ("changes", JArr [JStr "time"])].

Definition time_text : string :=
  let newline := String (ascii_of_N 10) EmptyString in
  "🔔 Изменение в расписании 21.Б01-м" +:+ newline +:+ newline
  +:+ "Что изменилось:" +:+ newline +:+ "• ✏️ Изменено: время"
  +:+ newline +:+ newline +:+ "Алгебра".

(** The diff of a week in which the lecture and the exam both move
    from 10:00 to 12:00. *)
Definition old_week : list event := [at10; exam "10:00"].
Definition new_week : list event := [at12; exam "12:00"].

Definition week_diff : diff :=
  {| added := [];
     removed := [];
     changed :=
       [ time_change;
         {| old := Some (exam "10:00"); new := Some (exam "12:00"); changes := ["time"] |} ] |}.

(** The 10:00 lecture with its keys in another order, those of the
    educator included. *)
Definition at10_reordered : event :=
  [("Start", JStr "10:00");
   ("StudyEventsTimeTableKindCode", JNum 0);
   ("End", JStr "11:30");
   ("Subject", JStr "Алгебра");
   ("Kind", JStr "лекция");
   ("TimeIntervalString", JStr "10:00–11:30");
   ("EducatorIds", JArr [JObj [("FullName", JStr "Иванов И. И."); ("Item1", JNum 5)]]);
   ("EventLocations", JArr [JObj [("DisplayName", JStr "Волховский пер., 3, ауд. 101")]]);
   ("DayDate", JStr "2024-09-28")].

(** A lesson as a day of the response lists it, before the client puts
    the date on it; and a response of two days. *)
Definition listed (subject start : string) : event :=
  [("Start", JStr start); ("Subject", JStr subject); ("Kind", JStr "лекция")].

Definition saturday : pydict :=
  [("Day", JStr "2024-09-28");
   ("DayStudyEvents", JArr [JObj (listed "Алгебра" "10:00"); JObj (listed "Анализ" "12:00")])].

Definition monday : pydict :=
  [("Day", JStr "2024-09-30");
   ("DayStudyEvents", JArr [JObj (listed "Алгебра" "14:00")])].

Definition response : pydict :=
  [("StudentGroupId", JNum 1); ("Days", JArr [JObj saturday; JObj monday])].

(** A server that fails twice and then answers. *)
Definition flaky (attempt : nat) : reply :=
  match attempt with
  | O => Response 503 JNull
  | Datatypes.S O => ClientError
  | _ => Response 200 (JObj response)
  end.

(** A server that fails once and then refuses. *)
Definition refusing (attempt : nat) : reply :=
  match attempt with
  | O => Response 503 JNull
  | _ => Response 404 JNull
  end.

(** The scheduler's collaborators: a clock that is read once an hour
    from midnight on, the texts of these hours, and a source of session
    schedules that serves group 1. *)
Definition hour : Z := 3600 * 1000000.

Definition clock (n : nat) : Z := hour * Z.of_nat n.

Definition two_digits (n : Z) : string :=
  (if n <? 10 then "0" else EmptyString) +:+ PyStr.of_Z n.

Definition strftime (t : Z) : string :=
  "2024-09-28 " +:+ two_digits (t / hour) +:+ ":00:00".

Definition strptime (text : string) : option Z :=
  option_map (fun h => hour * Z.of_nat h)
    (find (fun h => String.eqb (strftime (hour * Z.of_nat h)) text) (seq 0 24)).

Definition exn_text (e : exn) : string :=
  match e with
  | SpbuApiError => "API returned status 404"
  | TypeError => "not iterable"
  | AttributeError => "object has no attribute"
  | KeyError => "key"
  | OtherError => "error"
  end.

Definition session_api (s : Process) (g days : Z) : result (list json) :=
  if g =? 1 then Ok [JObj (exam "10:00"); JObj at10] else Raise SpbuApiError.

(** A second group, which the source does not serve. *)
Definition db_two_groups : Database :=
  {| users := users db0 ++
              [ {| user_id := 10; group_id := Some 2; group_name := None;
                   notifications_enabled := 1 |} ];
     schedule_snapshots := ∅;
     sent_notifications := ∅;
     system_state := ∅ |}.

(** The process before its first cycle, and after it. *)
Definition p0 : Process :=
  {| world := {| db := db_two_groups; log := [] |};
     session_requests := [];
     clock_reads := 0 |}.

Definition p1 : Process :=
  snd (check_schedule_changes card bot api clock strftime strptime exn_text session_api p0).

(** A process whose users are all in group 1. *)
Definition q0 : Process :=
  {| world := w0; session_requests := []; clock_reads := 0 |}.

Definition q1 : Process :=
  snd (check_schedule_changes card bot api clock strftime strptime exn_text session_api q0).

End Scenario.

(* --------------------------------------------------------------------- *)
(** *** The embedding against the interpreter

    The expected values below were produced by CPython. *)

Example lower_mixed : PyStr.lower "OnLine ДОТ Ёж" = "online дот ёж"%string.
Proof. vm_compute. reflexivity. Qed.

Example contains_keyword : PyStr.contains "экзамен" "устный экзамен, 2 курс" = true.
Proof. vm_compute. reflexivity. Qed.

Example chars_mixed : PyStr.chars "aДb" = ["a"; "Д"; "b"]%string.
Proof. vm_compute. reflexivity. Qed.

Example sha256_abc :
  SHA256.hexdigest "abc"
  = "ba7816bf8f01cfea414140de5dae2223b00361a396177a9cb410ff61f20015ad"%string.
Proof. vm_compute. reflexivity. Qed.

Example sha256_empty :
  SHA256.hexdigest EmptyString
  = "e3b0c44298fc1c149afbf4c8996fb92427ae41e4649b934ca495991b7852b855"%string.
Proof. vm_compute. reflexivity. Qed.

Example sha256_two_blocks :
  SHA256.hexdigest "abcdbcdecdefdefgefghfghighijhijkijkljklmklmnlmnomnopnopq"
  = "248d6a61d20638b8e5c026930c3e6039a33ce45964ff2167f6ecedd419db06c1"%string.
Proof. vm_compute. reflexivity. Qed.

Example dumps_sorted :
  Json.dumps true (JObj [("b", JArr [JNum (-5); JNull; JBool true]); ("a", JObj [])])
  = ("{" +:+ Json.quote +:+ "a" +:+ Json.quote +:+ ": {}, "
     +:+ Json.quote +:+ "b" +:+ Json.quote +:+ ": [-5, null, true]}")%string.
Proof. vm_compute. reflexivity. Qed.

Example lecture_has_key : create_event_key Scenario.at10 = Ok Scenario.lecture_key.
Proof. vm_compute. reflexivity. Qed.

Example lecture_normalized :
  normalize_event Scenario.at12 = Ok (Scenario.normalized_lecture "12:00").
Proof. vm_compute. reflexivity. Qed.

Example exam_is_session : is_session_event (Scenario.exam "12:00") = Ok true.
Proof. vm_compute. reflexivity. Qed.

Example lecture_is_not_session : is_session_event Scenario.at12 = Ok false.
Proof. vm_compute. reflexivity. Qed.

Example fingerprint_of_time_change :
  _hash_notification 7 Scenario.time_payload
  = "db8368bed96f735e0e1b3c13bb8c0f76ccdf7f08eb3d6d7db9cac169face15b1"%string.
Proof. vm_compute. reflexivity. Qed.

Example week_compared :
  compare_schedules Scenario.old_week Scenario.new_week = Ok Scenario.week_diff.
Proof. vm_compute. reflexivity. Qed.

(** One dispatch over the week: user 7 is reached and recorded, user 8
    has notifications off, user 9 has blocked the bot and is not
    recorded; the exam is not mentioned to anyone. *)
Example week_dispatched :
  new_effects Scenario.w0
    (snd (notify_schedule_changes Scenario.card Scenario.bot 1
            Scenario.old_week Scenario.new_week Scenario.w0))
  = [Notify 1 Scenario.old_week Scenario.new_week;
     Send 7 Scenario.time_text Scenario.time_payload Delivered;
     MarkSent 7 Scenario.time_payload;
     Send 9 Scenario.time_text Scenario.time_payload TelegramForbiddenError].
Proof. vm_compute. reflexivity. Qed.

(** The same dispatch again: only user 9 is tried again. *)
Example week_dispatched_again :
  let w := snd (notify_schedule_changes Scenario.card Scenario.bot 1
                  Scenario.old_week Scenario.new_week Scenario.w0) in
  new_effects w
    (snd (notify_schedule_changes Scenario.card Scenario.bot 1
            Scenario.old_week Scenario.new_week w))
  = [Notify 1 Scenario.old_week Scenario.new_week;
     Send 9 Scenario.time_text Scenario.time_payload TelegramForbiddenError].
Proof. vm_compute. reflexivity. Qed.

(** The bar is not escaped in a key: two events that split the same text
    differently share their key, and the comparison pairs them as one
    lesson that changed, although only the first of them is a session
    event. *)
Example bar_inside_a_field :
  create_event_key Scenario.oral_exam = create_event_key Scenario.relabelled
  /\ is_session_event Scenario.oral_exam = Ok true
  /\ is_session_event Scenario.relabelled = Ok false
  /\ plain_identity Scenario.relabelled = false
  /\ compare_schedules [Scenario.oral_exam] [Scenario.relabelled]
     = Ok Scenario.relabelled_diff.
Proof. vm_compute. repeat split; reflexivity. Qed.

(** With the key twice in the new collection, the entry reports the
    first event (still at 10:00) while the change was found on the last
    one (at 12:00). *)
Example duplicate_key_reports_first :
  compare_schedules [Scenario.at10] [Scenario.at10; Scenario.at12]
  = Ok {| added := [];
          removed := [];
          changed := [ {| old := Some Scenario.at10;
                          new := Some Scenario.at10;
                          changes := ["time"] |} ] |}.
Proof. vm_compute. reflexivity. Qed.

(* --------------------------------------------------------------------- *)
(** *** The theorems at the concrete run *)

(** C1. A lesson that the source lists by its time range alone moves
    from the morning to noon: the two events differ in a time field and
    in nothing else, [normalize_event] extracts the two time ranges, and
    the two events have the same key; but [compare_schedules] reads
    [Start] and [End] only, so the diff is empty, the dispatch tells
    nobody, and the check of the group stores the lesson at noon as the
    new snapshot.  So a time shift is not always one changed entry. *)
Theorem time_range_shift_goes_unnoticed :
  let w := snd (_check_group_schedule Scenario.card Scenario.bot Scenario.api_morning
                  1 Scenario.w0) in
  (forall f, time_field f = false
             -> Py.assoc f Scenario.morning = Py.assoc f Scenario.noon)
  /\ Py.assoc "TimeIntervalString" Scenario.morning
     <> Py.assoc "TimeIntervalString" Scenario.noon
  /\ ((time_interval <$> normalized_of Scenario.morning,
       time_interval <$> normalized_of Scenario.noon)
      = (Some (JStr "10:00–11:30"), Some (JStr "12:00–13:30")))
  /\ create_event_key Scenario.morning = create_event_key Scenario.noon
  /\ compare_schedules [Scenario.morning] [Scenario.noon]
     = Ok {| added := []; removed := []; changed := [] |}
  /\ _check_group_schedule Scenario.card Scenario.bot Scenario.api_noon 1 w
     = (Ok 0,
        {| db := snd (save_schedule_snapshot (db w) 1 [Scenario.noon] "regular");
           log := log w ++ [Fetch 1;
                            Notify 1 [Scenario.morning] [Scenario.noon];
                            SaveSnapshot 1 "regular" [Scenario.noon]] |})
  /\ ~ time_shift_is_one_change.
Proof.
  intros w.
  assert (forall f, time_field f = false
                    -> Py.assoc f Scenario.morning = Py.assoc f Scenario.noon) as Hsame.
  { intros f Hf. unfold Scenario.morning, Scenario.noon, Scenario.by_interval.
    cbn [Py.assoc].
    destruct (String.eqb "Subject" f); [reflexivity|].
    destruct (String.eqb "Kind" f); [reflexivity|].
    destruct (String.eqb "TimeIntervalString" f) eqn:Hrange; [|reflexivity].
    apply String.eqb_eq in Hrange. subst f. vm_compute in Hf. discriminate Hf. }
  assert (Py.assoc "TimeIntervalString" Scenario.morning
          <> Py.assoc "TimeIntervalString" Scenario.noon) as Hdiffer.
  { vm_compute. discriminate. }
  assert (compare_schedules [Scenario.morning] [Scenario.noon]
          = Ok {| added := []; removed := []; changed := [] |}) as Hempty
    by (vm_compute; reflexivity).
  split; [exact Hsame|]. split; [exact Hdiffer|].
  split; [vm_compute; reflexivity|]. split; [vm_compute; reflexivity|].
  split; [exact Hempty|]. split; [vm_compute; reflexivity|].
  intros Hclaim.
  destruct (Hclaim Scenario.morning Scenario.noon
              "2024-09-28|Алгебра|лекция|Иванов И. И.|Волховский пер., 3, ауд. 101"%string
              Hsame) as [_ Hchanged].
  - exists "TimeIntervalString"%string. split; [reflexivity|exact Hdiffer].
  - vm_compute. reflexivity.
  - rewrite Hempty in Hchanged. discriminate Hchanged.
Qed.

(** The exam of the week is in the [changed] bucket, its old event at
    10:00 and its new event at 12:00 both being session events, and no
    message of the dispatch is about it. *)
Lemma exam_of_the_week_not_notified :
  is_session_event (Scenario.exam "10:00") = Ok true
  /\ forall u t data o,
       Send u t data o
         ∈ new_effects Scenario.w0
             (snd (notify_schedule_changes Scenario.card Scenario.bot 1
                     Scenario.old_week Scenario.new_week Scenario.w0)) ->
       ~ notification_about Scenario.week_diff (Scenario.exam "10:00") data.
Proof.
  assert (is_session_event (Scenario.exam "10:00") = Ok true) as Hs
    by (vm_compute; reflexivity).
  split; [exact Hs|]. intros u t data o Hsend Habout.
  destruct (session_events_never_notified Scenario.card Scenario.bot 1
              Scenario.old_week Scenario.new_week Scenario.w0 Scenario.week_diff
              (Scenario.exam "10:00")) as [_ Hsent];
    [vm_compute; reflexivity|exact Hs|].
  destruct (Hsent u t data o Hsend) as [_ Hold].
  destruct (Hold Habout) as (c & ev' & Hin & Ho & Hn & _ & Hs' & _).
  apply elem_of_cons in Hin as [->|Hin].
  - apply (f_equal (fun e => match e with Some e => Py.get e "Kind" | None => JNull end))
      in Ho. vm_compute in Ho. discriminate Ho.
  - apply list_elem_of_singleton in Hin. subst c. simpl in Hn. injection Hn as <-.
    vm_compute in Hs'. discriminate Hs'.
Defined.

(** C3 fails where a session event is the old event of an entry whose
    new event is none: the oral exam is in the [changed] bucket, and
    user 7 is sent the notification of the entry. *)
Lemma session_event_as_old_is_notified :
  ~ session_events_never_in_a_notification Scenario.card Scenario.bot.
Proof.
  intros Hnever.
  assert (exists t,
            Send 7 t (change_payload "2024-09-28|Экзамен|устный|||" ["time"; "educator"])
              Delivered
              ∈ new_effects Scenario.w0
                  (snd (notify_schedule_changes Scenario.card Scenario.bot 1
                          [Scenario.oral_exam] [Scenario.relabelled] Scenario.w0)))
    as [t Hsend].
  { eexists. vm_compute. right. left. }
  apply (Hnever 1 [Scenario.oral_exam] [Scenario.relabelled] Scenario.w0
           Scenario.relabelled_diff Scenario.oral_exam 7 t
           (change_payload "2024-09-28|Экзамен|устный|||" ["time"; "educator"])
           Delivered);
    [vm_compute; reflexivity|vm_compute; reflexivity|exact Hsend|].
  right.
  exists {| old := Some Scenario.oral_exam; new := Some Scenario.relabelled;
            changes := ["time"; "educator"] |}, "2024-09-28|Экзамен|устный|||"%string.
  split; [left|]. split; [reflexivity|].
  split; [vm_compute; reflexivity|reflexivity].
Qed.

(** The first check of group 1 stores the snapshot and tells nobody. *)
Lemma first_check_of_group_1 :
  fst (_check_group_schedule Scenario.card Scenario.bot Scenario.api 1 Scenario.w0) = Ok 0
  /\ get_schedule_snapshot (db Scenario.w1) 1 "regular"
     = (Some (_hash_schedule [Scenario.at12]), Some [Scenario.at12])
  /\ new_effects Scenario.w0 Scenario.w1 = [Fetch 1; SaveSnapshot 1 "regular" [Scenario.at12]]
  /\ sent_notifications (db Scenario.w1) = sent_notifications (db Scenario.w0).
Proof.
  apply (cold_start_stores_without_notifying Scenario.card Scenario.bot Scenario.api
           1 Scenario.w0 [Scenario.at12]); vm_compute; reflexivity.
Defined.

(** The second check of group 1, the schedule being the same, touches
    nothing. *)
Lemma second_check_of_group_1 :
  fst (_check_group_schedule Scenario.card Scenario.bot Scenario.api 1 Scenario.w1) = Ok 0
  /\ db (snd (_check_group_schedule Scenario.card Scenario.bot Scenario.api 1 Scenario.w1))
     = db Scenario.w1
  /\ new_effects Scenario.w1
       (snd (_check_group_schedule Scenario.card Scenario.bot Scenario.api 1 Scenario.w1))
     = [Fetch 1].
Proof.
  apply (unchanged_hash_touches_nothing Scenario.card Scenario.bot Scenario.api
           1 Scenario.w1 [Scenario.at12] [Scenario.at12] (_hash_schedule [Scenario.at12]));
    vm_compute; reflexivity.
Defined.

(** The third check of group 1, the lecture having moved: user 7 is
    told, user 9 cannot be reached, and the snapshot is saved all the
    same. *)
Example third_check_of_group_1 :
  new_effects Scenario.w1 Scenario.w2
  = [Fetch 1;
     Notify 1 [Scenario.at12] [Scenario.at10];
     Send 7 Scenario.time_text Scenario.time_payload Delivered;
     MarkSent 7 Scenario.time_payload;
     Send 9 Scenario.time_text Scenario.time_payload TelegramForbiddenError;
     SaveSnapshot 1 "regular" [Scenario.at10]]
  /\ get_schedule_snapshot (db Scenario.w2) 1 "regular"
     = (Some (_hash_schedule [Scenario.at10]), Some [Scenario.at10]).
Proof. vm_compute. split; reflexivity. Qed.

(** The save policy at that third check, on its branch that saves. *)
Lemma save_policy_at_third_check :
  save_policy Scenario.card Scenario.bot Scenario.api_moved 1 Scenario.w1 [Scenario.at10].
Proof.
  apply (snapshot_saved_unless_unchanged Scenario.card Scenario.bot Scenario.api_moved
           1 Scenario.w1 [Scenario.at10]).
  vm_compute. reflexivity.
Defined.

(** C6 fails at that second check: the fetch succeeds and no snapshot is
    saved. *)
Lemma second_check_saves_nothing :
  ~ snapshot_saved_after_every_fetch Scenario.card Scenario.bot Scenario.api.
Proof.
  intros Hsaved.
  assert (Scenario.api Scenario.w1 1 = Ok [Scenario.at12]) as Hfetch
    by (vm_compute; reflexivity).
  specialize (Hsaved 1 Scenario.w1 [Scenario.at12] Hfetch).
  assert (new_effects Scenario.w1
            (snd (_check_group_schedule Scenario.card Scenario.bot Scenario.api 1 Scenario.w1))
          = [Fetch 1]) as Heffects by (vm_compute; reflexivity).
  rewrite Heffects in Hsaved.
  apply list_elem_of_singleton in Hsaved. discriminate Hsaved.
Qed.

(** With the key twice in the new collection: the first is reported,
    the last is compared. *)
Lemma duplicates_at_lecture :
  first_reported_last_compared [Scenario.at10] [Scenario.at10; Scenario.at12]
    {| added := [];
       removed := [];
       changed := [ {| old := Some Scenario.at10;
                       new := Some Scenario.at10;
                       changes := ["time"] |} ] |}.
Proof.
  apply duplicates_first_reported_last_compared. vm_compute. reflexivity.
Defined.

(** C8. The online flag of [normalize_event] is false for a lesson
    located in the abbreviation's room and for a lesson with an online
    note, where the specification's flag is true (and where the card's
    own check, [has_online_indicator], is true as well). *)
Theorem online_flag_misses_abbreviation_and_note :
  (online_flag Scenario.in_dot = Ok false
   /\ spec_is_online Scenario.in_dot = Ok true
   /\ has_online_indicator Scenario.in_dot = Ok true)
  /\ (online_flag Scenario.with_note = Ok false
      /\ spec_is_online Scenario.with_note = Ok true
      /\ has_online_indicator Scenario.with_note = Ok true).
Proof. vm_compute. repeat split; reflexivity. Qed.

(* ===================================================================== *)
(** ** The further properties, at the concrete run *)
(* ===================================================================== *)

(** The lecture moved from 10:00 to 12:00 is one change of time. *)
Lemma time_shift_at_lecture :
  create_event_key Scenario.at10 = create_event_key Scenario.at12
  /\ compare_schedules [Scenario.at10] [Scenario.at12]
     = Ok {| added := []; removed := []; changed := [Scenario.time_change] |}.
Proof.
  destruct (time_shift_same_key_and_changed Scenario.at10 Scenario.at12
              (Scenario.normalized_lecture "10:00") (Scenario.normalized_lecture "12:00")
              Scenario.lecture_key) as [Hkey Hdiff];
    try (vm_compute; reflexivity).
  split; [exact Hkey|]. apply Hdiff; vm_compute; reflexivity.
Defined.

(** The week compared with itself. *)
Lemma week_against_itself :
  compare_schedules Scenario.old_week Scenario.old_week
  = Ok {| added := []; removed := []; changed := [] |}.
Proof.
  apply compare_schedules_same.
  - repeat constructor; vm_compute; reflexivity.
  - repeat constructor; vm_compute; reflexivity.
Defined.

(** The diff of the week names the lecture and the exam once each. *)
Lemma week_diff_keys :
  NoDup (bucket_keys (added Scenario.week_diff)
         ++ bucket_keys (removed Scenario.week_diff)
         ++ change_keys (changed Scenario.week_diff))
  /\ length (bucket_keys (added Scenario.week_diff)) = length (added Scenario.week_diff)
  /\ length (bucket_keys (removed Scenario.week_diff)) = length (removed Scenario.week_diff)
  /\ length (change_keys (changed Scenario.week_diff)) = length (changed Scenario.week_diff).
Proof.
  apply (compare_schedules_one_entry_per_key Scenario.old_week Scenario.new_week).
  vm_compute. reflexivity.
Defined.

(** The lecture at 10:00 and at 12:00, read field by field. *)
Lemma lecture_key_at_any_time :
  create_event_key Scenario.at10 = create_event_key Scenario.at12.
Proof.
  apply key_ignores_time_fields. intros k Hk.
  unfold Scenario.at10, Scenario.at12, Scenario.lecture. cbn [Py.assoc].
  destruct (String.eqb "StudyEventsTimeTableKindCode" k); [reflexivity|].
  destruct (String.eqb "Start" k) eqn:Hstart; [|reflexivity].
  apply String.eqb_eq in Hstart. subst k. vm_compute in Hk. discriminate Hk.
Defined.

(** The one unit of the week: the lecture; the exam has none. *)
Lemma units_of_the_week :
  (exists t, (t, Scenario.time_payload) ∈ [(Scenario.time_text, Scenario.time_payload)])
  <-> unit_wanted Scenario.week_diff Scenario.time_payload.
Proof.
  apply (units_are_the_non_session_changes Scenario.card Scenario.week_diff
           (JStr "21.Б01-м") [(Scenario.time_text, Scenario.time_payload)]).
  vm_compute. reflexivity.
Defined.

(** The check of group 1 after its first check. *)
Lemma check_after_first_check :
  _check_group_schedule Scenario.card Scenario.bot Scenario.api 1 Scenario.w1
  = (Ok 0, fetched Scenario.w1 1).
Proof.
  apply (check_after_check_is_silent Scenario.card Scenario.bot Scenario.api
           1 Scenario.w0 Scenario.w1 [Scenario.at12] 0);
    vm_compute; reflexivity.
Defined.

(** The lecture hashes to the same digest with its keys reordered. *)
Lemma reordered_lecture_hash :
  _hash_schedule [Scenario.at10] = _hash_schedule [Scenario.at10_reordered].
Proof.
  apply hash_ignores_key_order. constructor; [|constructor].
  apply (same_fields Scenario.at10 Scenario.at10_reordered
           (("Start", JStr "10:00") :: ("StudyEventsTimeTableKindCode", JNum 0)
            :: drop 2 Scenario.at10)).
  - apply (bool_decide_unpack _). vm_compute. exact I.
  - apply perm_swap.
  - repeat (constructor; [split; [reflexivity|]|]); try apply same_value;
      [|constructor].
    apply same_items. constructor; [|constructor].
    apply (same_fields _ _ [("FullName", JStr "Иванов И. И."); ("Item1", JNum 5)]).
    + apply (bool_decide_unpack _). vm_compute. exact I.
    + apply perm_swap.
    + repeat (constructor; [split; [reflexivity|apply same_value]|]). constructor.
Defined.

(** User 7 switches notifications off and on again. *)
Lemma user_7_toggles_twice :
  let d1 := snd (toggle_notifications Scenario.db0 7) in
  let d2 := snd (toggle_notifications d1 7) in
  (exists row1, get_user d1 7 = Some row1
                /\ notifications_enabled row1
                   = 1 - notifications_enabled (Scenario.subscriber 7 1))
  /\ user_columns d2 = user_columns Scenario.db0
  /\ schedule_snapshots d2 = schedule_snapshots Scenario.db0
  /\ sent_notifications d2 = sent_notifications Scenario.db0
  /\ system_state d2 = system_state Scenario.db0.
Proof.
  apply (toggle_notifications_twice Scenario.db0 7 (Scenario.subscriber 7 1)).
  - apply (bool_decide_unpack _). vm_compute. exact I.
  - reflexivity.
  - right. reflexivity.
Defined.

(** User 7 switches notifications off before the week is dispatched. *)
Lemma user_7_switched_off :
  let w' := {| db := snd (toggle_notifications (db Scenario.w0) 7);
               log := log Scenario.w0 |} in
  Forall (fun e => match e with
                   | Send u _ _ _ | MarkSent u _ => u <> 7
                   | _ => True
                   end)
    (new_effects w'
       (snd (notify_schedule_changes Scenario.card Scenario.bot 1
               Scenario.old_week Scenario.new_week w'))).
Proof.
  apply (switched_off_user_gets_nothing Scenario.card Scenario.bot Scenario.w0 7 1
           Scenario.old_week Scenario.new_week).
  reflexivity.
Defined.

(** The flaky server answers the third attempt, after 1 and 2 seconds. *)
Lemma third_attempt_succeeds :
  _request Scenario.flaky 3 = (Ok (JObj Scenario.response), backoff 0 2).
Proof.
  apply request_returns_first_success.
  - lia.
  - intros j Hj. destruct j as [|[|j]]; [reflexivity|reflexivity|lia].
  - reflexivity.
Defined.

(** The events of the two days, each with its date. *)
Lemma response_events :
  get_group_events (JObj Scenario.response)
  = Ok [JObj (stamped Scenario.saturday (Scenario.listed "Алгебра" "10:00"));
        JObj (stamped Scenario.saturday (Scenario.listed "Анализ" "12:00"));
        JObj (stamped Scenario.monday (Scenario.listed "Алгебра" "14:00"))]
  /\ forall day ev k,
       Py.assoc k (stamped day ev)
       = if String.eqb "DayDate" k
         then Some (Py.get_or day "Day" (JStr EmptyString))
         else Py.assoc k ev.
Proof.
  apply (get_group_events_stamps_the_day Scenario.response
           [(Scenario.saturday,
             [Scenario.listed "Алгебра" "10:00"; Scenario.listed "Анализ" "12:00"]);
            (Scenario.monday, [Scenario.listed "Алгебра" "14:00"])]).
  - reflexivity.
  - repeat constructor.
Defined.

(** The first cycle: both groups are fetched, group 2 fails, the
    session schedule of group 1 is requested, and the three keys are
    written. *)
Example first_cycle :
  fetches (log (world Scenario.p1)) = [1; 2]
  /\ session_requests Scenario.p1 = [1]
  /\ clock_reads Scenario.p1 = 3%nat
  /\ get_system_state (db (world Scenario.p1)) "last_schedule_check"
     = Some "2024-09-28 00:00:00"%string
  /\ get_system_state (db (world Scenario.p1)) "last_session_check"
     = Some "2024-09-28 01:00:00"%string
  /\ get_system_state (db (world Scenario.p1)) "last_error"
     = Some "2024-09-28 02:00:00: Group 2: API returned status 404"%string.
Proof. vm_compute. repeat split; reflexivity. Qed.

(** The session check of the first cycle was due. *)
Lemma first_session_check :
  let run := _maybe_check_session Scenario.clock Scenario.strftime Scenario.strptime
               Scenario.session_api [1; 2] Scenario.p0 in
  session_requests (snd run) = session_requests Scenario.p0 ++ [1]
  /\ log (world (snd run)) = log (world Scenario.p0)
  /\ match (events <- Scenario.session_api Scenario.p0 1 SESSION_SCHEDULE_DAYS ;;
            session_events events)%result with
     | Ok _ =>
         fst run = Ok tt
         /\ db (world (snd run))
            = set_system_state (db (world Scenario.p0)) "last_session_check"
                (time_text Scenario.clock Scenario.strftime (clock_reads Scenario.p0))
     | Raise SpbuApiError => fst run = Ok tt /\ db (world (snd run)) = db (world Scenario.p0)
     | Raise e => fst run = Raise e /\ db (world (snd run)) = db (world Scenario.p0)
     end.
Proof.
  apply (session_check_when_due Scenario.clock Scenario.strftime Scenario.strptime
           Scenario.session_api 1 [2] Scenario.p0 Scenario.p0).
  reflexivity.
Defined.

(** The session check of the next cycle, two hours later, is skipped. *)
Lemma second_session_check :
  _maybe_check_session Scenario.clock Scenario.strftime Scenario.strptime
    Scenario.session_api [1; 2] Scenario.p1
  = (Ok tt, tick Scenario.p1).
Proof.
  apply (session_check_is_throttled Scenario.clock Scenario.strftime Scenario.strptime
           Scenario.session_api [1; 2] Scenario.p1 "2024-09-28 01:00:00" Scenario.hour).
  - vm_compute. reflexivity.
  - discriminate.
  - vm_compute. reflexivity.
  - vm_compute. reflexivity.
Defined.

(** The second cycle over group 1, the schedule being the same, only
    fetches. *)
Lemma second_cycle_of_group_1 :
  new_effects (world Scenario.q1)
    (world (snd (check_schedule_changes Scenario.card Scenario.bot Scenario.api
                   Scenario.clock Scenario.strftime Scenario.strptime Scenario.exn_text
                   Scenario.session_api Scenario.q1)))
  = List.map Fetch (get_all_unique_groups (db (world Scenario.q0))).
Proof.
  apply (cycle_after_quiet_cycle Scenario.card Scenario.bot Scenario.api
           Scenario.clock Scenario.strftime Scenario.strptime Scenario.exn_text
           Scenario.session_api Scenario.q0).
  - intros w1 w2 g. reflexivity.
  - vm_compute. repeat constructor.
Defined.

(** The refusing server ends the request at its second attempt. *)
Lemma second_attempt_refused :
  _request Scenario.refusing 3 = (Raise SpbuApiError, backoff 0 1).
Proof.
  apply request_fails_fast.
  - lia.
  - intros j Hj. destruct j as [|j]; [reflexivity|lia].
  - reflexivity.
Defined.

(** The week with its two events the other way round. *)
Lemma week_reordered :
  compare_schedules Scenario.old_week [Scenario.exam "10:00"; Scenario.at10]
  = Ok {| added := []; removed := []; changed := [] |}
  /\ notify_schedule_changes Scenario.card Scenario.bot 1
       Scenario.old_week [Scenario.exam "10:00"; Scenario.at10] Scenario.w0
     = (Ok 0,
        {| db := db Scenario.w0;
           log := log Scenario.w0
                  ++ [Notify 1 Scenario.old_week [Scenario.exam "10:00"; Scenario.at10]] |}).
Proof.
  apply (compare_schedules_reordered Scenario.card Scenario.bot 1).
  - apply perm_swap.
  - repeat constructor; vm_compute; reflexivity.
  - apply (bool_decide_unpack _). vm_compute. exact I.
  - repeat constructor; vm_compute; reflexivity.
Defined.

(** The content hash itself depends on the order of the events: the
    reordered week goes through the dispatch, which finds nothing. *)
Example reordered_week_hash :
  _hash_schedule Scenario.old_week
  <> _hash_schedule [Scenario.exam "10:00"; Scenario.at10].
Proof. vm_compute. discriminate. Qed.
